(** * MicroPsi theano engine: arenas, links, persistence, log storage

    A shallow embedding of [micropsi_core/nodenet/theano_engine/theano_nodenet.py]
    (class [TheanoNodenet]), of [micropsi_core/micropsi_logger.py]
    (classes [RecordWebStorageHandler] and [MicropsiLogger]) and of the gate
    function of [micropsi_core/nodenet/node.py] (class [Gate]).

    Conventions of the embedding.
    - numpy [int32]/[int8] vectors are [list Z]; every value the engine stores
      is an id, a type code, an offset or a 0/1 flag far below 2^31, so no
      wrap-around arises and none is written out.
    - floating point cells (weights, activations, gate parameters) are
      rationals [Q]: a value is stored and read back as it is; rounding to
      the configured float width is outside the model.
    - Python exceptions are the constructors of [exn]; a method that may
      raise returns a [result].
    - indexing follows numpy: an index [i] with [-len <= i < 0] addresses
      [len + i], anything else outside [0, len) raises [IndexError]. *)

From Stdlib Require Import ZArith QArith String Ascii DecimalString DecimalZ Lia Sorted.
From stdpp Require Import base option list gmap strings fin_maps sorting.
From coqutil Require Import Datatypes.RecordSettersUsingExistingGetters.

Open Scope string_scope.
Open Scope Z_scope.

(** ** Exceptions and the result monad *)

Inductive exn : Type :=
| MemoryError
| IndexError
| KeyError
| ValueError
| AttributeError
| TypeError
| RecursionError.

Inductive result (A : Type) : Type :=
| Ok (a : A)
| Raise (e : exn).
Arguments Ok {A} a.
Arguments Raise {A} e.

#[global] Instance result_ret : MRet result := fun A a => Ok a.
#[global] Instance result_bind : MBind result := fun A B f m =>
  match m with
  | Ok a => f a
  | Raise e => Raise e
  end.

#[global] Instance result_fmap : FMap result := fun A B f m =>
  match m with
  | Ok a => Ok (f a)
  | Raise e => Raise e
  end.

Definition of_option {A : Type} (e : exn) (o : option A) : result A :=
  match o with
  | Some a => Ok a
  | None => Raise e
  end.

Definition is_ok {A : Type} (r : result A) : bool :=
  match r with
  | Ok _ => true
  | Raise _ => false
  end.

(** [for x in xs: s = body(x, s)], stopping at the first exception. *)
Fixpoint for_each {A S : Type} (body : A -> S -> result S) (xs : list A) (s : S)
  : result S :=
  match xs with
  | [] => Ok s
  | x :: rest => s' ← body x s; for_each body rest s'
  end.

(** ** numpy indexing *)

Definition np_index (len : nat) (i : Z) : option nat :=
  if (0 <=? i) && (i <? Z.of_nat len) then Some (Z.to_nat i)
  else if (- Z.of_nat len <=? i) && (i <? 0) then Some (Z.to_nat (Z.of_nat len + i))
  else None.

Definition getitem {A : Type} (l : list A) (i : Z) : result A :=
  of_option IndexError (k ← np_index (length l) i; l !! k).

Definition setitem {A : Type} (l : list A) (i : Z) (x : A) : result (list A) :=
  of_option IndexError (k ← np_index (length l) i; Some (<[k:=x]> l)).

(** [range(lo, hi)] *)
Definition range (lo hi : Z) : list Z := seqZ lo (hi - lo).

(** [np.where(arr == v)[0]] *)
Definition where_eq (arr : list Z) (v : Z) : list Z :=
  (fun p => Z.of_nat (fst p)) <$> filter (fun p => snd p = v) (imap pair arr).

(** [np.nonzero(arr)[0]] *)
Definition nonzero (arr : list Z) : list Z :=
  (fun p => Z.of_nat (fst p)) <$> filter (fun p => snd p ≠ 0) (imap pair arr).

(** [v in arr] *)
Definition contains (arr : list Z) (v : Z) : bool := bool_decide (v ∈ arr).

(** ** Node types, gate types and uids (module [theano_node]) *)

(** Modelled from the spec: the numeric node type codes of [theano_node],
    which is not among the sources.  The spec gives the closed enumeration
    [Register(1), Sensor, Actor, Concept, Pipe, Activator]; codes above
    [MAX_STD_NODETYPE] are native modules. *)
Definition REGISTER : Z := 1.
Definition SENSOR : Z := 2.
Definition ACTOR : Z := 3.
Definition CONCEPT : Z := 4.
Definition PIPE : Z := 5.
Definition ACTIVATOR : Z := 6.
Definition MAX_STD_NODETYPE : Z := 6.

(** Modelled from the spec: the seven canonical gates, [GEN=0 .. EXP=6]. *)
Definition GEN : Z := 0.
Definition POR : Z := 1.
Definition RET : Z := 2.
Definition SUB : Z := 3.
Definition SUR : Z := 4.
Definition CAT : Z := 5.
Definition EXP : Z := 6.

(** Modelled from the spec: the per-gate node function selectors
    [NFPG_PIPE_GEN .. NFPG_PIPE_EXP] of [theano_node]; [NFPG_PIPE_NON] is the
    value a deleted node's selectors are zeroed to. *)
Definition NFPG_PIPE_NON : Z := 0.
Definition NFPG_PIPE_GEN : Z := 1.
Definition NFPG_PIPE_POR : Z := 2.
Definition NFPG_PIPE_RET : Z := 3.
Definition NFPG_PIPE_SUB : Z := 4.
Definition NFPG_PIPE_SUR : Z := 5.
Definition NFPG_PIPE_CAT : Z := 6.
Definition NFPG_PIPE_EXP : Z := 7.

(** The node types of [STANDARD_NODETYPES] that [create_node] can be asked
    for.  The native module registry is empty, as with the constructor's
    default [native_modules={}]. *)
Inductive nodetype : Type := Register | Sensor | Actor | Pipe | Activator.

#[global] Instance nodetype_eq_dec : EqDecision nodetype.
Proof. solve_decision. Defined.

(** Modelled from the spec: [get_numerical_node_type]. *)
Definition get_numerical_node_type (t : nodetype) : Z :=
  match t with
  | Register => REGISTER
  | Sensor => SENSOR
  | Actor => ACTOR
  | Pipe => PIPE
  | Activator => ACTIVATOR
  end.

(** Modelled from the spec: [get_elements_per_type], the element count
    [max(len(slottypes), len(gatetypes))] of a type code; a code that is
    neither standard nor registered raises. *)
Definition get_elements_per_type (code : Z) : result Z :=
  if code =? REGISTER then Ok 1
  else if code =? SENSOR then Ok 1
  else if code =? ACTOR then Ok 1
  else if code =? CONCEPT then Ok 7
  else if code =? PIPE then Ok 7
  else if code =? ACTIVATOR then Ok 1
  else Raise ValueError.

(** Modelled from the spec: [get_numerical_gate_type] and
    [get_numerical_slot_type] on the canonical gate names. *)
Definition get_numerical_gate_type (gate_type : string) : result Z :=
  if decide (gate_type = "gen") then Ok GEN
  else if decide (gate_type = "por") then Ok POR
  else if decide (gate_type = "ret") then Ok RET
  else if decide (gate_type = "sub") then Ok SUB
  else if decide (gate_type = "sur") then Ok SUR
  else if decide (gate_type = "cat") then Ok CAT
  else if decide (gate_type = "exp") then Ok EXP
  else Raise ValueError.

Definition get_numerical_slot_type (slot_type : string) : result Z :=
  get_numerical_gate_type slot_type.

(** Modelled from the spec: a uid is a one-letter prefix followed by the
    decimal id; [from_id] is [int(uid[1:])], [to_id] prepends the prefix. *)
Definition int_of_uid (uid : string) : result Z :=
  match uid with
  | EmptyString => Raise ValueError
  | String _ digits => of_option ValueError (Z.of_int <$> NilZero.int_of_string digits)
  end.

Definition str (i : Z) : string := NilZero.string_of_int (Z.to_int i).

Module tnode.
Definition from_id (uid : string) : result Z := int_of_uid uid.
Definition to_id (id : Z) : string := "n" ++ str id.
End tnode.

Module tnodespace.
Definition from_id (uid : string) : result Z := int_of_uid uid.
Definition to_id (id : Z) : string := "s" ++ str id.
End tnodespace.

(** ** The weight matrix

    [W[target_elem, source_elem]].  The dense representation is a numpy
    matrix (a list of rows); the sparse one is a scipy CSR matrix, seen
    through its shape and its stored entries.  The constructor carries the
    engine's [sparse] flag: the flag and the representation are chosen
    together by [__init__] and [load] and never apart. *)

Inductive wmatrix : Type :=
| Dense (rows : list (list Q))
| Sparse (nrows ncols : nat) (entries : gmap (nat * nat) Q).

Definition is_sparse (m : wmatrix) : bool :=
  match m with
  | Dense _ => false
  | Sparse _ _ _ => true
  end.

(** [w_matrix[x, y]] / [w_matrix[x][y]] *)
Definition w_getitem (m : wmatrix) (x y : Z) : result Q :=
  match m with
  | Dense rows => row ← getitem rows x; getitem row y
  | Sparse nr nc entries =>
      kx ← of_option IndexError (np_index nr x);
      ky ← of_option IndexError (np_index nc y);
      Ok (default 0%Q (entries !! (kx, ky)))
  end.

(** [w_matrix[x, y] = weight] when sparse, [w_matrix[x][y] = weight] when
    dense. *)
Definition w_setitem (m : wmatrix) (x y : Z) (weight : Q) : result wmatrix :=
  match m with
  | Dense rows =>
      row ← getitem rows x;
      row' ← setitem row y weight;
      rows' ← setitem rows x row';
      Ok (Dense rows')
  | Sparse nr nc entries =>
      kx ← of_option IndexError (np_index nr x);
      ky ← of_option IndexError (np_index nc y);
      Ok (Sparse nr nc (<[(kx, ky) := weight]> entries))
  end.

Definition w_zeros (sparse : bool) (n : nat) : wmatrix :=
  if sparse then Sparse n n ∅ else Dense (replicate n (replicate n 0%Q)).

(** Zero row [e] and column [e]; an index outside the matrix is left alone. *)
Definition w_clear_element (m : wmatrix) (e : nat) : wmatrix :=
  match m with
  | Dense rows =>
      Dense (imap (fun i row =>
                     if decide (i = e) then replicate (length row) 0%Q
                     else if decide (e < length row)%nat then <[e := 0%Q]> row
                     else row) rows)
  | Sparse nr nc entries =>
      Sparse nr nc (filter (fun kv => fst (fst kv) ≠ e ∧ snd (fst kv) ≠ e) entries)
  end.

(** [np.lib.stride_tricks.as_strided(buf, shape=(rows, cols))] with both
    strides one cell wide: cell [(i, k)] is [buf[i + k]].  A cell past the end
    of the buffer reads memory that is not the buffer's; it is [None]. *)
Definition as_strided (buf : list Q) (rows cols : nat) : list (list (option Q)) :=
  (fun i => (fun k => buf !! (i + k)%nat) <$> seq 0 cols) <$> seq 0 rows.

(** [np.roll(buf, shift)]: cell [j] of the result is [buf[(j - shift) mod len]]. *)
Definition np_roll (buf : list Q) (shift : Z) : list Q :=
  let n := Z.of_nat (length buf) in
  omap (fun j => buf !! Z.to_nat ((Z.of_nat j - shift) mod n)) (seq 0 (length buf)).

(** ** The engine state *)

Record nodenet : Type := {
  NoN : Z;
  NoE : Z;
  NoNS : Z;
  current_step : Z;
  allocated_nodes : list Z;
  allocated_node_offsets : list Z;
  allocated_node_parents : list Z;
  allocated_elements_to_nodes : list Z;
  allocated_nodespaces : list Z;
  allocated_nodespaces_por_activators : list Z;
  allocated_nodespaces_ret_activators : list Z;
  allocated_nodespaces_sub_activators : list Z;
  allocated_nodespaces_sur_activators : list Z;
  allocated_nodespaces_cat_activators : list Z;
  allocated_nodespaces_exp_activators : list Z;
  allocated_elements_to_activators : list Z;
  last_allocated_node : Z;
  last_allocated_offset : Z;
  last_allocated_nodespace : Z;
  positions : gmap string (list Z);
  names : gmap string string;
  sensormap : gmap string (list Z);
  inverted_sensor_map : gmap string string;
  actuatormap : gmap string (list Z);
  inverted_actuator_map : gmap string string;
  w : wmatrix;
  a : list Q;
  a_shifted : list (list (option Q));
  g_factor : list Q;
  g_threshold : list Q;
  g_amplification : list Q;
  g_min : list Q;
  g_max : list Q;
  g_function_selector : list Z;
  g_theta : list Q;
  n_function_selector : list Z;
  n_node_porlinked : list Z;
  n_node_retlinked : list Z;
  warnings : list string
}.

(** [self.sparse] *)
Definition sparse (s : nodenet) : bool := is_sparse (w s).

(** [self.logger.warn(msg)] / [warnings.warn(msg)] *)
Definition warn (msg : string) (s : nodenet) : nodenet :=
  s <| warnings := (warnings s ++ [msg])%list |>.

Definition DEFAULT_NUMBER_OF_NODES : Z := 2000.
Definition AVERAGE_ELEMENTS_PER_NODE_ASSUMPTION : Z := 3.
Definition DEFAULT_NUMBER_OF_ELEMENTS : Z :=
  DEFAULT_NUMBER_OF_NODES * AVERAGE_ELEMENTS_PER_NODE_ASSUMPTION.
Definition DEFAULT_NUMBER_OF_NODESPACES : Z := 100.

(** The arrays [__init__] builds, for capacities [non], [noe], [nons]. *)
Definition empty_nodenet (non noe nons : Z) (sparse : bool) : nodenet :=
  let zN := replicate (Z.to_nat non) 0 in
  let zE := replicate (Z.to_nat noe) 0 in
  let zS := replicate (Z.to_nat nons) 0 in
  let qzeros := replicate (Z.to_nat noe) 0%Q in
  let qones := replicate (Z.to_nat noe) 1%Q in
  {| NoN := non; NoE := noe; NoNS := nons;
     current_step := 0;
     allocated_nodes := zN;
     allocated_node_offsets := zN;
     allocated_node_parents := zN;
     allocated_elements_to_nodes := zE;
     allocated_nodespaces := zS;
     allocated_nodespaces_por_activators := zS;
     allocated_nodespaces_ret_activators := zS;
     allocated_nodespaces_sub_activators := zS;
     allocated_nodespaces_sur_activators := zS;
     allocated_nodespaces_cat_activators := zS;
     allocated_nodespaces_exp_activators := zS;
     allocated_elements_to_activators := zE;
     last_allocated_node := 0;
     last_allocated_offset := 0;
     last_allocated_nodespace := 0;
     positions := ∅;
     names := ∅;
     sensormap := ∅;
     inverted_sensor_map := ∅;
     actuatormap := ∅;
     inverted_actuator_map := ∅;
     w := w_zeros sparse (Z.to_nat noe);
     a := qzeros;
     a_shifted := as_strided qzeros (Z.to_nat noe) 7;
     g_factor := qones;
     g_threshold := qzeros;
     g_amplification := qones;
     g_min := qzeros;
     g_max := qones;
     g_function_selector := zE;
     g_theta := qzeros;
     n_function_selector := zE;
     n_node_porlinked := zE;
     n_node_retlinked := zE;
     warnings := [] |}.

(** ** Id allocation *)

(** [for i in idxs: if arr[i] == 0: id = i; break] -- the index the loop
    stops at, if any. *)
Fixpoint first_free (arr : list Z) (idxs : list Z) : result (option Z) :=
  match idxs with
  | [] => Ok None
  | i :: rest =>
      v ← getitem arr i;
      if v =? 0 then Ok (Some i) else first_free arr rest
  end.

(** The id scan shared by [create_node] and [create_nodespace]: from
    [last + 1] to the capacity, then [range(last - 1)], then [MemoryError]. *)
Definition find_free_id (arr : list Z) (last capacity : Z) : result Z :=
  r1 ← first_free arr (range (last + 1) capacity);
  let id := default 0 r1 in
  id ← (if id <? 1
        then r2 ← first_free arr (range 0 (last - 1)); Ok (default id r2)
        else Ok id);
  if id <? 1 then Raise MemoryError else Ok id.

(** ** Nodespaces *)



Definition create_nodespace (parent_uid : option string) (position : option (list Z))
    (name : option string) (uid : option string) (s : nodenet)
  : result (string * nodenet) :=
  id ← match uid with
       | None => find_free_id (allocated_nodespaces s) (last_allocated_nodespace s) (NoNS s)
       | Some u => tnodespace.from_id u
       end;
  let s := s <| last_allocated_nodespace := id |> in
  parent_id ← match parent_uid with
              | None => Ok 0
              | Some p => tnodespace.from_id p
              end;
  let uid := tnodespace.to_id id in
  arr ← setitem (allocated_nodespaces s) id parent_id;
  let s := s <| allocated_nodespaces := arr |> in
  let s := match name with
           | Some nm =>
               if bool_decide (nm ≠ "") && bool_decide (nm ≠ uid)
               then s <| names := <[uid := nm]> (names s) |>
               else s
           | None => s
           end in
  let s := match position with
           | Some p => s <| positions := <[uid := p]> (positions s) |>
           | None => s
           end in
  Ok (uid, s).

(** [TheanoNodenet.__init__] for given capacities: the zeroed arrays, then
    the Root nodespace under uid [s1]. *)
Definition new_nodenet (non noe nons : Z) (sparse : bool) : result nodenet :=
  snd <$> create_nodespace None None (Some "Root") (Some (tnodespace.to_id 1))
            (empty_nodenet non noe nons sparse).

Definition init (sparse : bool) : result nodenet :=
  new_nodenet DEFAULT_NUMBER_OF_NODES DEFAULT_NUMBER_OF_ELEMENTS
    DEFAULT_NUMBER_OF_NODESPACES sparse.

(** ** Nodes *)

Definition get_node_uids (s : nodenet) : list string :=
  tnode.to_id <$> nonzero (allocated_nodes s).

Definition is_node (s : nodenet) (uid : string) : bool :=
  bool_decide (uid ∈ get_node_uids s).

(** The inner [for j in range(0, number_of_elements)] of the element scan:
    how many of the cells [i + j] are inside the vector and free, up to the
    first that is not. *)
Fixpoint count_free (elements : list Z) (i : Z) (js : list Z) : result Z :=
  match js with
  | [] => Ok 0
  | j :: rest =>
      if i + j <? Z.of_nat (length elements)
      then v ← getitem elements (i + j);
           if v =? 0 then c ← count_free elements i rest; Ok (1 + c) else Ok 0
      else Ok 0
  end.

(** The [while offset < 1] loop of [create_node].  Every round either
    returns, raises, moves [i] forward or restarts once from [0], so the
    loop ends; [fuel] bounds the rounds (see [find_offset_fuel_irrelevant]). *)
Fixpoint find_offset_loop (fuel : nat) (elements : list Z) (number_of_elements noe : Z)
    (i : Z) (has_restarted_from_zero : bool) : result Z :=
  match fuel with
  | O => Raise MemoryError
  | S fuel' =>
      freecount ← count_free elements i (range 0 number_of_elements);
      if number_of_elements <=? freecount then Ok i
      else
        let i := i + freecount + 1 in
        if noe <=? i
        then if has_restarted_from_zero then Raise MemoryError
             else find_offset_loop fuel' elements number_of_elements noe 0 true
        else find_offset_loop fuel' elements number_of_elements noe i
               has_restarted_from_zero
  end.

Definition find_offset_fuel (noe i : Z) : nat :=
  (Z.to_nat (noe - i) + Z.to_nat noe + 2)%nat.

Definition find_offset (elements : list Z) (number_of_elements noe last_offset : Z)
  : result Z :=
  find_offset_loop (find_offset_fuel noe (last_offset + 1)) elements
    number_of_elements noe (last_offset + 1) false.

(** Modelled from the spec: the node view's [set_gate_parameter] ([theano_node]
    is not among the sources): it maps [(uid, gate, parameter)] to the cell
    [offset(uid) + gate_index] of the parameter's vector.  Parameters
    without a vector ([spreadsheaves], [decay]) touch no arena cell. *)
Definition set_gate_parameter (id : Z) (gate parameter : string) (value : Q)
    (s : nodenet) : result nodenet :=
  offset ← getitem (allocated_node_offsets s) id;
  g ← get_numerical_gate_type gate;
  let e := offset + g in
  if decide (parameter = "threshold")
  then arr ← setitem (g_threshold s) e value; Ok (s <| g_threshold := arr |>)
  else if decide (parameter = "amplification")
  then arr ← setitem (g_amplification s) e value; Ok (s <| g_amplification := arr |>)
  else if decide (parameter = "minimum")
  then arr ← setitem (g_min s) e value; Ok (s <| g_min := arr |>)
  else if decide (parameter = "maximum")
  then arr ← setitem (g_max s) e value; Ok (s <| g_max := arr |>)
  else if decide (parameter = "theta")
  then arr ← setitem (g_theta s) e value; Ok (s <| g_theta := arr |>)
  else Ok s.

(** The [gate_defaults] of [STANDARD_NODETYPES]: only [Pipe] has any. *)
Definition gate_defaults (t : nodetype) : list (string * list (string * Q)) :=
  match t with
  | Pipe =>
      (fun g => (g, [("minimum", (-1)%Q); ("maximum", 1%Q); ("threshold", (-1)%Q)]))
        <$> ["gen"; "por"; "ret"; "sub"; "sur"; "cat"; "exp"]
  | _ => []
  end.

Definition set_nodespace_gatetype_activator (nodespace_uid gate_type : string)
    (activator_uid : option string) (s : nodenet) : result nodenet :=
  activator_id ← match activator_uid with
                 | Some u => if bool_decide (u ≠ "") then tnode.from_id u else Ok 0
                 | None => Ok 0
                 end;
  nodespace_id ← tnodespace.from_id nodespace_uid;
  s ← (if decide (gate_type = "por")
       then arr ← setitem (allocated_nodespaces_por_activators s) nodespace_id activator_id;
            Ok (s <| allocated_nodespaces_por_activators := arr |>)
       else if decide (gate_type = "ret")
       then arr ← setitem (allocated_nodespaces_ret_activators s) nodespace_id activator_id;
            Ok (s <| allocated_nodespaces_ret_activators := arr |>)
       else if decide (gate_type = "sub")
       then arr ← setitem (allocated_nodespaces_sub_activators s) nodespace_id activator_id;
            Ok (s <| allocated_nodespaces_sub_activators := arr |>)
       else if decide (gate_type = "sur")
       then arr ← setitem (allocated_nodespaces_sur_activators s) nodespace_id activator_id;
            Ok (s <| allocated_nodespaces_sur_activators := arr |>)
       else if decide (gate_type = "cat")
       then arr ← setitem (allocated_nodespaces_cat_activators s) nodespace_id activator_id;
            Ok (s <| allocated_nodespaces_cat_activators := arr |>)
       else if decide (gate_type = "exp")
       then arr ← setitem (allocated_nodespaces_exp_activators s) nodespace_id activator_id;
            Ok (s <| allocated_nodespaces_exp_activators := arr |>)
       else Ok s);
  let nodes_in_nodespace := where_eq (allocated_node_parents s) nodespace_id in
  for_each (fun nid s =>
              t ← getitem (allocated_nodes s) nid;
              if t =? PIPE
              then off ← getitem (allocated_node_offsets s) nid;
                   g ← get_numerical_gate_type gate_type;
                   act_off ← getitem (allocated_node_offsets s) activator_id;
                   arr ← setitem (allocated_elements_to_activators s) (off + g) act_off;
                   Ok (s <| allocated_elements_to_activators := arr |>)
              else Ok s)
           nodes_in_nodespace s.

(** [datasource -> ids] registration of a Sensor (and likewise of an Actor). *)
Definition register_in (m : gmap string (list Z)) (key : string) (id : Z)
  : gmap string (list Z) :=
  <[key := (default [] (m !! key) ++ [id])%list]> m.

(** The part of [create_node] from "self.last_allocated_node = id" to the
    loop that hands the elements of the run to the node. *)
Definition register_node (id code : Z) (nodespace_uid : string) (offset : Z)
    (s : nodenet) : result nodenet :=
  let s := s <| last_allocated_node := id |> <| last_allocated_offset := offset |> in
  arr ← setitem (allocated_nodes s) id code;
  let s := s <| allocated_nodes := arr |> in
  nodespace_id ← tnodespace.from_id nodespace_uid;
  arr ← setitem (allocated_node_parents s) id nodespace_id;
  let s := s <| allocated_node_parents := arr |> in
  arr ← setitem (allocated_node_offsets s) id offset;
  let s := s <| allocated_node_offsets := arr |> in
  t ← getitem (allocated_nodes s) id;
  count ← get_elements_per_type t;
  for_each (fun element s =>
              arr ← setitem (allocated_elements_to_nodes s) (offset + element) id;
              Ok (s <| allocated_elements_to_nodes := arr |>))
           (range 0 count) s.

(** The [if nodetype == "Sensor": ... elif ...] chain of [create_node]. *)
Definition setup_nodetype (nodetype : nodetype) (nodespace_uid : string) (id : Z)
    (uid : string) (offset : Z) (parameters : gmap string string) (s : nodenet)
  : result nodenet :=
  match nodetype with
  | Sensor =>
      match parameters !! "datasource" with
      | Some datasource =>
          Ok (s <| sensormap := register_in (sensormap s) datasource id |>
                <| inverted_sensor_map := <[uid := datasource]> (inverted_sensor_map s) |>)
      | None => Ok s
      end
  | Actor =>
      match parameters !! "datatarget" with
      | Some datatarget =>
          Ok (s <| actuatormap := register_in (actuatormap s) datatarget id |>
                <| inverted_actuator_map := <[uid := datatarget]> (inverted_actuator_map s) |>)
      | None => Ok s
      end
  | Pipe =>
      s ← for_each (fun '(g, f) s =>
                      arr ← setitem (n_function_selector s) (offset + g) f;
                      Ok (s <| n_function_selector := arr |>))
                   [(GEN, NFPG_PIPE_GEN); (POR, NFPG_PIPE_POR); (RET, NFPG_PIPE_RET);
                    (SUB, NFPG_PIPE_SUB); (SUR, NFPG_PIPE_SUR); (CAT, NFPG_PIPE_CAT);
                    (EXP, NFPG_PIPE_EXP)] s;
      for_each (fun '(g, activators) s =>
                  nodespace_id ← tnodespace.from_id nodespace_uid;
                  act ← getitem (activators s) nodespace_id;
                  act_off ← getitem (allocated_node_offsets s) act;
                  arr ← setitem (allocated_elements_to_activators s) (offset + g) act_off;
                  Ok (s <| allocated_elements_to_activators := arr |>))
               [(POR, allocated_nodespaces_por_activators);
                (RET, allocated_nodespaces_ret_activators);
                (SUB, allocated_nodespaces_sub_activators);
                (SUR, allocated_nodespaces_sur_activators);
                (CAT, allocated_nodespaces_cat_activators);
                (EXP, allocated_nodespaces_exp_activators)] s
  | Activator =>
      match parameters !! "type" with
      | Some activator_type =>
          if bool_decide (activator_type ≠ "")
          then set_nodespace_gatetype_activator nodespace_uid activator_type (Some uid) s
          else Ok s
      | None => Ok s
      end
  | Register => Ok s
  end.

(** [node_proxy = self.get_node(uid)], and the type's gate defaults written
    through it. *)
Definition apply_gate_defaults (nodetype : nodetype) (id : Z) (uid : string)
    (s : nodenet) : result nodenet :=
  for_each (fun '(gate, params) s =>
              for_each (fun '(parameter, value) s =>
                          if is_node s uid
                          then set_gate_parameter id gate parameter value s
                          else Raise AttributeError)
                       params s)
           (gate_defaults nodetype) s.

(** [create_node], called with [gate_parameters] and [gate_functions] left at
    their default [None].  A parameter whose value is [None] is an absent
    key of [parameters]. *)
Definition create_node (nodetype : nodetype) (nodespace_uid : string)
    (position : option (list Z)) (name : option string) (uid : option string)
    (parameters : gmap string string) (s : nodenet) : result (string * nodenet) :=
  (* find a free ID / index in the allocated_nodes vector *)
  id ← match uid with
       | None => find_free_id (allocated_nodes s) (last_allocated_node s) (NoN s)
       | Some u => tnode.from_id u
       end;
  let uid := tnode.to_id id in
  (* now find a range of free elements to be used by this node *)
  number_of_elements ← get_elements_per_type (get_numerical_node_type nodetype);
  offset ← find_offset (allocated_elements_to_nodes s) number_of_elements (NoE s)
             (last_allocated_offset s);
  s ← register_node id (get_numerical_node_type nodetype) nodespace_uid offset s;
  let s := match position with
           | Some p => s <| positions := <[uid := p]> (positions s) |>
           | None => s
           end in
  let s := match name with
           | Some nm =>
               if bool_decide (nm ≠ "") && bool_decide (nm ≠ uid)
               then s <| names := <[uid := nm]> (names s) |>
               else s
           | None => s
           end in
  s ← setup_nodetype nodetype nodespace_uid id uid offset parameters s;
  s ← apply_gate_defaults nodetype id uid s;
  Ok (uid, s).

(** Modelled from the spec: the node view's [unlink_completely] ([theano_node]
    is not among the sources): it zeroes every weight incident to the node,
    that is the rows and columns of [W] at the node's elements. *)
Definition unlink_completely (id : Z) (s : nodenet) : result nodenet :=
  t ← getitem (allocated_nodes s) id;
  offset ← getitem (allocated_node_offsets s) id;
  count ← get_elements_per_type t;
  Ok (s <| w := foldr (fun element m => w_clear_element m (Z.to_nat (offset + element)))
                  (w s) (range 0 count) |>).

(** [list.remove(x)]: drops the first occurrence, [ValueError] without one. *)
Fixpoint list_remove (x : Z) (l : list Z) : result (list Z) :=
  match l with
  | [] => Raise ValueError
  | y :: rest => if x =? y then Ok rest else (cons y) <$> list_remove x rest
  end.

(** The "remove sensor association" block of [delete_node] (the same code
    serves the actuator maps). *)
Definition remove_association (uid : string) (id : Z)
    (inverted : gmap string string) (map : gmap string (list Z))
  : result (gmap string string * gmap string (list Z)) :=
  match inverted !! uid with
  | Some key =>
      let inverted := delete uid inverted in
      map ← match map !! key with
            | Some ids => ids' ← list_remove id ids; Ok (<[key := ids']> map)
            | None => Ok map
            end;
      ids ← of_option KeyError (map !! key);
      if bool_decide (length ids = 0%nat)
      then Ok (inverted, delete key map)
      else Ok (inverted, map)
  | None => Ok (inverted, map)
  end.

Definition delete_node (uid : string) (s : nodenet) : result nodenet :=
  id ← tnode.from_id uid;
  type ← getitem (allocated_nodes s) id;
  offset ← getitem (allocated_node_offsets s) id;
  parent ← getitem (allocated_node_parents s) id;
  (* unlink *)
  s ← (if is_node s uid then unlink_completely id s else Raise AttributeError);
  (* forget *)
  arr ← setitem (allocated_nodes s) id 0;
  let s := s <| allocated_nodes := arr |> in
  arr ← setitem (allocated_node_offsets s) id 0;
  let s := s <| allocated_node_offsets := arr |> in
  arr ← setitem (allocated_node_parents s) id 0;
  let s := s <| allocated_node_parents := arr |> in
  count ← get_elements_per_type type;
  s ← for_each (fun element s =>
                  arr ← setitem (allocated_elements_to_nodes s) (offset + element) 0;
                  let s := s <| allocated_elements_to_nodes := arr |> in
                  arr ← setitem (g_function_selector s) (offset + element) 0;
                  Ok (s <| g_function_selector := arr |>))
               (range 0 count) s;
  s ← for_each (fun g s =>
                  arr ← setitem (n_function_selector s) (offset + g) NFPG_PIPE_NON;
                  Ok (s <| n_function_selector := arr |>))
               [GEN; POR; RET; SUB; SUR; CAT; EXP] s;
  (* clear from name and positions dicts *)
  let s := s <| names := delete uid (names s) |>
             <| positions := delete uid (positions s) |> in
  (* hint at the free ID *)
  let s := s <| last_allocated_node := id - 1 |> in
  (* remove sensor association if there should be one *)
  '(inv, map) ← remove_association uid id (inverted_sensor_map s) (sensormap s);
  let s := s <| inverted_sensor_map := inv |> <| sensormap := map |> in
  (* remove actuator association if there should be one *)
  '(inv, map) ← remove_association uid id (inverted_actuator_map s) (actuatormap s);
  let s := s <| inverted_actuator_map := inv |> <| actuatormap := map |> in
  (* clear activator usage if there should be one *)
  let s := s <| allocated_elements_to_activators :=
                  (fun v => if v =? offset then 0 else v)
                    <$> allocated_elements_to_activators s |> in
  por ← getitem (allocated_nodespaces_por_activators s) parent;
  if por =? id
  then arr ← setitem (allocated_nodespaces_por_activators s) parent 0;
       Ok (s <| allocated_nodespaces_por_activators := arr |>)
  else
  ret ← getitem (allocated_nodespaces_ret_activators s) parent;
  if ret =? id
  then arr ← setitem (allocated_nodespaces_ret_activators s) parent 0;
       Ok (s <| allocated_nodespaces_ret_activators := arr |>)
  else
  sub ← getitem (allocated_nodespaces_sub_activators s) parent;
  if sub =? id
  then arr ← setitem (allocated_nodespaces_sub_activators s) parent 0;
       Ok (s <| allocated_nodespaces_sub_activators := arr |>)
  else
  sur ← getitem (allocated_nodespaces_sur_activators s) parent;
  if sur =? id
  then arr ← setitem (allocated_nodespaces_sur_activators s) parent 0;
       Ok (s <| allocated_nodespaces_sur_activators := arr |>)
  else
  cat ← getitem (allocated_nodespaces_cat_activators s) parent;
  if cat =? id
  then arr ← setitem (allocated_nodespaces_cat_activators s) parent 0;
       Ok (s <| allocated_nodespaces_cat_activators := arr |>)
  else
  exp ← getitem (allocated_nodespaces_exp_activators s) parent;
  if exp =? id
  then arr ← setitem (allocated_nodespaces_exp_activators s) parent 0;
       Ok (s <| allocated_nodespaces_exp_activators := arr |>)
  else Ok s.

(** [delete_nodespace].  The method calls itself for every child; [depth] is
    the call depth the interpreter still allows (nothing in the arena rules
    out a nodespace that is its own ancestor). *)
Fixpoint delete_nodespace (depth : nat) (uid : string) (s : nodenet) : result nodenet :=
  match depth with
  | O => Raise RecursionError
  | S depth' =>
      nodespace_id ← tnodespace.from_id uid;
      let children_ids := where_eq (allocated_nodespaces s) nodespace_id in
      s ← for_each (fun child_id s => delete_nodespace depth' (tnodespace.to_id child_id) s)
                   children_ids s;
      let node_ids := where_eq (allocated_node_parents s) nodespace_id in
      s ← for_each (fun node_id s => delete_node (tnode.to_id node_id) s) node_ids s;
      (* clear from name and positions dicts *)
      let s := s <| names := delete uid (names s) |>
                 <| positions := delete uid (positions s) |> in
      arr ← setitem (allocated_nodespaces s) nodespace_id 0;
      let s := s <| allocated_nodespaces := arr |> in
      Ok (s <| last_allocated_nodespace := nodespace_id |>)
  end.

(** ** Links *)

(** [for g in range(7): flags[offset + g] = value] *)
Definition set_flags (flags : list Z) (offset value : Z) : result (list Z) :=
  for_each (fun g flags => setitem flags (offset + g) value) (range 0 7) flags.

Definition set_link_weight (source_node_uid gate_type target_node_uid slot_type : string)
    (weight : Q) (s : nodenet) : result nodenet :=
  source_id ← tnode.from_id source_node_uid;
  source_type ← getitem (allocated_nodes s) source_id;
  (* no native module is registered: a code above the standard ones has no
     string type *)
  _ ← (if MAX_STD_NODETYPE <? source_type then Raise ValueError else Ok ());
  target_id ← tnode.from_id target_node_uid;
  target_type ← getitem (allocated_nodes s) target_id;
  _ ← (if MAX_STD_NODETYPE <? target_type then Raise ValueError else Ok ());
  ngt ← get_numerical_gate_type gate_type;
  nst ← get_numerical_slot_type slot_type;
  target_offset ← getitem (allocated_node_offsets s) target_id;
  let x := target_offset + nst in
  source_offset ← getitem (allocated_node_offsets s) source_id;
  let y := source_offset + ngt in
  w_matrix ← w_setitem (w s) x y weight;
  let s := s <| w := w_matrix |> in
  s ← (if bool_decide (slot_type = "por") && (target_type =? PIPE)
       then arr ← set_flags (n_node_porlinked s) target_offset
                    (if Qeq_bool weight 0 then 0 else 1);
            Ok (s <| n_node_porlinked := arr |>)
       else Ok s);
  s ← (if bool_decide (slot_type = "ret") && (target_type =? PIPE)
       then arr ← set_flags (n_node_retlinked s) target_offset
                    (if Qeq_bool weight 0 then 0 else 1);
            Ok (s <| n_node_retlinked := arr |>)
       else Ok s);
  Ok s.

Definition create_link (source_node_uid gate_type target_node_uid slot_type : string)
    (weight : Q) (s : nodenet) : result nodenet :=
  set_link_weight source_node_uid gate_type target_node_uid slot_type weight s.

Definition delete_link (source_node_uid gate_type target_node_uid slot_type : string)
    (s : nodenet) : result nodenet :=
  set_link_weight source_node_uid gate_type target_node_uid slot_type 0%Q s.

(** Modelled from the spec: [get_link_weight], which the engine class does
    not define: "the numeric edge in [W] lives at
    [(offset(target)+slot_index, offset(source)+gate_index)]" and "the
    matrix IS the link store". *)
Definition get_link_weight (source_node_uid gate_type target_node_uid slot_type : string)
    (s : nodenet) : result Q :=
  source_id ← tnode.from_id source_node_uid;
  target_id ← tnode.from_id target_node_uid;
  ngt ← get_numerical_gate_type gate_type;
  nst ← get_numerical_slot_type slot_type;
  target_offset ← getitem (allocated_node_offsets s) target_id;
  source_offset ← getitem (allocated_node_offsets s) source_id;
  w_getitem (w s) (target_offset + nst) (source_offset + ngt).

(** ** The shifted activation view *)

Definition rebuild_shifted (s : nodenet) : nodenet :=
  let a_array := a s in
  let a_rolled_array := np_roll a_array 7 in
  let a_shifted_matrix := as_strided a_rolled_array (Z.to_nat (NoE s)) 14 in
  s <| a_shifted := a_shifted_matrix |>.

(** ** Stepping *)

Section Step.

(** Modelled from the spec: the step operators ([theano_stepoperators] is
    not among the sources), already sorted by priority.  "Propagate
    computes [a <- W . a] ... overwrites [a] in place"; Calculate "writes
    the result back into [a[e]]": an operator reads the net and yields the
    new activation vector. *)
Variable stepoperators : list (nodenet -> list Q).

Definition execute (operator : nodenet -> list Q) (s : nodenet) : nodenet :=
  s <| a := operator s |>.

(** The part of [step] that runs before the counter moves. *)
Definition run_operators (s : nodenet) : nodenet :=
  foldl (fun s operator => execute operator s) s stepoperators.

Definition step (s : nodenet) : nodenet :=
  let s := run_operators s in
  s <| current_step := current_step s + 1 |>.

(** [k] calls of [step] in a row. *)
Definition steps (k : nat) (s : nodenet) : nodenet := Nat.iter k step s.

End Step.

(** ** Persistence: [load] *)

(** What opening and parsing a file can come to: [os.path.isfile] is false,
    the parser raises [ValueError], the open raises [IOError], or there is
    content. *)
Inductive file (A : Type) : Type :=
| NoFile
| FileValueError
| FileIOError
| Content (content : A).
Arguments NoFile {A}.
Arguments FileValueError {A}.
Arguments FileIOError {A}.
Arguments Content {A} content.

(** The keys of the JSON metadata that [initialize_nodenet] reads.  The
    files [save] writes carry no [nodes], [nodespaces] or [links], so the
    loops of [merge_data] run over nothing; monitors are outside the model. *)
Record metadata : Type := {
  md_names : option (gmap string string);
  md_positions : option (gmap string (list Z));
  md_actuatormap : option (gmap string (list Z));
  md_sensormap : option (gmap string (list Z))
}.

(** The members of the [.npz] archive; [None] is a member that is missing. *)
Record archive : Type := {
  ar_sizeinformation : option (list Z);
  ar_allocated_nodes : option (list Z);
  ar_allocated_node_offsets : option (list Z);
  ar_allocated_elements_to_nodes : option (list Z);
  ar_allocated_nodespaces : option (list Z);
  ar_allocated_node_parents : option (list Z);
  ar_allocated_elements_to_activators : option (list Z);
  ar_allocated_nodespaces_por_activators : option (list Z);
  ar_allocated_nodespaces_ret_activators : option (list Z);
  ar_allocated_nodespaces_sub_activators : option (list Z);
  ar_allocated_nodespaces_sur_activators : option (list Z);
  ar_allocated_nodespaces_cat_activators : option (list Z);
  ar_allocated_nodespaces_exp_activators : option (list Z);
  ar_w_data : option (list Q);
  ar_w_indices : option (list Z);
  ar_w_indptr : option (list Z);
  ar_a : option (list Q);
  ar_g_theta : option (list Q);
  ar_g_factor : option (list Q);
  ar_g_threshold : option (list Q);
  ar_g_amplification : option (list Q);
  ar_g_min : option (list Q);
  ar_g_max : option (list Q);
  ar_g_function_selector : option (list Z);
  ar_n_function_selector : option (list Z);
  ar_n_node_porlinked : option (list Z);
  ar_n_node_retlinked : option (list Z)
}.

Definition initialize_nodenet (initfrom : option metadata) (s : nodenet) : nodenet :=
  match initfrom with
  | None => s
  | Some md =>
      let s := match md_names md with Some v => s <| names := v |> | None => s end in
      let s := match md_positions md with Some v => s <| positions := v |> | None => s end in
      let s := match md_actuatormap md with Some v => s <| actuatormap := v |> | None => s end in
      match md_sensormap md with Some v => s <| sensormap := v |> | None => s end
  end.

(** [if name in datafile: self.field = datafile[name]
     else: self.logger.warn("no " + name + " in file, falling back to defaults")] *)
Definition missing_message (name : string) : string :=
  "no " ++ name ++ " in file, falling back to defaults".

Definition load_member {A : Type} (member : option A) (assign : A -> nodenet -> nodenet)
    (name : string) (s : nodenet) : nodenet :=
  match member with
  | Some v => assign v s
  | None => warn (missing_message name) s
  end.

(** The cells a CSR triple stores, row by row; cells stored twice add up. *)
Definition csr_entries (data : list Q) (indices indptr : list Z) (ncols : nat)
  : gmap (nat * nat) Q :=
  foldl (fun m r =>
           match indptr !! r, indptr !! S r with
           | Some lo, Some hi =>
               foldl (fun m k =>
                        match data !! Z.to_nat k, indices !! Z.to_nat k with
                        | Some v, Some c =>
                            if (0 <=? c) && (c <? Z.of_nat ncols)
                            then <[(r, Z.to_nat c) := (default 0 (m !! (r, Z.to_nat c)) + v)%Q]> m
                            else m
                        | _, _ => m
                        end)
                     m (range lo hi)
           | _, _ => m
           end)
        ∅ (seq 0 (length indptr - 1)).

(** [sp.csr_matrix((data, indices, indptr), shape=(n, n))], with the size
    checks scipy makes on such a triple, followed by [todense()] when the
    engine runs dense. *)
Definition csr_matrix (sparse : bool) (data : list Q) (indices indptr : list Z) (n : Z)
  : result wmatrix :=
  if bool_decide (Z.of_nat (length indptr) = n + 1 ∧ 0 <= n
                  ∧ indptr !! 0%nat = Some 0
                  ∧ length indices = length data
                  ∧ default 0 (last indptr) <= Z.of_nat (length data))
  then
    let entries := csr_entries data indices indptr (Z.to_nat n) in
    if sparse then Ok (Sparse (Z.to_nat n) (Z.to_nat n) entries)
    else Ok (Dense ((fun r => (fun c => default 0%Q (entries !! (r, c)))
                                <$> seq 0 (Z.to_nat n))
                      <$> seq 0 (Z.to_nat n)))
  else Raise ValueError.

(** The inverted maps are refilled from the maps, entry by entry. *)
Definition rebuild_inverted (m : gmap string (list Z)) (inverted : gmap string string)
  : gmap string string :=
  foldl (fun inv kv => foldl (fun inv id => <[tnode.to_id id := fst kv]> inv) inv (snd kv))
        inverted (map_to_list m).

(** The [sizeinformation] member: [NoN] and [NoE] are taken from it. *)
Definition load_sizes (ar : archive) (s : nodenet) : result nodenet :=
  match ar_sizeinformation ar with
  | Some sizes =>
      non ← getitem sizes 0;
      noe ← getitem sizes 1;
      Ok (s <| NoN := non |> <| NoE := noe |>)
  | None => Ok (warn "no sizeinformation in file, falling back to defaults" s)
  end.

(** The CSR triple of [W], and with it the activations [a]. *)
Definition load_weights (ar : archive) (s : nodenet) : result nodenet :=
  match ar_w_data ar, ar_w_indices ar, ar_w_indptr ar with
  | Some data, Some indices, Some indptr =>
      m ← csr_matrix (sparse s) data indices indptr (NoE s);
      let s := s <| w := m |> in
      (* self.a = ... datafile['a'] ... *)
      v ← of_option KeyError (ar_a ar);
      Ok (s <| a := v |>)
  | _, _, _ =>
      Ok (warn "no w_data, w_indices or w_indptr in file, falling back to defaults" s)
  end.

(** The [if datafile:] block of [load]. *)
Definition load_archive (ar : archive) (s : nodenet) : result nodenet :=
  s ← load_sizes ar s;
  let s := load_member (ar_allocated_nodes ar)
             (fun v s => s <| allocated_nodes := v |>) "allocated_nodes" s in
  let s := load_member (ar_allocated_node_offsets ar)
             (fun v s => s <| allocated_node_offsets := v |>) "allocated_node_offsets" s in
  let s := load_member (ar_allocated_elements_to_nodes ar)
             (fun v s => s <| allocated_elements_to_nodes := v |>)
             "allocated_elements_to_nodes" s in
  let s := load_member (ar_allocated_nodespaces ar)
             (fun v s => s <| allocated_nodespaces := v |>) "allocated_nodespaces" s in
  let s := load_member (ar_allocated_node_parents ar)
             (fun v s => s <| allocated_node_parents := v |>) "allocated_node_parents" s in
  let s := load_member (ar_allocated_elements_to_activators ar)
             (fun v s => s <| allocated_elements_to_activators := v |>)
             "allocated_elements_to_activators" s in
  let s := load_member (ar_allocated_nodespaces_por_activators ar)
             (fun v s => s <| allocated_nodespaces_por_activators := v |>)
             "allocated_nodespaces_por_activators" s in
  let s := load_member (ar_allocated_nodespaces_ret_activators ar)
             (fun v s => s <| allocated_nodespaces_ret_activators := v |>)
             "allocated_nodespaces_ret_activators" s in
  let s := load_member (ar_allocated_nodespaces_sub_activators ar)
             (fun v s => s <| allocated_nodespaces_sub_activators := v |>)
             "allocated_nodespaces_sub_activators" s in
  let s := load_member (ar_allocated_nodespaces_sur_activators ar)
             (fun v s => s <| allocated_nodespaces_sur_activators := v |>)
             "allocated_nodespaces_sur_activators" s in
  let s := load_member (ar_allocated_nodespaces_cat_activators ar)
             (fun v s => s <| allocated_nodespaces_cat_activators := v |>)
             "allocated_nodespaces_cat_activators" s in
  let s := load_member (ar_allocated_nodespaces_exp_activators ar)
             (fun v s => s <| allocated_nodespaces_exp_activators := v |>)
             "allocated_nodespaces_exp_activators" s in
  s ← load_weights ar s;
  let s := load_member (ar_g_theta ar) (fun v s => s <| g_theta := v |>) "g_theta" s in
  let s := load_member (ar_g_factor ar) (fun v s => s <| g_factor := v |>) "g_factor" s in
  let s := load_member (ar_g_threshold ar)
             (fun v s => s <| g_threshold := v |>) "g_threshold" s in
  let s := load_member (ar_g_amplification ar)
             (fun v s => s <| g_amplification := v |>) "g_amplification" s in
  let s := load_member (ar_g_min ar) (fun v s => s <| g_min := v |>) "g_min" s in
  let s := load_member (ar_g_max ar) (fun v s => s <| g_max := v |>) "g_max" s in
  let s := load_member (ar_g_function_selector ar)
             (fun v s => s <| g_function_selector := v |>) "g_function_selector" s in
  let s := load_member (ar_n_function_selector ar)
             (fun v s => s <| n_function_selector := v |>) "n_function_selector" s in
  let s := load_member (ar_n_node_porlinked ar)
             (fun v s => s <| n_node_porlinked := v |>) "n_node_porlinked" s in
  let s := load_member (ar_n_node_retlinked ar)
             (fun v s => s <| n_node_retlinked := v |>) "n_node_retlinked" s in
  (* reconstruct other states *)
  Ok (load_member (ar_g_function_selector ar) (fun _ s => s) "g_function_selector" s).

(** [warnings.warn(message, category)]: a category that is given and is not
    a [Warning] subclass makes the call raise [TypeError]; [load] passes the
    file name (a [str]) in its metadata handlers and [datafile] (still
    [None]) in its archive handlers. *)
Inductive category : Type :=
| CategoryNone
| CategoryStr.

Definition warnings_warn (message : string) (c : category) (s : nodenet) : result nodenet :=
  match c with
  | CategoryNone => Ok (warn message s)
  | CategoryStr => Raise TypeError
  end.

(** [load(filename)]: the flag it returns and the state it leaves. *)
Definition load (metafile : file metadata) (datafile : file archive) (s : nodenet)
  : result (bool * nodenet) :=
  match metafile with
  | FileValueError =>
      s ← warnings_warn "Could not read nodenet metadata from file %s" CategoryStr s;
      Ok (false, s)
  | FileIOError =>
      s ← warnings_warn "Could not open nodenet metadata file %s" CategoryStr s;
      Ok (false, s)
  | _ =>
      (* initfrom = {}, updated with the file's content if there is a file *)
      let initfrom := match metafile with Content md => Some md | _ => None end in
      match datafile with
      | FileValueError =>
          s ← warnings_warn "Could not read nodenet data from file %" CategoryNone s;
          Ok (false, s)
      | FileIOError =>
          s ← warnings_warn "Could not open nodenet file %s" CategoryNone s;
          Ok (false, s)
      | _ =>
          (* initialize with metadata *)
          let s := initialize_nodenet initfrom s in
          s ← match datafile with
              | Content ar => load_archive ar s
              | _ => Ok s
              end;
          let s := s <| inverted_sensor_map :=
                          rebuild_inverted (sensormap s) (inverted_sensor_map s) |> in
          let s := s <| inverted_actuator_map :=
                          rebuild_inverted (actuatormap s) (inverted_actuator_map s) |> in
          Ok (true, s)
      end
  end.

(** ** The in-memory log storage ([micropsi_logger]) *)

Definition MAX_RECORDS_PER_STORAGE : nat := 1000.

(** A [logging.LogRecord], after [format] has filled in [message]. *)
Record LogRecord : Type := {
  name : string;
  created : Q;
  levelname : string;
  message : string
}.

(** The dict [emit] stores. *)
Record dictrecord : Type := {
  logger : string;
  time : Q;
  level : string;
  msg : string
}.

(** [while len(storage) >= MAX_RECORDS_PER_STORAGE: del storage[0]] *)
Fixpoint trim (record_storage : list dictrecord) : list dictrecord :=
  match record_storage with
  | [] => []
  | _ :: rest =>
      if (MAX_RECORDS_PER_STORAGE <=? length record_storage)%nat
      then trim rest
      else record_storage
  end.

Definition emit (record : LogRecord) (record_storage : list dictrecord)
  : list dictrecord :=
  let record_storage := trim record_storage in
  let dictrecord := {| logger := name record;
                       time := (created record * 1000)%Q;
                       level := levelname record;
                       msg := message record |} in
  (record_storage ++ [dictrecord])%list.

(** ** Concrete engine states used below

    Each one is reached from a freshly constructed engine by public calls
    only.  The capacities are small ones, as an archive's [sizeinformation]
    may set them. *)

(** The depth of calls the interpreter allows by default. *)
Definition recursion_limit : nat := 1000.

(** Three Registers [n1], [n2], [n3] fill a four-slot node arena; [n1] and
    [n3] are deleted and one more Register is created, which takes id 3
    again: the cursor is at 3 and id 1 is free below it. *)
Definition free_id_below_cursor : result nodenet :=
  s ← new_nodenet 4 12 3 true;
  '(_, s) ← create_node Register "s1" None None None ∅ s;
  '(_, s) ← create_node Register "s1" None None None ∅ s;
  '(_, s) ← create_node Register "s1" None None None ∅ s;
  s ← delete_node "n1" s;
  s ← delete_node "n3" s;
  '(_, s) ← create_node Register "s1" None None None ∅ s;
  Ok s.

(** Registers [n1] and [n2] both link into the POR slot of the Pipe [n3]. *)
Definition two_por_links (sparse : bool) : result nodenet :=
  s ← new_nodenet 5 20 3 sparse;
  '(_, s) ← create_node Register "s1" None None None ∅ s;
  '(_, s) ← create_node Register "s1" None None None ∅ s;
  '(_, s) ← create_node Pipe "s1" None None None ∅ s;
  s ← set_link_weight "n1" "gen" "n3" "por" 1 s;
  set_link_weight "n2" "gen" "n3" "por" 1 s.

(** The same with RET. *)
Definition two_ret_links (sparse : bool) : result nodenet :=
  s ← new_nodenet 5 20 3 sparse;
  '(_, s) ← create_node Register "s1" None None None ∅ s;
  '(_, s) ← create_node Register "s1" None None None ∅ s;
  '(_, s) ← create_node Pipe "s1" None None None ∅ s;
  s ← set_link_weight "n1" "gen" "n3" "ret" 1 s;
  set_link_weight "n2" "gen" "n3" "ret" 1 s.

(** A Register [n1] on element 1, directly followed by a Pipe [n2] on
    elements 2 to 8. *)
Definition register_then_pipe (sparse : bool) : result nodenet :=
  s ← new_nodenet 5 20 3 sparse;
  '(_, s) ← create_node Register "s1" None None None ∅ s;
  '(_, s) ← create_node Pipe "s1" None None None ∅ s;
  Ok s.

(** One live Register [n1]. *)
Definition one_register : result nodenet :=
  s ← new_nodenet 5 20 3 true;
  '(_, s) ← create_node Register "s1" None None None ∅ s;
  Ok s.


(** Sixteen elements whose activations are [0, 1, ..., 15]. *)
Definition counting_activations : result nodenet :=
  s ← new_nodenet 5 16 3 true;
  Ok (s <| a := (fun i => inject_Z (Z.of_nat i)) <$> seq 0 16 |>).

(** ** Predicates used in the statements *)

(** The seven flags of the node whose elements start at [offset]. *)
Definition flags_of_node (flags : list Z) (offset : Z) : list (result Z) :=
  (fun k => getitem flags (offset + k)) <$> range 0 7.

(** The seven-cell window the class comment gives for row [i]. *)
Definition window (a : list Q) (i : nat) : list (option Q) :=
  (fun k => a !! (i + k)%nat) <$> seq 0 7.







(** [l'] is [l] with some entries set to 0. *)
Definition zeroed (l l' : list Z) : Prop :=
  Forall2 (fun x y => y = x \/ y = 0) l l'.


(** [i] addresses a cell of a vector of [len] cells. *)
Definition valid_index (len : nat) (i : Z) : Prop := is_Some (np_index len i).

(** The rounds the scan can still make from [(i, restarted)]. *)
Definition rounds_left (noe i : Z) (restarted : bool) : nat :=
  if restarted then (Z.to_nat (noe - i) + 1)%nat
  else (Z.to_nat (noe - i) + Z.to_nat noe + 2)%nat.

(** [s'] differs from [s] at most in the contents of the per-element
    parameter vectors, of the activator bindings and of the maps. *)
Record same_registration (s s' : nodenet) : Prop := {
  same_nodes : allocated_nodes s' = allocated_nodes s;
  same_offsets : allocated_node_offsets s' = allocated_node_offsets s;
  same_node_parents : allocated_node_parents s' = allocated_node_parents s;
  same_elements : allocated_elements_to_nodes s' = allocated_elements_to_nodes s;
  same_last_node : last_allocated_node s' = last_allocated_node s;
  same_last_offset : last_allocated_offset s' = last_allocated_offset s;
  same_size_activators :
    length (allocated_elements_to_activators s') = length (allocated_elements_to_activators s);
  same_size_selectors : length (n_function_selector s') = length (n_function_selector s);
  same_size_threshold : length (g_threshold s') = length (g_threshold s);
  same_size_amplification : length (g_amplification s') = length (g_amplification s);
  same_size_min : length (g_min s') = length (g_min s);
  same_size_max : length (g_max s') = length (g_max s);
  same_size_theta : length (g_theta s') = length (g_theta s)
}.

(** The six [allocated_nodespaces_*_activators] vectors, in gate order. *)
Definition nodespace_activators : list (nodenet -> list Z) :=
  [allocated_nodespaces_por_activators; allocated_nodespaces_ret_activators;
   allocated_nodespaces_sub_activators; allocated_nodespaces_sur_activators;
   allocated_nodespaces_cat_activators; allocated_nodespaces_exp_activators].

Definition same_activators (s s' : nodenet) : Prop :=
  Forall (fun activators : nodenet -> list Z => activators s' = activators s)
         nodespace_activators.

(** The vectors have the lengths that go together, the activators bound to
    nodespaces are node ids, and the seven elements of every Pipe lie
    inside the element vectors. *)
Record well_sized (s : nodenet) : Prop := {
  sized_parents : length (allocated_node_parents s) = length (allocated_nodes s);
  sized_offsets : length (allocated_node_offsets s) = length (allocated_nodes s);
  sized_activators :
    length (allocated_elements_to_activators s) = length (allocated_elements_to_nodes s);
  sized_selectors :
    length (n_function_selector s) = length (allocated_elements_to_nodes s);
  sized_threshold : length (g_threshold s) = length (allocated_elements_to_nodes s);
  sized_min : length (g_min s) = length (allocated_elements_to_nodes s);
  sized_max : length (g_max s) = length (allocated_elements_to_nodes s);
  sized_nodespace_activators :
    Forall (fun activators : nodenet -> list Z =>
              length (activators s) = length (allocated_nodespaces s))
           nodespace_activators;
  activators_are_nodes :
    Forall (fun activators : nodenet -> list Z =>
              Forall (fun act => valid_index (length (allocated_nodes s)) act) (activators s))
           nodespace_activators;
  pipes_in_arena :
    forall k off,
      allocated_nodes s !! k = Some PIPE -> allocated_node_offsets s !! k = Some off ->
      0 <= off /\ off + 7 <= Z.of_nat (length (allocated_elements_to_nodes s))
}.

(** ** The logger's three storages and [get_logs] *)

(** [MicropsiLogger]: the three record storages its handlers write to. *)
Record MicropsiLogger : Type := {
  system_record_storage : list dictrecord;
  world_record_storage : list dictrecord;
  nodenet_record_storage : list dictrecord
}.

(** A handler's [emit], called once for each record of a list. *)
Definition emit_all (records : list LogRecord) (record_storage : list dictrecord)
  : list dictrecord :=
  foldl (fun storage record => emit record storage) record_storage records.

(** [sorted(logs, key=itemgetter('time'))].  Python's sort is stable, and a
    stable sort has one result; it is computed here by inserting every record
    before the first one that is not earlier. *)
Fixpoint insert_by_time (l : dictrecord) (logs : list dictrecord) : list dictrecord :=
  match logs with
  | [] => [l]
  | l' :: rest =>
      if Qle_bool (time l) (time l') then l :: l' :: rest
      else l' :: insert_by_time l rest
  end.

Definition sorted_by_time (logs : list dictrecord) : list dictrecord :=
  foldr insert_by_time [] logs.

(** [get_logs(logger, after)], with [logger] a list of logger names; [now]
    is the clock's reading in milliseconds, [int(round(time.time() * 1000))].
    The result is the pair of [servertime] and [logs]. *)
Definition get_logs (self : MicropsiLogger) (loggers : list string) (after : Q) (now : Z)
  : Z * list dictrecord :=
  let logs := [] in
  let logs := if bool_decide ("system" ∈ loggers)
              then (logs ++ system_record_storage self)%list else logs in
  let logs := if bool_decide ("world" ∈ loggers)
              then (logs ++ world_record_storage self)%list else logs in
  let logs := if bool_decide ("nodenet" ∈ loggers)
              then (logs ++ nodenet_record_storage self)%list else logs in
  let logs := sorted_by_time logs in
  let logs := if Qle_bool after 0 then logs
              else List.filter (fun l => Qle_bool after (time l)) logs in
  (now, logs).

(** [clear_logs] *)
Definition clear_logs (self : MicropsiLogger) : MicropsiLogger :=
  {| system_record_storage := []; world_record_storage := []; nodenet_record_storage := [] |}.

(** The dict that [emit] makes of a record. *)
Definition dictrecord_of (record : LogRecord) : dictrecord :=
  {| logger := name record; time := (created record * 1000)%Q;
     level := levelname record; msg := message record |}.

(** The records of the storages [loggers] names, in the order [get_logs]
    collects them. *)
Definition selected_logs (self : MicropsiLogger) (loggers : list string) : list dictrecord :=
  ((if bool_decide ("system" ∈ loggers) then system_record_storage self else [])
   ++ (if bool_decide ("world" ∈ loggers) then world_record_storage self else [])
   ++ (if bool_decide ("nodenet" ∈ loggers) then nodenet_record_storage self else []))%list.

(** ** Node groups *)

(** [[f(x) for x in xs]], stopping at the first exception. *)
Fixpoint map_result {A B : Type} (f : A -> result B) (xs : list A) : result (list B) :=
  match xs with
  | [] => Ok []
  | x :: rest => y ← f x; ys ← map_result f rest; Ok (y :: ys)
  end.

(** numpy: [arr[idx]] for a vector of indices. *)
Definition take_at {A : Type} (arr : list A) (idx : list Z) : result (list A) :=
  map_result (getitem arr) idx.


(** [self.nodegroups]: the offsets of the nodes of every group.  The state
    record does not hold it; the methods that use it take it as [groups],
    and those that assign to it return it. *)
Definition nodegroups : Type := gmap string (list Z).

Definition group_nodes_by_ids (node_ids : list string) (group_name : string)
    (s : nodenet) (groups : nodegroups) : result nodegroups :=
  ids ← map_result tnode.from_id node_ids;
  let ids := merge_sort Z.le ids in
  offsets ← take_at (allocated_node_offsets s) ids;
  Ok (<[group_name := offsets]> groups).

Definition ungroup_nodes (group : string) (groups : nodegroups) : nodegroups :=
  delete group groups.

Definition get_activations (group : string) (s : nodenet) (groups : nodegroups)
  : result (list Q) :=
  idx ← of_option KeyError (groups !! group);
  take_at (a s) idx.



(** ** Sensors and actuators *)





(** ** Persistence: [save] *)




(** ** [construct_nodes_dict] *)

(** The loop of [construct_nodes_dict]; [data] holds the keys entered so
    far, in the order they were entered.  With no native module instances,
    [self.get_node(node_uid)] is [None] for a uid that names no node, and
    taking [.data] of it raises [AttributeError]. *)
Fixpoint construct_nodes_loop (s : nodenet) (max_nodes i : Z) (nodeids : list Z)
    (data : list string) : result (list string) :=
  match nodeids with
  | [] => Ok data
  | node_id :: rest =>
      let i := i + 1 in
      let node_uid := tnode.to_id node_id in
      if is_node s node_uid
      then
        let data := (data ++ [node_uid])%list in
        if (0 <? max_nodes) && (max_nodes <? i) then Ok data
        else construct_nodes_loop s max_nodes i rest data
      else Raise AttributeError
  end.

(** [construct_nodes_dict(nodespace_uid, max_nodes)]: the keys of the dict
    it returns.  (The values are the [data] of the node views, which
    [theano_node] defines.) *)
Definition construct_nodes_dict (nodespace_uid : option string) (max_nodes : Z)
    (s : nodenet) : result (list string) :=
  nodeids ← match nodespace_uid with
            | None => Ok (nonzero (allocated_nodes s))
            | Some uid =>
                parent_id ← tnodespace.from_id uid;
                Ok (where_eq (allocated_node_parents s) parent_id)
            end;
  construct_nodes_loop s max_nodes 0 nodeids [].

(** ** Gates (module [node]) *)

Module node.





(** [max(x, y)] and [min(x, y)] of two numbers: the first argument, unless
    the second is strictly beyond it. *)
Definition max (x y : Q) : Q := if Qle_bool y x then x else y.


End node.



(** ** Further predicates used in the statements *)

(** [n] cells from [p] on are inside the vector and free. *)
Definition free_run (elements : list Z) (p n : Z) : Prop :=
  0 <= p /\ forall j, 0 <= j < n -> getitem elements (p + j) = Ok 0.

(** Every node with a positive id owns the elements of its run: the run
    starts at the node's offset, which is not negative, has as many cells as
    the node's type has elements, and every cell holds the node's id. *)
Definition owns_its_elements (s : nodenet) : Prop :=
  forall (k : nat) (type offset count : Z),
    (0 < k)%nat ->
    allocated_nodes s !! k = Some type -> type ≠ 0 ->
    allocated_node_offsets s !! k = Some offset ->
    get_elements_per_type type = Ok count ->
    0 <= offset
    /\ forall j, 0 <= j < count ->
         getitem (allocated_elements_to_nodes s) (offset + j) = Ok (Z.of_nat k).

(** [s'] has the node table, the nodespace table, the names, the positions
    and the cursors of [s]. *)
Record same_tables (s s' : nodenet) : Prop := {
  tables_nodes : allocated_nodes s' = allocated_nodes s;
  tables_offsets : allocated_node_offsets s' = allocated_node_offsets s;
  tables_parents : allocated_node_parents s' = allocated_node_parents s;
  tables_nodespaces : allocated_nodespaces s' = allocated_nodespaces s;
  tables_names : names s' = names s;
  tables_positions : positions s' = positions s;
  tables_last_node : last_allocated_node s' = last_allocated_node s;
  tables_last_offset : last_allocated_offset s' = last_allocated_offset s;
  tables_last_nodespace : last_allocated_nodespace s' = last_allocated_nodespace s
}.





(** [after] is [before] refilled from the map [m]: every id that [m] lists
    has an entry that names a key listing it, an entry of [after] comes from
    [before] or from [m], and the entries of [before] for uids that [m] does
    not list are still there. *)
Record refilled (m : gmap string (list Z)) (before after : gmap string string) : Prop := {
  refilled_listed :
    forall key ids id, m !! key = Some ids -> id ∈ ids ->
      exists key' ids', after !! tnode.to_id id = Some key'
                        /\ m !! key' = Some ids' /\ id ∈ ids';
  refilled_origin :
    forall uid key, after !! uid = Some key ->
      before !! uid = Some key
      \/ exists ids id, m !! key = Some ids /\ id ∈ ids /\ uid = tnode.to_id id;
  refilled_stale :
    forall uid,
      (forall key ids id, m !! key = Some ids -> id ∈ ids -> uid ≠ tnode.to_id id) ->
      after !! uid = before !! uid
}.

(** ** Further concrete engine states

    They are reached by public calls, like the ones above, and are
    evaluated once. *)

(** The state a sequence of calls has led to; the calls of the states below
    all return. *)
Definition state_of (r : result nodenet) : nodenet :=
  match r with
  | Ok s => s
  | Raise _ => empty_nodenet 0 0 0 true
  end.

(** The state of [register_then_pipe], evaluated once. *)
Definition register_and_pipe : nodenet := Eval vm_compute in state_of (register_then_pipe true).

(** Two Registers fill the node arena of an engine with three node entries. *)
Definition full_node_arena : result nodenet :=
  s ← new_nodenet 3 12 3 true;
  '(_, s) ← create_node Register "s1" None None None ∅ s;
  '(_, s) ← create_node Register "s1" None None None ∅ s;
  Ok s.

(** Its state. *)
Definition full_arena_net : nodenet := Eval vm_compute in state_of full_node_arena.

(** A fresh engine with five node entries, twenty elements and three
    nodespace entries; the same with four nodespace entries; and the same
    running dense. *)
Definition bare_net : nodenet := Eval vm_compute in state_of (new_nodenet 5 20 3 true).

Definition four_nodespaces_net : nodenet :=
  Eval vm_compute in state_of (new_nodenet 5 20 4 true).


(** The states of [one_register] and of [two_por_links], sparse and dense. *)
Definition one_register_net : nodenet := Eval vm_compute in state_of one_register.








(** Metadata that names two sensors of one datasource, and the state of a
    fresh engine that has loaded it. *)
Definition two_sensors_metadata : metadata :=
  {| md_names := None; md_positions := None; md_actuatormap := None;
     md_sensormap := Some {["light" := [1; 2]]} |}.

Definition loaded_two_sensors : nodenet :=
  Eval vm_compute in
    match load (Content two_sensors_metadata) NoFile bare_net with
    | Ok (_, s) => s
    | Raise _ => empty_nodenet 0 0 0 true
    end.

(** The state of [free_id_below_cursor]: the id cursor is at 3, the last id,
    and id 1 is free. *)
Definition gap_below_cursor : nodenet := Eval vm_compute in state_of free_id_below_cursor.

(** [register_and_pipe] after the Register [n1] has been deleted, and after a
    Register has been created again. *)
Definition pipe_alone : nodenet :=
  Eval vm_compute in state_of (delete_node "n1" register_and_pipe).

Definition pipe_and_register : nodenet :=
  Eval vm_compute in
    state_of (match create_node Register "s1" None None None ∅ pipe_alone with
              | Ok (_, s) => Ok s
              | Raise e => Raise e
              end).

(** A nodespace [s2] under the Root, the state after its deletion, and the
    state after one more nodespace has been created. *)
Definition child_nodespace_net : nodenet :=
  Eval vm_compute in
    state_of (match create_nodespace (Some "s1") None None None four_nodespaces_net with
              | Ok (_, s) => Ok s
              | Raise e => Raise e
              end).

Definition child_nodespace_deleted : nodenet :=
  Eval vm_compute in state_of (delete_nodespace recursion_limit "s2" child_nodespace_net).

Definition third_nodespace_net : nodenet :=
  Eval vm_compute in
    state_of (match create_nodespace (Some "s1") None None None child_nodespace_deleted with
              | Ok (_, s) => Ok s
              | Raise e => Raise e
              end).

(** The state of [counting_activations]. *)
Definition counting_net : nodenet := Eval vm_compute in state_of counting_activations.

(** * Properties *)

(** ** Indexing *)

Lemma np_index_nonneg (len : nat) (i : Z) :
  0 <= i < Z.of_nat len -> np_index len i = Some (Z.to_nat i).
Proof.
  intros H. unfold np_index.
  destruct (Z.leb_spec 0 i); [|lia]. destruct (Z.ltb_spec i (Z.of_nat len)); [|lia].
  reflexivity.
Qed.

Lemma np_index_lt (len : nat) (i : Z) (k : nat) :
  np_index len i = Some k -> (k < len)%nat.
Proof.
  unfold np_index.
  destruct (Z.leb_spec 0 i), (Z.ltb_spec i (Z.of_nat len)); simpl;
    try (intros [= <-]; lia);
    destruct (Z.leb_spec (- Z.of_nat len) i), (Z.ltb_spec i 0); simpl;
    try (intros [= <-]; lia); discriminate.
Qed.

Lemma getitem_nonneg {A : Type} (l : list A) (i : Z) (x : A) :
  0 <= i -> getitem l i = Ok x <-> (i < Z.of_nat (length l) /\ l !! Z.to_nat i = Some x).
Proof.
  intros Hi. unfold getitem, np_index.
  destruct (Z.leb_spec 0 i); [|lia]. simpl.
  destruct (Z.ltb_spec i (Z.of_nat (length l))); simpl.
  - destruct (l !! Z.to_nat i) eqn:E; simpl; split.
    + intros [= ->]. auto.
    + intros [_ [= ->]]. reflexivity.
    + discriminate.
    + intros [_ [=]].
  - destruct (Z.ltb_spec i 0); [lia|]. rewrite andb_false_r. simpl.
    split; [discriminate | lia].
Qed.

Lemma getitem_in_range {A : Type} (l : list A) (i : Z) :
  0 <= i < Z.of_nat (length l) -> exists x, getitem l i = Ok x /\ l !! Z.to_nat i = Some x.
Proof.
  intros H. destruct (lookup_lt_is_Some_2 l (Z.to_nat i)) as [x Hx]; [lia|].
  exists x. split; [|exact Hx]. apply getitem_nonneg; [lia|]. split; [lia | exact Hx].
Qed.

Lemma setitem_nonneg {A : Type} (l : list A) (i : Z) (x : A) :
  0 <= i < Z.of_nat (length l) -> setitem l i x = Ok (<[Z.to_nat i := x]> l).
Proof.
  intros H. unfold setitem. rewrite np_index_nonneg by exact H. reflexivity.
Qed.

Lemma setitem_length {A : Type} (l l' : list A) (i : Z) (x : A) :
  setitem l i x = Ok l' -> length l' = length l.
Proof.
  unfold setitem. destruct (np_index (length l) i); simpl; [|discriminate].
  intros [= <-]. apply length_insert.
Qed.

Lemma getitem_setitem_eq {A : Type} (l l' : list A) (i : Z) (x : A) :
  setitem l i x = Ok l' -> getitem l' i = Ok x.
Proof.
  unfold setitem, getitem.
  destruct (np_index (length l) i) as [k|] eqn:E; simpl; [|discriminate].
  intros [= <-]. rewrite length_insert, E. simpl.
  rewrite list_lookup_insert_eq by (eapply np_index_lt; exact E). reflexivity.
Qed.

(** ** Uids *)

Lemma int_of_uid_str (prefix : ascii) (id : Z) :
  int_of_uid (String prefix (str id)) = Ok id.
Proof.
  unfold int_of_uid, str. rewrite NilZero.isi.
  - simpl. rewrite DecimalZ.of_to. reflexivity.
  - destruct id; simpl; try discriminate.
    intros [= H]. exact (DecimalPos.Unsigned.to_uint_nonnil _ H).
  - destruct id; simpl; try discriminate.
    intros [= H]. exact (DecimalPos.Unsigned.to_uint_nonnil _ H).
Qed.

Lemma tnode_from_to_id (id : Z) : tnode.from_id (tnode.to_id id) = Ok id.
Proof. apply int_of_uid_str. Qed.


(** ** Loops and binds *)

Lemma for_each_invariant {A S : Type} (R : S -> S -> Prop) (body : A -> S -> result S)
    (xs : list A) :
  (forall s, R s s) ->
  (forall s1 s2 s3, R s1 s2 -> R s2 s3 -> R s1 s3) ->
  (forall x s s', x ∈ xs -> body x s = Ok s' -> R s s') ->
  forall s s', for_each body xs s = Ok s' -> R s s'.
Proof.
  intros Hrefl Htrans. induction xs as [|x xs IH]; intros Hbody s s' H; simpl in H.
  - injection H as <-. apply Hrefl.
  - destruct (body x s) as [s1|] eqn:E; [|discriminate]. simpl in H.
    eapply Htrans.
    + eapply Hbody; [left | exact E].
    + apply IH; [|exact H]. intros y t t' Hy. apply Hbody. right. exact Hy.
Qed.

(** One step through a computation that is known to have returned. *)
Ltac returned H :=
  cbn [mbind result_bind mret result_ret fmap result_fmap] in H;
  lazymatch type of H with
  | Ok _ = Ok _ => injection H as H
  | Raise _ = Ok _ => discriminate H
  | mbind _ ?m = Ok _ =>
      let E := fresh "E" in
      destruct m eqn:E; [|discriminate H]
  | (if ?c then _ else _) = Ok _ =>
      let E := fresh "E" in destruct c eqn:E
  | (let (_, _) := ?p in _) = Ok _ => destruct p
  end.

(** ** [where_eq] *)

Lemma elem_of_where_eq (arr : list Z) (v i : Z) :
  i ∈ where_eq arr v <-> exists k, i = Z.of_nat k /\ arr !! k = Some v.
Proof.
  unfold where_eq. rewrite list_elem_of_fmap. split.
  - intros ([k x] & -> & Hin). apply list_elem_of_filter in Hin as [Hv Hin].
    apply elem_of_lookup_imap in Hin as (k' & x' & [= -> ->] & Hlook).
    simpl in Hv. subst. eauto.
  - intros (k & -> & Hlook). exists (k, v). split; [reflexivity|].
    apply list_elem_of_filter. split; [reflexivity|].
    apply elem_of_lookup_imap. eauto.
Qed.


(** ** Entries that are only ever zeroed *)

Lemma zeroed_refl (l : list Z) : zeroed l l.
Proof. apply Forall2_same_length_lookup. split; [reflexivity|]. intros i x y H1 H2.
  left. congruence. Qed.

Lemma zeroed_trans (l1 l2 l3 : list Z) : zeroed l1 l2 -> zeroed l2 l3 -> zeroed l1 l3.
Proof.
  intros H12 H23. apply Forall2_same_length_lookup.
  pose proof (Forall2_length _ _ _ H12). pose proof (Forall2_length _ _ _ H23).
  split; [congruence|]. intros i x z Hx Hz.
  destruct (lookup_lt_is_Some_2 l2 i) as [y Hy].
  { rewrite <- H. eapply lookup_lt_Some. exact Hx. }
  pose proof (Forall2_lookup_lr _ _ _ _ _ _ H12 Hx Hy) as Hxy.
  pose proof (Forall2_lookup_lr _ _ _ _ _ _ H23 Hy Hz) as Hyz.
  cbv beta in Hxy, Hyz. lia.
Qed.

Lemma zeroed_setitem (l l' : list Z) (i : Z) :
  setitem l i 0 = Ok l' -> zeroed l l'.
Proof.
  unfold setitem. destruct (np_index (length l) i) as [k|]; simpl; [|discriminate].
  intros [= <-]. apply Forall2_same_length_lookup. split; [rewrite length_insert; reflexivity|].
  intros j x y Hx Hy. destruct (decide (k = j)) as [->|Hne].
  - rewrite list_lookup_insert_eq in Hy by (eapply lookup_lt_Some; exact Hx).
    right. congruence.
  - rewrite list_lookup_insert_ne in Hy by exact Hne. left. congruence.
Qed.

Lemma zeroed_nonzero (l l' : list Z) (k : nat) (v : Z) :
  zeroed l l' -> l' !! k = Some v -> v ≠ 0 -> l !! k = Some v.
Proof.
  intros Hz Hk Hv.
  destruct (lookup_lt_is_Some_2 l k) as [x Hx].
  { rewrite (Forall2_length _ _ _ Hz). eapply lookup_lt_Some. exact Hk. }
  pose proof (Forall2_lookup_lr _ _ _ _ _ _ Hz Hx Hk) as Hxy. cbv beta in Hxy.
  rewrite Hx. f_equal. lia.
Qed.

Lemma zeroed_zero (l l' : list Z) (k : nat) :
  zeroed l l' -> l !! k = Some 0 -> l' !! k = Some 0.
Proof.
  intros Hz Hk.
  destruct (lookup_lt_is_Some_2 l' k) as [y Hy].
  { rewrite <- (Forall2_length _ _ _ Hz). eapply lookup_lt_Some. exact Hk. }
  pose proof (Forall2_lookup_lr _ _ _ _ _ _ Hz Hk Hy) as Hxy. cbv beta in Hxy.
  rewrite Hy. f_equal. lia.
Qed.

Lemma setitem_zero_lookup (l l' : list Z) (k : nat) :
  setitem l (Z.of_nat k) 0 = Ok l' -> l' !! k = Some 0.
Proof.
  intros H. pose proof (getitem_setitem_eq _ _ _ _ H) as Hg.
  apply getitem_nonneg in Hg as [_ Hg]; [|lia]. rewrite Nat2Z.id in Hg. exact Hg.
Qed.

(** ** C10: the log storage stays bounded and keeps the newest record *)

Lemma trim_drop (storage : list dictrecord) :
  trim storage = drop (length storage - (MAX_RECORDS_PER_STORAGE - 1)) storage.
Proof.
  induction storage as [|r rest IH]; [reflexivity|].
  change (trim (r :: rest))
    with (if (MAX_RECORDS_PER_STORAGE <=? length (r :: rest))%nat
          then trim rest else r :: rest).
  assert (HM : (1 <= MAX_RECORDS_PER_STORAGE)%nat) by (unfold MAX_RECORDS_PER_STORAGE; lia).
  change (length (r :: rest)) with (S (length rest)).
  destruct (Nat.leb_spec MAX_RECORDS_PER_STORAGE (S (length rest))) as [Hle|Hlt].
  - rewrite IH.
    replace (S (length rest) - (MAX_RECORDS_PER_STORAGE - 1))%nat
      with (S (length rest - (MAX_RECORDS_PER_STORAGE - 1))) by lia.
    reflexivity.
  - replace (S (length rest) - (MAX_RECORDS_PER_STORAGE - 1))%nat with 0%nat by lia.
    reflexivity.
Qed.

(** C10.  After [emit] the storage holds at most [MAX_RECORDS_PER_STORAGE]
    records, whatever it held before; what is kept of the old storage is
    what remains after dropping records from index 0 (the oldest), and the
    new record is the last one of the storage. *)
Theorem emit_bounded_newest_retained (record : LogRecord) (storage : list dictrecord) :
  let newest := {| logger := name record; time := (created record * 1000)%Q;
                   level := levelname record; msg := message record |} in
  (length (emit record storage) <= MAX_RECORDS_PER_STORAGE)%nat
  /\ emit record storage
     = (drop (length storage - (MAX_RECORDS_PER_STORAGE - 1)) storage ++ [newest])%list
  /\ last (emit record storage) = Some newest.
Proof.
  intros newest. unfold emit. fold newest. rewrite trim_drop.
  assert (HM : (1 <= MAX_RECORDS_PER_STORAGE)%nat) by (unfold MAX_RECORDS_PER_STORAGE; lia).
  split; [|split].
  - rewrite length_app, length_drop.
    change (length [newest]) with 1%nat.
    generalize dependent MAX_RECORDS_PER_STORAGE. intros. lia.
  - reflexivity.
  - apply last_snoc.
Qed.

(** ** C9: the step counter *)

Section StepCounter.

Variable stepoperators : list (nodenet -> list Q).

Lemma run_operators_current_step (s : nodenet) :
  current_step (run_operators stepoperators s) = current_step s.
Proof.
  unfold run_operators. revert s.
  induction stepoperators as [|op ops IH]; intros s; simpl; [reflexivity|].
  rewrite IH. reflexivity.
Qed.

Lemma step_current_step (s : nodenet) :
  current_step (step stepoperators s) = current_step s + 1.
Proof. unfold step. simpl. rewrite run_operators_current_step. reflexivity. Qed.

Lemma steps_current_step (k : nat) (s : nodenet) :
  current_step (steps stepoperators k s) = current_step s + Z.of_nat k.
Proof.
  induction k as [|k IH].
  - simpl. lia.
  - change (steps stepoperators (S k) s)
      with (step stepoperators (steps stepoperators k s)).
    rewrite step_current_step, IH. lia.
Qed.

End StepCounter.

(** C9.  After [k] calls of [step] the counter is its former value plus [k];
    it never decreases; and inside a step, once every operator has run but
    the step has not returned, the counter still shows the former value. *)
Theorem current_step_counts_steps (stepoperators : list (nodenet -> list Q))
    (k : nat) (s : nodenet) :
  current_step (steps stepoperators k s) = current_step s + Z.of_nat k
  /\ current_step s <= current_step (steps stepoperators k s)
  /\ current_step (run_operators stepoperators (steps stepoperators k s))
     = current_step (steps stepoperators k s)
  /\ current_step (steps stepoperators (S k) s)
     = current_step (steps stepoperators k s) + 1.
Proof.
  rewrite run_operators_current_step, !steps_current_step. lia.
Qed.

(** Closed goals about the concrete states are settled by evaluation. *)
Ltac evaluate := vm_compute; first [reflexivity | discriminate].
Ltac by_evaluation :=
  lazymatch goal with
  | |- _ /\ _ => split; [evaluate | by_evaluation]
  | _ => evaluate
  end.

(** ** C2: the id scan does not find a free id below the cursor *)

(** C2.  In [free_id_below_cursor] id 1 is free and lies inside [1, NoN),
    no id is free above the cursor, and [create_node] without a uid raises
    [MemoryError]: the second scan starts at index 0, stops there on the
    always-free sentinel and hands back id 0. *)
Theorem create_node_misses_free_id_below_cursor :
  exists s,
    free_id_below_cursor = Ok s
    /\ NoN s = 4
    /\ last_allocated_node s = 3
    /\ allocated_nodes s = [0; 0; REGISTER; REGISTER]
    /\ first_free (allocated_nodes s) (range 0 (last_allocated_node s - 1)) = Ok (Some 0)
    /\ create_node Register "s1" None None None ∅ s = Raise MemoryError.
Proof.
  eexists. by_evaluation.
Qed.

(** ** C3: the por/ret-linked flags after one of two links is removed *)

(** C3.  The Pipe [n3] (elements 3 to 9) has two incoming POR links of
    weight 1 and all seven flags set.  Setting the link from [n1] to 0
    leaves the link from [n2] in [W] and clears all seven flags; the same
    with RET; in both storage modes. *)
Theorem porlinked_cleared_while_a_link_remains (sparse : bool) :
  (exists s s',
      two_por_links sparse = Ok s
      /\ getitem (allocated_nodes s) 3 = Ok PIPE
      /\ getitem (allocated_node_offsets s) 3 = Ok 3
      /\ get_link_weight "n1" "gen" "n3" "por" s = Ok 1%Q
      /\ get_link_weight "n2" "gen" "n3" "por" s = Ok 1%Q
      /\ flags_of_node (n_node_porlinked s) 3 = replicate 7 (Ok 1)
      /\ set_link_weight "n1" "gen" "n3" "por" 0 s = Ok s'
      /\ get_link_weight "n2" "gen" "n3" "por" s' = Ok 1%Q
      /\ flags_of_node (n_node_porlinked s') 3 = replicate 7 (Ok 0))
  /\ (exists s s',
      two_ret_links sparse = Ok s
      /\ get_link_weight "n1" "gen" "n3" "ret" s = Ok 1%Q
      /\ get_link_weight "n2" "gen" "n3" "ret" s = Ok 1%Q
      /\ flags_of_node (n_node_retlinked s) 3 = replicate 7 (Ok 1)
      /\ set_link_weight "n1" "gen" "n3" "ret" 0 s = Ok s'
      /\ get_link_weight "n2" "gen" "n3" "ret" s' = Ok 1%Q
      /\ flags_of_node (n_node_retlinked s') 3 = replicate 7 (Ok 0)).
Proof.
  destruct sparse.
  - split; eexists; eexists; by_evaluation.
  - split; eexists; eexists; by_evaluation.
Qed.

(** ** C4: [delete_node] writes outside the deleted node's elements *)

(** C4.  Deleting the Register [n1] (one element, at index 1) zeroes
    [n_function_selector] at the indices 2 to 7, which belong to the Pipe
    [n2] before and after the call. *)
Theorem delete_node_clobbers_neighbour_selectors :
  exists s s',
    register_then_pipe true = Ok s
    /\ getitem (allocated_nodes s) 1 = Ok REGISTER
    /\ getitem (allocated_node_offsets s) 1 = Ok 1
    /\ get_elements_per_type REGISTER = Ok 1
    /\ delete_node "n1" s = Ok s'
    /\ (fun e => getitem (allocated_elements_to_nodes s) e) <$> range 2 8
       = replicate 6 (Ok 2)
    /\ (fun e => getitem (allocated_elements_to_nodes s') e) <$> range 2 8
       = replicate 6 (Ok 2)
    /\ (fun e => getitem (n_function_selector s) e) <$> range 2 8
       = Ok <$> [NFPG_PIPE_GEN; NFPG_PIPE_POR; NFPG_PIPE_RET; NFPG_PIPE_SUB;
                 NFPG_PIPE_SUR; NFPG_PIPE_CAT]
    /\ (fun e => getitem (n_function_selector s') e) <$> range 2 8
       = replicate 6 (Ok NFPG_PIPE_NON).
Proof.
  eexists. eexists. by_evaluation.
Qed.

(** ** C8: the rows of the rebuilt shifted view *)

Lemma as_strided_row_length (buf : list Q) (rows cols : nat) :
  Forall (fun row => length row = cols) (as_strided buf rows cols).
Proof.
  unfold as_strided. apply Forall_fmap, Forall_forall. intros i _. simpl.
  rewrite length_fmap, length_seq. reflexivity.
Qed.

(** C8.  Every row of the view [rebuild_shifted] installs has 14 cells, not
    7; with the activations [0, 1, ..., 15], row 0 is
    [a[9], ..., a[15], a[0], ..., a[6]], which is not the window
    [a[0], ..., a[6]]. *)
Theorem rebuild_shifted_rows_are_not_windows :
  (forall s, Forall (fun row => length row = 14%nat) (a_shifted (rebuild_shifted s)))
  /\ exists s,
      counting_activations = Ok s
      /\ NoE s = 16
      /\ a s = (fun i => inject_Z (Z.of_nat i)) <$> seq 0 16
      /\ a_shifted (rebuild_shifted s) !! 0%nat
         = Some ((fun v => Some (inject_Z v)) <$> [9; 10; 11; 12; 13; 14; 15; 0; 1; 2; 3; 4; 5; 6])
      /\ window (a s) 0 = (fun v => Some (inject_Z v)) <$> [0; 1; 2; 3; 4; 5; 6]
      /\ a_shifted (rebuild_shifted s) !! 0%nat ≠ Some (window (a s) 0).
Proof.
  split.
  - intros s. apply as_strided_row_length.
  - eexists. by_evaluation.
Qed.

(** ** C1: a weight that is set is the weight that is read *)

Lemma elements_per_type_standard (code count : Z) :
  get_elements_per_type code = Ok count ->
  (MAX_STD_NODETYPE <? code) = false /\ 1 <= count <= 7 /\ (code = PIPE -> count = 7).
Proof.
  unfold get_elements_per_type, MAX_STD_NODETYPE, REGISTER, SENSOR, ACTOR, CONCEPT,
    PIPE, ACTIVATOR.
  repeat match goal with
         | |- context [?x =? ?y] => destruct (Z.eqb_spec x y)
         end; intros [= <-]; (split; [apply Z.ltb_ge; lia | split; [lia | intros; lia]]).
Qed.

Lemma gate_type_range (gate_type : string) (g : Z) :
  get_numerical_gate_type gate_type = Ok g -> 0 <= g <= 6.
Proof.
  unfold get_numerical_gate_type, GEN, POR, RET, SUB, SUR, CAT, EXP.
  repeat case_decide; intros [= <-]; lia.
Qed.





(** ** C5: [create_node] under a uid that is live *)

(** At [one_register] the uid [n1] is live, and [create_node] called with
    [uid = n1] does not fail: it returns [n1], takes element 2 for the id
    and moves the id's offset there, leaving element 1 marked as owned. *)
Lemma create_node_live_uid_not_rejected :
  exists s s',
    one_register = Ok s
    /\ is_node s "n1" = true
    /\ create_node Register "s1" None None (Some "n1") ∅ s = Ok ("n1", s')
    /\ allocated_elements_to_nodes s = ([0; 1] ++ replicate 18 0)%list
    /\ allocated_elements_to_nodes s' = ([0; 1; 1] ++ replicate 17 0)%list
    /\ getitem (allocated_node_offsets s) 1 = Ok 1
    /\ getitem (allocated_node_offsets s') 1 = Ok 2
    /\ allocated_elements_to_nodes s' ≠ allocated_elements_to_nodes s.
Proof. eexists. eexists. by_evaluation. Qed.

(** *** Valid indices *)

Lemma getitem_valid {A : Type} (l : list A) (i : Z) :
  valid_index (length l) i <-> exists x, getitem l i = Ok x.
Proof.
  unfold valid_index, getitem. split.
  - intros [k Hk]. rewrite Hk. simpl.
    destruct (lookup_lt_is_Some_2 l k (np_index_lt _ _ _ Hk)) as [x Hx].
    exists x. rewrite Hx. reflexivity.
  - intros [x Hx]. destruct (np_index (length l) i); [eauto | discriminate].
Qed.

Lemma setitem_valid {A : Type} (l : list A) (i : Z) (x : A) :
  valid_index (length l) i ->
  exists l', setitem l i x = Ok l' /\ length l' = length l /\ getitem l' i = Ok x.
Proof.
  intros [k Hk]. exists (<[k := x]> l).
  assert (Hset : setitem l i x = Ok (<[k := x]> l)).
  { unfold setitem. rewrite Hk. reflexivity. }
  split; [exact Hset|]. split; [apply length_insert|].
  eapply getitem_setitem_eq. exact Hset.
Qed.

Lemma getitem_setitem_other {A : Type} (l l' : list A) (i j : Z) (x : A) :
  setitem l i x = Ok l' ->
  np_index (length l) i ≠ np_index (length l) j ->
  getitem l' j = getitem l j.
Proof.
  unfold setitem, getitem.
  destruct (np_index (length l) i) as [k|] eqn:Ei; simpl; [|discriminate].
  intros [= <-] Hne. rewrite length_insert.
  destruct (np_index (length l) j) as [k'|]; simpl; [|reflexivity].
  rewrite list_lookup_insert_ne by congruence. reflexivity.
Qed.

(** *** The element scan *)

Lemma range_length (lo hi : Z) : length (range lo hi) = Z.to_nat (hi - lo).
Proof. unfold range. apply length_seqZ. Qed.

Lemma count_free_bounds (elements : list Z) (i : Z) (js : list Z) (c : Z) :
  count_free elements i js = Ok c -> 0 <= c <= Z.of_nat (length js).
Proof.
  revert c. induction js as [|j js IH]; intros c H; simpl in H.
  - injection H as <-. simpl. lia.
  - destruct (i + j <? Z.of_nat (length elements)); [|injection H as <-; simpl; lia].
    destruct (getitem elements (i + j)) as [v|]; [|discriminate]. simpl in H.
    destruct (v =? 0); [|injection H as <-; simpl; lia].
    destruct (count_free elements i js) as [c'|]; [|discriminate]. simpl in H.
    injection H as <-. specialize (IH c' eq_refl). simpl. lia.
Qed.

Lemma count_free_full (elements : list Z) (i : Z) (js : list Z) (c : Z) :
  count_free elements i js = Ok c -> Z.of_nat (length js) <= c ->
  forall j, j ∈ js -> getitem elements (i + j) = Ok 0.
Proof.
  revert c. induction js as [|j js IH]; intros c H Hc j' Hj; [inversion Hj|].
  simpl in H, Hc.
  destruct (i + j <? Z.of_nat (length elements)); [|injection H as <-; lia].
  destruct (getitem elements (i + j)) as [v|] eqn:Ev; [|discriminate]. simpl in H.
  destruct (Z.eqb_spec v 0) as [->|]; [|injection H as <-; lia].
  destruct (count_free elements i js) as [c'|] eqn:Ec; [|discriminate]. simpl in H.
  injection H as <-.
  apply elem_of_cons in Hj as [-> | Hj]; [exact Ev|].
  eapply IH; [reflexivity | lia | exact Hj].
Qed.

Lemma find_offset_loop_found (fuel : nat) (elements : list Z) (n noe : Z) :
  forall (i : Z) (restarted : bool) (offset : Z),
    find_offset_loop fuel elements n noe i restarted = Ok offset ->
    exists c, count_free elements offset (range 0 n) = Ok c /\ n <= c.
Proof.
  induction fuel as [|fuel IH]; intros i restarted offset H; [discriminate|].
  simpl in H.
  destruct (count_free elements i (range 0 n)) as [c|] eqn:Ec; [|discriminate].
  simpl in H. destruct (Z.leb_spec n c).
  - injection H as <-. eauto.
  - destruct (noe <=? i + c + 1).
    + destruct restarted; [discriminate|]. eapply IH; exact H.
    + eapply IH; exact H.
Qed.

(** A run that the scan returns lies inside the vector and was free. *)
Lemma find_offset_run (elements : list Z) (n noe last offset : Z) :
  0 <= n ->
  find_offset elements n noe last = Ok offset ->
  forall j, 0 <= j < n -> getitem elements (offset + j) = Ok 0.
Proof.
  intros Hn H j Hj. unfold find_offset in H.
  destruct (find_offset_loop_found _ _ _ _ _ _ _ H) as (c & Hc & Hle).
  eapply count_free_full; [exact Hc | rewrite range_length; lia |].
  unfold range. apply elem_of_seqZ. lia.
Qed.

(** More fuel than the rounds that are left changes nothing: the loop of
    [find_offset] never runs out of it. *)
Lemma find_offset_fuel_irrelevant (elements : list Z) (n noe : Z) (fuel : nat) :
  forall (i : Z) (restarted : bool),
    (rounds_left noe i restarted <= fuel)%nat ->
    find_offset_loop (S fuel) elements n noe i restarted
    = find_offset_loop fuel elements n noe i restarted.
Proof.
  induction fuel as [|fuel IH]; intros i restarted Hfuel.
  - unfold rounds_left in Hfuel. destruct restarted; lia.
  - change (find_offset_loop (S (S fuel)) elements n noe i restarted)
      with (freecount ← count_free elements i (range 0 n);
            if n <=? freecount then Ok i
            else if noe <=? i + freecount + 1
                 then if restarted then Raise MemoryError
                      else find_offset_loop (S fuel) elements n noe 0 true
                 else find_offset_loop (S fuel) elements n noe (i + freecount + 1)
                        restarted).
    change (find_offset_loop (S fuel) elements n noe i restarted)
      with (freecount ← count_free elements i (range 0 n);
            if n <=? freecount then Ok i
            else if noe <=? i + freecount + 1
                 then if restarted then Raise MemoryError
                      else find_offset_loop fuel elements n noe 0 true
                 else find_offset_loop fuel elements n noe (i + freecount + 1)
                        restarted).
    destruct (count_free elements i (range 0 n)) as [c|] eqn:Ec; [|reflexivity].
    cbn [mbind result_bind]. pose proof (count_free_bounds _ _ _ _ Ec) as [Hc _].
    destruct (n <=? c); [reflexivity|].
    destruct (Z.leb_spec noe (i + c + 1)).
    + destruct restarted; [reflexivity|]. apply IH.
      unfold rounds_left in *. lia.
    + apply IH. unfold rounds_left in *. destruct restarted; lia.
Qed.

Lemma find_offset_enough_fuel (elements : list Z) (n noe i : Z) (extra : nat) :
  find_offset_loop (find_offset_fuel noe i + extra) elements n noe i false
  = find_offset_loop (find_offset_fuel noe i) elements n noe i false.
Proof.
  induction extra as [|extra IH]; [rewrite Nat.add_0_r; reflexivity|].
  rewrite Nat.add_succ_r, find_offset_fuel_irrelevant; [exact IH|].
  unfold rounds_left, find_offset_fuel. lia.
Qed.

(** *** The phases of [create_node] *)

Lemma getitem_setitem_cases {A : Type} (l l' : list A) (i j : Z) (x : A) :
  setitem l i x = Ok l' -> getitem l' j = Ok x \/ getitem l' j = getitem l j.
Proof.
  intros H. destruct (decide (np_index (length l) i = np_index (length l) j)) as [He|Hne].
  - left. pose proof (getitem_setitem_eq _ _ _ _ H) as Hg.
    pose proof (setitem_length _ _ _ _ H) as Hlen.
    unfold getitem in *. rewrite Hlen in *. rewrite <- He. exact Hg.
  - right. eapply getitem_setitem_other; eassumption.
Qed.

(** The loop that hands the cells [offset + j] to the node [id]. *)
Lemma hand_over_elements (id offset : Z) (js : list Z) :
  forall s : nodenet,
    (forall j, j ∈ js -> valid_index (length (allocated_elements_to_nodes s)) (offset + j)) ->
    exists elements',
      for_each (fun element s =>
                  arr ← setitem (allocated_elements_to_nodes s) (offset + element) id;
                  Ok (s <| allocated_elements_to_nodes := arr |>)) js s
      = Ok (s <| allocated_elements_to_nodes := elements' |>)
      /\ length elements' = length (allocated_elements_to_nodes s)
      /\ (forall j, j ∈ js -> getitem elements' (offset + j) = Ok id)
      /\ (forall k, getitem (allocated_elements_to_nodes s) k = Ok id ->
                    getitem elements' k = Ok id).
Proof.
  induction js as [|j js IH]; intros s Hvalid.
  - exists (allocated_elements_to_nodes s). split; [destruct s; reflexivity|].
    split; [reflexivity|]. split; [intros j Hj; inversion Hj | auto].
  - destruct (setitem_valid (allocated_elements_to_nodes s) (offset + j) id)
      as (e1 & Hset & Hlen & Hget); [apply Hvalid; left|].
    destruct (IH (s <| allocated_elements_to_nodes := e1 |>))
      as (e' & Hloop & Hlen' & Hdone & Hkept).
    { intros j' Hj'. cbn. unfold RecordSettersUsingExistingGetters.const.
      rewrite Hlen. apply Hvalid. right. exact Hj'. }
    exists e'. cbn [for_each]. rewrite Hset. cbn [mbind result_bind].
    split; [exact Hloop|].
    split; [cbn in Hlen'; unfold RecordSettersUsingExistingGetters.const in Hlen'; congruence|].
    assert (Hkept1 : forall k, getitem (allocated_elements_to_nodes s) k = Ok id ->
                               getitem e1 k = Ok id).
    { intros k Hk. destruct (getitem_setitem_cases _ _ _ k _ Hset) as [H|H]; congruence. }
    split.
    + intros j' Hj'. apply elem_of_cons in Hj' as [-> | Hj'].
      * apply Hkept. exact Hget.
      * apply Hdone. exact Hj'.
    + intros k Hk. apply Hkept. apply Hkept1. exact Hk.
Qed.

Lemma register_node_ok (id code : Z) (nodespace_uid : string) (nodespace_id offset n : Z)
    (s : nodenet) :
  valid_index (length (allocated_nodes s)) id ->
  length (allocated_node_parents s) = length (allocated_nodes s) ->
  length (allocated_node_offsets s) = length (allocated_nodes s) ->
  tnodespace.from_id nodespace_uid = Ok nodespace_id ->
  get_elements_per_type code = Ok n ->
  (forall j, 0 <= j < n ->
             valid_index (length (allocated_elements_to_nodes s)) (offset + j)) ->
  exists nodes' parents' offsets' elements',
    register_node id code nodespace_uid offset s
    = Ok (s <| last_allocated_node := id |> <| last_allocated_offset := offset |>
            <| allocated_nodes := nodes' |> <| allocated_node_parents := parents' |>
            <| allocated_node_offsets := offsets' |>
            <| allocated_elements_to_nodes := elements' |>)
    /\ setitem (allocated_nodes s) id code = Ok nodes'
    /\ setitem (allocated_node_parents s) id nodespace_id = Ok parents'
    /\ setitem (allocated_node_offsets s) id offset = Ok offsets'
    /\ length elements' = length (allocated_elements_to_nodes s)
    /\ (forall j, 0 <= j < n -> getitem elements' (offset + j) = Ok id).
Proof.
  intros Hid Hparents Hoffsets Hns Hcount Hrun.
  destruct (setitem_valid (allocated_nodes s) id code Hid) as (nodes' & Hn & Hnlen & Hnget).
  destruct (setitem_valid (allocated_node_parents s) id nodespace_id)
    as (parents' & Hp & _ & _); [rewrite Hparents; exact Hid|].
  destruct (setitem_valid (allocated_node_offsets s) id offset)
    as (offsets' & Ho & _ & _); [rewrite Hoffsets; exact Hid|].
  unfold register_node. cbn. unfold RecordSettersUsingExistingGetters.const.
  rewrite Hn. cbn. rewrite Hns. cbn. rewrite Hp. cbn. rewrite Ho. cbn.
  unfold RecordSettersUsingExistingGetters.const.
  rewrite Hnget. cbn. rewrite Hcount. cbn.
  match goal with
  | |- context [for_each _ _ ?s1] =>
      destruct (hand_over_elements id offset (range 0 n) s1) as (e' & Hloop & Hlen & Hdone & _)
  end.
  { intros j Hj. apply elem_of_seqZ in Hj. apply Hrun. lia. }
  exists nodes', parents', offsets', e'.
  split; [exact Hloop|]. repeat split; auto.
  intros j Hj. apply Hdone. unfold range. apply elem_of_seqZ. lia.
Qed.

Lemma same_registration_refl (s : nodenet) : same_registration s s.
Proof. constructor; reflexivity. Qed.

Lemma for_each_ok {A S : Type} (Inv : S -> Prop) (body : A -> S -> result S)
    (xs : list A) :
  (forall x s, x ∈ xs -> Inv s -> exists s', body x s = Ok s' /\ Inv s') ->
  forall s, Inv s -> exists s', for_each body xs s = Ok s' /\ Inv s'.
Proof.
  induction xs as [|x xs IH]; intros Hbody s Hs.
  - exists s. split; [reflexivity | exact Hs].
  - destruct (Hbody x s) as (s1 & H1 & Hs1); [left | exact Hs |].
    destruct (IH (fun y t Hy => Hbody y t (list_elem_of_further _ _ _ Hy)) s1 Hs1)
      as (s' & H' & Hs').
    exists s'. split; [|exact Hs']. simpl. rewrite H1. exact H'.
Qed.

(** A state got by assigning to fields is compared field by field. *)
Ltac fields :=
  cbn; unfold RecordSettersUsingExistingGetters.const; try congruence.

Ltac registration_kept H :=
  destruct H; constructor; fields.

Ltac activators_kept H :=
  unfold same_activators, nodespace_activators in *;
  repeat (apply Forall_cons in H as [? H]);
  repeat (apply Forall_cons; split); [fields .. | apply Forall_nil; exact I].

Lemma setup_pipe_ok (nodespace_uid : string) (nodespace_id id offset : Z)
    (parameters : gmap string string) (s0 s : nodenet) :
  same_registration s0 s -> same_activators s0 s ->
  tnodespace.from_id nodespace_uid = Ok nodespace_id ->
  (forall g, 0 <= g <= 6 ->
             valid_index (length (n_function_selector s0)) (offset + g)
             /\ valid_index (length (allocated_elements_to_activators s0)) (offset + g)) ->
  Forall (fun activators : nodenet -> list Z =>
            exists act, getitem (activators s0) nodespace_id = Ok act
                        /\ valid_index (length (allocated_node_offsets s0)) act)
         nodespace_activators ->
  exists s', setup_nodetype Pipe nodespace_uid id (tnode.to_id id) offset parameters s = Ok s'
             /\ same_registration s0 s'.
Proof.
  intros Hreg Hact Hns Hrun Hbound. unfold setup_nodetype.
  match goal with
  | |- context [for_each ?body ?xs s] =>
      destruct (for_each_ok (fun t => same_registration s0 t /\ same_activators s0 t) body xs)
        with (s := s) as (s1 & -> & Hreg1 & Hact1)
  end.
  { intros [g f] t Hg [Ht Ha].
    assert (0 <= g <= 6) as Hg6.
    { unfold GEN, POR, RET, SUB, SUR, CAT, EXP in Hg.
      repeat (apply elem_of_cons in Hg as [[= -> _] | Hg]; [lia|]). inversion Hg. }
    destruct (setitem_valid (n_function_selector t) (offset + g) f) as (arr & Hset & Hlen & _).
    { rewrite (same_size_selectors _ _ Ht). apply Hrun. exact Hg6. }
    rewrite Hset. cbn [mbind result_bind]. eexists. split; [reflexivity|].
    split; [registration_kept Ht | activators_kept Ha]. }
  { split; assumption. }
  cbn [mbind result_bind].
  match goal with
  | |- context [for_each ?body ?xs s1] =>
      destruct (for_each_ok (fun t => same_registration s0 t /\ same_activators s0 t) body xs)
        with (s := s1) as (s2 & -> & Hreg2 & _)
  end.
  { intros [g activators] t Hg [Ht Ha]. rewrite Hns. cbn [mbind result_bind].
    assert (0 <= g <= 6 /\ activators ∈ nodespace_activators) as [Hg6 Hin].
    { unfold POR, RET, SUB, SUR, CAT, EXP, nodespace_activators in *.
      repeat (apply elem_of_cons in Hg as [[= -> ->] | Hg];
              [split; [lia | repeat first [left | right]]|]).
      inversion Hg. }
    pose proof (proj1 (Forall_forall _ _) Hbound _ Hin) as (act & Hget & Hvalid).
    pose proof (proj1 (Forall_forall _ _) Ha _ Hin) as Hsame. cbv beta in Hsame.
    rewrite Hsame, Hget. cbn [mbind result_bind].
    rewrite (same_offsets _ _ Ht).
    apply getitem_valid in Hvalid as (act_off & ->). cbn [mbind result_bind].
    destruct (setitem_valid (allocated_elements_to_activators t) (offset + g) act_off)
      as (arr & Hset & Hlen & _).
    { rewrite (same_size_activators _ _ Ht). apply Hrun. exact Hg6. }
    rewrite Hset. cbn [mbind result_bind]. eexists. split; [reflexivity|].
    split; [registration_kept Ht | activators_kept Ha]. }
  { split; assumption. }
  exists s2. split; [reflexivity | exact Hreg2].
Qed.

Lemma elem_of_nonzero (arr : list Z) (i : Z) :
  i ∈ nonzero arr <-> exists k v, i = Z.of_nat k /\ arr !! k = Some v /\ v ≠ 0.
Proof.
  unfold nonzero. rewrite list_elem_of_fmap. split.
  - intros ([k x] & -> & Hin). apply list_elem_of_filter in Hin as [Hv Hin].
    apply elem_of_lookup_imap in Hin as (k' & x' & [= -> ->] & Hlook).
    simpl in Hv. eauto.
  - intros (k & v & -> & Hlook & Hv). exists (k, v). split; [reflexivity|].
    apply list_elem_of_filter. split; [exact Hv|].
    apply elem_of_lookup_imap. eauto.
Qed.

Lemma str_inj (i j : Z) : str i = str j -> i = j.
Proof.
  intros H. assert (Hs : int_of_uid (String "n" (str i)) = int_of_uid (String "n" (str j)))
    by (rewrite H; reflexivity).
  rewrite !int_of_uid_str in Hs. congruence.
Qed.

(** A uid is live exactly when it is the canonical uid of an index that
    holds a type code. *)
Lemma is_node_spec (s : nodenet) (uid : string) :
  is_node s uid = true
  <-> exists k t, uid = tnode.to_id (Z.of_nat k)
                  /\ allocated_nodes s !! k = Some t /\ t ≠ 0.
Proof.
  unfold is_node, get_node_uids. rewrite bool_decide_eq_true, list_elem_of_fmap. split.
  - intros (i & -> & Hi). apply elem_of_nonzero in Hi as (k & t & -> & Hk & Ht). eauto.
  - intros (k & t & -> & Hk & Ht). exists (Z.of_nat k). split; [reflexivity|].
    apply elem_of_nonzero. eauto.
Qed.

Lemma is_node_same_nodes (s s' : nodenet) (uid : string) :
  allocated_nodes s' = allocated_nodes s -> is_node s' uid = is_node s uid.
Proof. intros H. unfold is_node, get_node_uids. rewrite H. reflexivity. Qed.

Lemma to_id_not_empty (id : Z) : bool_decide (tnode.to_id id ≠ "") = true.
Proof. apply bool_decide_eq_true. discriminate. Qed.

Lemma setup_activator_ok (nodespace_uid : string) (nodespace_id id offset : Z)
    (parameters : gmap string string) (s0 s : nodenet) :
  same_registration s0 s -> same_activators s0 s ->
  tnodespace.from_id nodespace_uid = Ok nodespace_id ->
  valid_index (length (allocated_node_offsets s0)) id ->
  Forall (fun activators : nodenet -> list Z =>
            valid_index (length (activators s0)) nodespace_id)
         nodespace_activators ->
  (forall gate_type, parameters !! "type" = Some gate_type -> gate_type ≠ "" ->
     exists g, get_numerical_gate_type gate_type = Ok g
       /\ forall nid, nid ∈ where_eq (allocated_node_parents s0) nodespace_id ->
            exists t, getitem (allocated_nodes s0) nid = Ok t
              /\ (t = PIPE ->
                  exists off, getitem (allocated_node_offsets s0) nid = Ok off
                    /\ valid_index (length (allocated_elements_to_activators s0)) (off + g))) ->
  exists s', setup_nodetype Activator nodespace_uid id (tnode.to_id id) offset parameters s
             = Ok s'
             /\ same_registration s0 s'.
Proof.
  intros Hreg Hact Hns Hid Hvalid Htype. unfold setup_nodetype.
  destruct (parameters !! "type") as [gate_type|] eqn:Eparam; [|eauto].
  destruct (bool_decide (gate_type ≠ "")) eqn:Ene; [|eauto].
  apply bool_decide_eq_true in Ene.
  destruct (Htype gate_type eq_refl Ene) as (g & Hgate & Hpipes).
  unfold set_nodespace_gatetype_activator.
  rewrite to_id_not_empty, tnode_from_to_id, Hns. cbn [mbind result_bind].
  assert (Hchain : forall activators : nodenet -> list Z, activators ∈ nodespace_activators ->
             exists arr, setitem (activators s) nodespace_id id = Ok arr
                         /\ length arr = length (activators s)).
  { intros activators Hin.
    pose proof (proj1 (Forall_forall _ _) Hvalid _ Hin) as Hv.
    pose proof (proj1 (Forall_forall _ _) Hact _ Hin) as Hsame. cbv beta in Hv, Hsame.
    rewrite <- Hsame in Hv.
    destruct (setitem_valid (activators s) nodespace_id id Hv) as (arr & Hset & Hlen & _).
    eauto. }
  assert (Hloop : forall s2, same_registration s0 s2 ->
             exists s',
               for_each
                 (fun nid s =>
                    t ← getitem (allocated_nodes s) nid;
                    if t =? PIPE
                    then off ← getitem (allocated_node_offsets s) nid;
                         g ← get_numerical_gate_type gate_type;
                         act_off ← getitem (allocated_node_offsets s) id;
                         arr ← setitem (allocated_elements_to_activators s) (off + g) act_off;
                         Ok (s <| allocated_elements_to_activators := arr |>)
                    else Ok s)
                 (where_eq (allocated_node_parents s2) nodespace_id) s2 = Ok s'
               /\ same_registration s0 s').
  { intros s2 Hs2. rewrite (same_node_parents _ _ Hs2).
    apply (for_each_ok (same_registration s0)); [|exact Hs2].
    intros nid t Hnid Ht.
    destruct (Hpipes nid Hnid) as (ty & Hty & Hpipe).
    rewrite (same_nodes _ _ Ht), Hty. cbn [mbind result_bind].
    destruct (Z.eqb_spec ty PIPE) as [Hp|]; [|eauto].
    destruct (Hpipe Hp) as (off & Hoff & Hcell).
    rewrite (same_offsets _ _ Ht), Hoff, Hgate. cbn [mbind result_bind].
    apply getitem_valid in Hid as (act_off & ->). cbn [mbind result_bind].
    destruct (setitem_valid (allocated_elements_to_activators t) (off + g) act_off)
      as (arr & -> & Hlen & _).
    { rewrite (same_size_activators _ _ Ht). exact Hcell. }
    cbn [mbind result_bind]. eexists. split; [reflexivity|]. registration_kept Ht. }
  unfold nodespace_activators in Hchain.
  repeat case_decide;
    try (match goal with
         | |- context [setitem (?activators s) nodespace_id id] =>
             destruct (Hchain activators) as (arr & -> & _);
             [repeat first [left | right] |]
         end);
    cbn [mbind result_bind]; apply Hloop; try exact Hreg; registration_kept Hreg.
Qed.

Lemma apply_gate_defaults_ok (nodetype : nodetype) (id offset : Z) (s0 s : nodenet) :
  same_registration s0 s ->
  is_node s0 (tnode.to_id id) = true ->
  getitem (allocated_node_offsets s0) id = Ok offset ->
  (nodetype = Pipe -> forall g, 0 <= g <= 6 ->
             valid_index (length (g_threshold s0)) (offset + g)
             /\ valid_index (length (g_min s0)) (offset + g)
             /\ valid_index (length (g_max s0)) (offset + g)) ->
  exists s', apply_gate_defaults nodetype id (tnode.to_id id) s = Ok s'
             /\ same_registration s0 s'.
Proof.
  intros Hreg Hlive Hoffset Hrun. unfold apply_gate_defaults.
  apply (for_each_ok (same_registration s0)); [|exact Hreg].
  intros [gate params] t Hin Ht.
  assert (Hgate : exists g, get_numerical_gate_type gate = Ok g /\ 0 <= g <= 6
             /\ params = [("minimum", (-1)%Q); ("maximum", 1%Q); ("threshold", (-1)%Q)]).
  { destruct nodetype; simpl in Hin; try (inversion Hin; fail).
    clear Hrun. repeat (apply elem_of_cons in Hin as [[= -> ->] | Hin];
            [eexists; split; [reflexivity|]; split; [vm_compute; intuition discriminate | reflexivity]|]).
    inversion Hin. }
  destruct Hgate as (g & Hg & Hg6 & ->).
  assert (Hpipe : nodetype = Pipe) by (destruct nodetype; simpl in Hin; solve [inversion Hin | reflexivity]).
  destruct (Hrun Hpipe g Hg6) as (Hthreshold & Hmin & Hmax).
  apply (for_each_ok (same_registration s0)); [|exact Ht].
  intros [parameter value] t' Hparam Ht'.
  rewrite (is_node_same_nodes _ _ _ (same_nodes _ _ Ht')), Hlive.
  unfold set_gate_parameter. rewrite (same_offsets _ _ Ht'), Hoffset, Hg.
  cbn [mbind result_bind].
  repeat (apply elem_of_cons in Hparam as [[= -> ->] | Hparam]).
  - destruct (setitem_valid (g_min t') (offset + g) (-1)%Q) as (arr & Hset & Hlen & _).
    { rewrite (same_size_min _ _ Ht'). exact Hmin. }
    repeat case_decide; try congruence. rewrite Hset. cbn [mbind result_bind].
    eexists. split; [reflexivity|]. registration_kept Ht'.
  - destruct (setitem_valid (g_max t') (offset + g) 1%Q) as (arr & Hset & Hlen & _).
    { rewrite (same_size_max _ _ Ht'). exact Hmax. }
    repeat case_decide; try congruence. rewrite Hset. cbn [mbind result_bind].
    eexists. split; [reflexivity|]. registration_kept Ht'.
  - destruct (setitem_valid (g_threshold t') (offset + g) (-1)%Q) as (arr & Hset & Hlen & _).
    { rewrite (same_size_threshold _ _ Ht'). exact Hthreshold. }
    repeat case_decide; try congruence. rewrite Hset. cbn [mbind result_bind].
    eexists. split; [reflexivity|]. registration_kept Ht'.
  - inversion Hparam.
Qed.

Lemma valid_index_nonneg (len : nat) (i : Z) : 0 <= i < Z.of_nat len -> valid_index len i.
Proof. intros H. unfold valid_index. rewrite np_index_nonneg by exact H. eauto. Qed.

Lemma getitem_elem_of {A : Type} (l : list A) (i : Z) (x : A) : getitem l i = Ok x -> x ∈ l.
Proof.
  unfold getitem. destruct (np_index (length l) i) as [k|]; simpl; [|discriminate].
  destruct (l !! k) eqn:E; simpl; [|discriminate]. intros [= <-].
  eapply list_elem_of_lookup_2. exact E.
Qed.

(** C5 (as amended).  [create_node] called with the uid of a live node does
    not fail.  In a state whose vectors fit together, with a nodespace that
    exists, a gate type (if any is given to an Activator) that exists, and
    room for the elements, the call returns that same uid: the id keeps its
    place in [allocated_nodes] and takes the new type, a free run of
    elements is handed to it, and its offset is moved to that run. *)
Theorem create_node_reregisters_live_uid (nodetype : nodetype) (nodespace_uid : string)
    (nodespace_id : Z) (position : option (list Z)) (name : option string) (u : string)
    (parameters : gmap string string) (s : nodenet) (n offset : Z) :
  is_node s u = true ->
  well_sized s ->
  tnodespace.from_id nodespace_uid = Ok nodespace_id ->
  valid_index (length (allocated_nodespaces s)) nodespace_id ->
  (forall gate_type, nodetype = Activator -> parameters !! "type" = Some gate_type ->
                     is_ok (get_numerical_gate_type gate_type) = true) ->
  get_elements_per_type (get_numerical_node_type nodetype) = Ok n ->
  find_offset (allocated_elements_to_nodes s) n (NoE s) (last_allocated_offset s)
  = Ok offset ->
  exists id s',
    tnode.from_id u = Ok id
    /\ create_node nodetype nodespace_uid position name (Some u) parameters s = Ok (u, s')
    /\ last_allocated_node s' = id
    /\ last_allocated_offset s' = offset
    /\ getitem (allocated_nodes s') id = Ok (get_numerical_node_type nodetype)
    /\ getitem (allocated_node_offsets s') id = Ok offset
    /\ forall j, 0 <= j < n ->
         getitem (allocated_elements_to_nodes s) (offset + j) = Ok 0
         /\ getitem (allocated_elements_to_nodes s') (offset + j) = Ok id.
Proof.
  intros Hlive Hws Hns Hnsvalid Htype Hcount Hfind.
  apply is_node_spec in Hlive as (k & t & -> & Hk & Ht).
  remember (Z.of_nat k) as id eqn:Eid.
  remember (get_numerical_node_type nodetype) as code eqn:Ecode.
  destruct (elements_per_type_standard _ _ Hcount) as (_ & Hn & Hn7).
  pose proof (lookup_lt_Some _ _ _ Hk) as Hklt.
  assert (Hid : valid_index (length (allocated_nodes s)) id).
  { apply valid_index_nonneg. lia. }
  assert (Hcode : code ≠ 0) by (subst code; destruct nodetype; discriminate).
  assert (Hn0 : 0 <= n) by lia.
  pose proof (find_offset_run _ _ _ _ _ Hn0 Hfind) as Hfree.
  assert (Hrun : forall j, 0 <= j < n ->
             valid_index (length (allocated_elements_to_nodes s)) (offset + j)).
  { intros j Hj. apply getitem_valid. eauto. }
  destruct (register_node_ok id code nodespace_uid nodespace_id offset n s Hid
              (sized_parents _ Hws) (sized_offsets _ Hws) Hns Hcount Hrun)
    as (nodes' & parents' & offsets' & elements' & Hreg & Hnodes & Hparents & Hoffsets
        & Helen & Howned).
  exists id. unfold create_node. rewrite tnode_from_to_id. cbn [mbind result_bind].
  rewrite <- Ecode, Hcount. cbn [mbind result_bind]. rewrite Hfind.
  cbn [mbind result_bind]. rewrite Hreg. cbn [mbind result_bind].
  match goal with
  | |- context [setup_nodetype _ _ _ _ _ _ ?x] => set (s1 := x)
  end.
  assert (Hs1 :
    (allocated_nodes s1 = nodes' /\ allocated_node_offsets s1 = offsets'
     /\ allocated_node_parents s1 = parents' /\ allocated_elements_to_nodes s1 = elements'
     /\ last_allocated_node s1 = id /\ last_allocated_offset s1 = offset)
    /\ (allocated_elements_to_activators s1 = allocated_elements_to_activators s
        /\ n_function_selector s1 = n_function_selector s
        /\ g_threshold s1 = g_threshold s /\ g_min s1 = g_min s /\ g_max s1 = g_max s)
    /\ same_activators s s1).
  { subst s1. destruct name as [nm|], position as [p|];
      try destruct (bool_decide (nm ≠ "") && bool_decide (nm ≠ tnode.to_id id));
      (split; [repeat split | split; [repeat split | repeat constructor]]). }
  clearbody s1. clear Hreg.
  destruct Hs1 as ((Hn1 & Ho1 & Hp1 & He1 & Hln1 & Hlo1) & (Ha1 & Hf1 & Ht1 & Hmin1 & Hmax1)
                   & Hact1).
  pose proof (setitem_length _ _ _ _ Hnodes) as Hnodes_len.
  pose proof (setitem_length _ _ _ _ Hoffsets) as Hoffsets_len.
  pose proof (setitem_length _ _ _ _ Hparents) as Hparents_len.
  assert (Hnodes_eq : nodes' = <[k := code]> (allocated_nodes s)).
  { rewrite setitem_nonneg in Hnodes by lia. rewrite Eid, Nat2Z.id in Hnodes. congruence. }
  assert (Hoffsets_eq : offsets' = <[k := offset]> (allocated_node_offsets s)).
  { rewrite setitem_nonneg in Hoffsets by (rewrite (sized_offsets _ Hws); lia).
    rewrite Eid, Nat2Z.id in Hoffsets. congruence. }
  (* the elements of the run are inside every per-element vector *)
  assert (Hcells : forall g, 0 <= g < n ->
             valid_index (length (allocated_elements_to_nodes s)) (offset + g)) by exact Hrun.
  (* the type-specific part *)
  assert (Hsetup : exists s2,
             setup_nodetype nodetype nodespace_uid id (tnode.to_id id) offset parameters s1
             = Ok s2 /\ same_registration s1 s2).
  { destruct nodetype eqn:Etype.
    - exists s1. split; [reflexivity | apply same_registration_refl].
    - unfold setup_nodetype. destruct (parameters !! "datasource");
        (eexists; split; [reflexivity | constructor; reflexivity]).
    - unfold setup_nodetype. destruct (parameters !! "datatarget");
        (eexists; split; [reflexivity | constructor; reflexivity]).
    - assert (n = 7) by (apply Hn7; subst code; reflexivity). subst n.
      apply (setup_pipe_ok nodespace_uid nodespace_id id offset parameters s1 s1);
        [apply same_registration_refl | repeat constructor | exact Hns | |].
      + intros g Hg. rewrite Hf1, Ha1, (sized_selectors _ Hws), (sized_activators _ Hws).
        split; apply Hcells; lia.
      + apply Forall_forall. intros f Hf.
        pose proof (proj1 (Forall_forall _ _) Hact1 f Hf) as Hsame. cbv beta in Hsame.
        pose proof (proj1 (Forall_forall _ _) (sized_nodespace_activators _ Hws) f Hf) as Hlen.
        pose proof (proj1 (Forall_forall _ _) (activators_are_nodes _ Hws) f Hf) as Hacts.
        cbv beta in Hlen, Hacts. rewrite Hsame.
        assert (Hget : valid_index (length (f s)) nodespace_id) by (rewrite Hlen; exact Hnsvalid).
        apply getitem_valid in Hget as [act Hact]. exists act. split; [exact Hact|].
        rewrite Ho1, Hoffsets_len, (sized_offsets _ Hws).
        apply (proj1 (Forall_forall _ _) Hacts). eapply getitem_elem_of. exact Hact.
    - apply (setup_activator_ok nodespace_uid nodespace_id id offset parameters s1 s1);
        [apply same_registration_refl | repeat constructor | exact Hns | | |].
      + rewrite Ho1, Hoffsets_len, (sized_offsets _ Hws). exact Hid.
      + apply Forall_forall. intros f Hf.
        pose proof (proj1 (Forall_forall _ _) Hact1 f Hf) as Hsame. cbv beta in Hsame.
        pose proof (proj1 (Forall_forall _ _) (sized_nodespace_activators _ Hws) f Hf) as Hlen.
        cbv beta in Hlen. rewrite Hsame, Hlen. exact Hnsvalid.
      + intros gate_type Hp _. specialize (Htype gate_type eq_refl Hp).
        destruct (get_numerical_gate_type gate_type) as [g|] eqn:Eg; [|discriminate].
        pose proof (gate_type_range _ _ Eg) as Hg.
        exists g. split; [reflexivity|]. intros nid Hnid.
        rewrite Hp1 in Hnid. apply elem_of_where_eq in Hnid as (k' & -> & Hk').
        apply lookup_lt_Some in Hk'. rewrite Hparents_len, (sized_parents _ Hws) in Hk'.
        rewrite Hn1, Ho1.
        destruct (getitem_in_range nodes' (Z.of_nat k')) as (t' & Ht' & Hlook');
          [rewrite Hnodes_len; lia|].
        exists t'. split; [exact Ht'|]. intros ->.
        rewrite Nat2Z.id, Hnodes_eq in Hlook'.
        destruct (decide (k = k')) as [<-|Hne].
        * rewrite list_lookup_insert_eq in Hlook' by lia.
          subst code. vm_compute in Hlook'. discriminate.
        * rewrite list_lookup_insert_ne in Hlook' by exact Hne.
          destruct (getitem_in_range offsets' (Z.of_nat k')) as (off & Hoff & Hlookoff);
            [rewrite Hoffsets_len, (sized_offsets _ Hws); lia|].
          exists off. split; [exact Hoff|].
          rewrite Nat2Z.id, Hoffsets_eq, list_lookup_insert_ne in Hlookoff by exact Hne.
          pose proof (pipes_in_arena _ Hws _ _ Hlook' Hlookoff) as Harena.
          rewrite Ha1, (sized_activators _ Hws). apply valid_index_nonneg. lia. }
  destruct Hsetup as (s2 & Hsetup & Hsame12). rewrite Hsetup. cbn [mbind result_bind].
  (* the gate defaults *)
  destruct (apply_gate_defaults_ok nodetype id offset s1 s2 Hsame12) as (s3 & Hdefaults & Hsame13).
  { apply is_node_spec. exists k, code. split; [congruence|]. split; [|exact Hcode].
    rewrite Hn1, Hnodes_eq. apply list_lookup_insert_eq. lia. }
  { rewrite Ho1. eapply getitem_setitem_eq. exact Hoffsets. }
  { intros -> g Hg. assert (n = 7) by (apply Hn7; subst code; reflexivity). subst n.
    rewrite Ht1, Hmin1, Hmax1, (sized_threshold _ Hws), (sized_min _ Hws), (sized_max _ Hws).
    repeat split; apply Hcells; lia. }
  rewrite Hdefaults. cbn [mbind result_bind].
  exists s3. split; [reflexivity|]. split; [reflexivity|].
  rewrite (same_last_node _ _ Hsame13), (same_last_offset _ _ Hsame13), (same_nodes _ _ Hsame13),
    (same_offsets _ _ Hsame13), (same_elements _ _ Hsame13), Hln1, Hlo1, Hn1, Ho1, He1.
  split; [reflexivity|]. split; [reflexivity|].
  split; [eapply getitem_setitem_eq; exact Hnodes|].
  split; [eapply getitem_setitem_eq; exact Hoffsets|].
  intros j Hj. split; [apply Hfree; exact Hj | apply Howned; exact Hj].
Qed.

Lemma create_node_reregisters_live_uid_witness :
  exists s,
    one_register = Ok s
    /\ exists id s',
         tnode.from_id "n1" = Ok id
         /\ create_node Register "s1" None None (Some "n1") ∅ s = Ok ("n1", s')
         /\ last_allocated_node s' = id
         /\ last_allocated_offset s' = 2
         /\ getitem (allocated_nodes s') id = Ok (get_numerical_node_type Register)
         /\ getitem (allocated_node_offsets s') id = Ok 2
         /\ forall j, 0 <= j < 1 ->
              getitem (allocated_elements_to_nodes s) (2 + j) = Ok 0
              /\ getitem (allocated_elements_to_nodes s') (2 + j) = Ok id.
Proof.
  eexists. split; [vm_compute; reflexivity|].
  apply (create_node_reregisters_live_uid Register "s1" 1 None None "n1" ∅ _ 1 2).
  - vm_compute. reflexivity.
  - split; try (vm_compute; reflexivity).
    + unfold nodespace_activators. repeat (constructor; [vm_compute; reflexivity|]).
      constructor.
    + unfold nodespace_activators.
      repeat (constructor; [repeat (constructor; [eexists; vm_compute; reflexivity|]);
                            constructor|]).
      constructor.
    + intros k off Hk _. exfalso.
      do 5 (destruct k as [|k]; [discriminate Hk|]). discriminate Hk.
  - reflexivity.
  - eexists. vm_compute. reflexivity.
  - intros gate_type Hty. discriminate Hty.
  - reflexivity.
  - vm_compute. reflexivity.
Defined.

(** ** C6: [delete_nodespace] on the Root *)














(** ** C7: what [load] does without a metadata file, and with members missing *)

Lemma load_member_frame {A B : Type} (p : nodenet -> B) (member : option A)
    (assign : A -> nodenet -> nodenet) (name : string) (s : nodenet) :
  (forall v s, p (assign v s) = p s) ->
  (forall m s, p (warn m s) = p s) ->
  p (load_member member assign name s) = p s.
Proof. intros Ha Hw. destruct member; simpl; auto. Qed.

Lemma load_member_none_frame {A B : Type} (p : nodenet -> B)
    (assign : A -> nodenet -> nodenet) (name : string) (s : nodenet) :
  (forall m s, p (warn m s) = p s) ->
  p (load_member None assign name s) = p s.
Proof. intros Hw. simpl. auto. Qed.





(** The field [p] is carried unchanged through the loaders and the
    assignments to other fields around it. *)
Ltac carry p :=
  repeat first
    [ rewrite (load_member_frame p) by (intros; reflexivity)
    | rewrite (load_member_none_frame p) by (intros; reflexivity)
    | match goal with
      | |- context [p (@RecordSettersUsingExistingGetters.set _ _ ?f ?i ?u ?S)] =>
          change (p (@RecordSettersUsingExistingGetters.set _ _ f i u S)) with (p S)
      end
    | match goal with
      | |- context [p (warn ?m ?S)] => change (p (warn m S)) with (p S)
      end ];
  try reflexivity.





Lemma load_sizes_shape (ar : archive) (s s1 : nodenet) :
  load_sizes ar s = Ok s1 ->
  exists non noe log,
    s1 = s <| NoN := non |> <| NoE := noe |> <| warnings := log |>
    /\ (forall msg, msg ∈ warnings s -> msg ∈ log)
    /\ (ar_sizeinformation ar = None ->
        non = NoN s /\ noe = NoE s
        /\ "no sizeinformation in file, falling back to defaults" ∈ log).
Proof.
  unfold load_sizes. destruct (ar_sizeinformation ar) as [sizes|].
  - destruct (getitem sizes 0) as [non|]; [|discriminate].
    destruct (getitem sizes 1) as [noe|]; [|discriminate].
    intros [= <-]. exists non, noe, (warnings s).
    split; [destruct s; reflexivity|]. split; [auto | discriminate].
  - intros [= <-]. eexists (NoN s), (NoE s), _.
    split; [destruct s; reflexivity|]. split.
    + intros msg Hmsg. apply elem_of_app. left. exact Hmsg.
    + intros _. split; [reflexivity|]. split; [reflexivity|].
      apply elem_of_app. right. apply list_elem_of_singleton. reflexivity.
Qed.

Lemma load_weights_shape (ar : archive) (s s1 : nodenet) :
  load_weights ar s = Ok s1 ->
  exists m v log,
    s1 = s <| w := m |> <| a := v |> <| warnings := log |>
    /\ (forall msg, msg ∈ warnings s -> msg ∈ log)
    /\ (ar_w_data ar = None \/ ar_w_indices ar = None \/ ar_w_indptr ar = None ->
        m = w s /\ v = a s
        /\ "no w_data, w_indices or w_indptr in file, falling back to defaults" ∈ log).
Proof.
  unfold load_weights.
  assert (Hwarn : forall msg, Ok (warn msg s) = Ok s1 ->
             exists m v log,
               s1 = s <| w := m |> <| a := v |> <| warnings := log |>
               /\ (forall msg, msg ∈ warnings s -> msg ∈ log)
               /\ (ar_w_data ar = None \/ ar_w_indices ar = None \/ ar_w_indptr ar = None ->
                   m = w s /\ v = a s /\ msg ∈ log)).
  { intros msg [= <-]. eexists (w s), (a s), _.
    split; [destruct s; reflexivity|]. split.
    - intros msg' Hmsg. apply elem_of_app. left. exact Hmsg.
    - intros _. split; [reflexivity|]. split; [reflexivity|].
      apply elem_of_app. right. apply list_elem_of_singleton. reflexivity. }
  destruct (ar_w_data ar) as [data|]; [|apply Hwarn].
  destruct (ar_w_indices ar) as [indices|]; [|apply Hwarn].
  destruct (ar_w_indptr ar) as [indptr|]; [|apply Hwarn].
  destruct (csr_matrix (sparse s) data indices indptr (NoE s)) as [m|]; [|discriminate].
  cbn [mbind result_bind].
  destruct (ar_a ar) as [v|]; [|discriminate].
  intros [= <-]. exists m, v, (warnings s).
  split; [destruct s; reflexivity|]. split; [auto|].
  intros [H | [H | H]]; discriminate.
Qed.







(** ** The log storage over many records, and [get_logs] *)

Lemma emit_drop (record : LogRecord) (storage : list dictrecord) :
  emit record storage
  = (drop (length storage - (MAX_RECORDS_PER_STORAGE - 1)) storage ++ [dictrecord_of record])%list.
Proof. unfold emit. rewrite trim_drop. reflexivity. Qed.

(** X1 ([emit], over time).  A storage that is within the bound holds,
    after any number of [emit] calls, the last [MAX_RECORDS_PER_STORAGE] of
    the records it held and was given, in the order they came in. *)
Theorem emit_all_keeps_latest (records : list LogRecord) (storage : list dictrecord) :
  (length storage <= MAX_RECORDS_PER_STORAGE)%nat ->
  let all := (storage ++ (dictrecord_of <$> records))%list in
  emit_all records storage = drop (length all - MAX_RECORDS_PER_STORAGE) all
  /\ (length (emit_all records storage) <= MAX_RECORDS_PER_STORAGE)%nat.
Proof.
  assert (HM : (1 <= MAX_RECORDS_PER_STORAGE)%nat) by (unfold MAX_RECORDS_PER_STORAGE; lia).
  revert storage. induction records as [|r rs IH]; intros storage Hlen all; subst all.
  - rewrite fmap_nil, app_nil_r. split; [|exact Hlen].
    replace (length storage - MAX_RECORDS_PER_STORAGE)%nat with 0%nat by lia. reflexivity.
  - change (emit_all (r :: rs) storage) with (emit_all rs (emit r storage)).
    rewrite emit_drop.
    set (k := (length storage - (MAX_RECORDS_PER_STORAGE - 1))%nat).
    set (st1 := (drop k storage ++ [dictrecord_of r])%list).
    assert (Hlen1 : length st1 = (length storage - k + 1)%nat).
    { unfold st1. rewrite length_app, length_drop. reflexivity. }
    destruct (IH st1) as [IH1 IH2]; [unfold k in *; lia|].
    split; [|exact IH2]. rewrite IH1.
    rewrite fmap_cons.
    assert (Hshift : (st1 ++ (dictrecord_of <$> rs))%list
                     = drop k (storage ++ dictrecord_of r :: (dictrecord_of <$> rs))).
    { unfold st1. rewrite drop_app_le by (unfold k; lia).
      rewrite <- app_assoc. reflexivity. }
    rewrite Hshift, drop_drop. f_equal.
    rewrite length_drop, !length_app, length_cons. unfold k. lia.
Qed.

Lemma emit_all_keeps_latest_witness :
  emit_all [{| name := "system"; created := 1; levelname := "INFO"; message := "a" |};
            {| name := "system"; created := 2; levelname := "INFO"; message := "b" |}] []
  = [{| logger := "system"; time := (1 * 1000)%Q; level := "INFO"; msg := "a" |};
     {| logger := "system"; time := (2 * 1000)%Q; level := "INFO"; msg := "b" |}].
Proof.
  destruct (emit_all_keeps_latest
              [{| name := "system"; created := 1; levelname := "INFO"; message := "a" |};
               {| name := "system"; created := 2; levelname := "INFO"; message := "b" |}] [])
    as [H _]; [simpl; unfold MAX_RECORDS_PER_STORAGE; lia|].
  rewrite H. reflexivity.
Defined.

Lemma insert_by_time_perm (l : dictrecord) (logs : list dictrecord) :
  Permutation (insert_by_time l logs) (l :: logs).
Proof.
  induction logs as [|l' rest IH]; simpl; [reflexivity|].
  destruct (Qle_bool (time l) (time l')); [reflexivity|].
  rewrite IH. apply perm_swap.
Qed.

Lemma sorted_by_time_perm (logs : list dictrecord) :
  Permutation (sorted_by_time logs) logs.
Proof.
  induction logs as [|l rest IH]; simpl; [reflexivity|].
  rewrite insert_by_time_perm, IH. reflexivity.
Qed.

Lemma insert_by_time_sorted (l : dictrecord) (logs : list dictrecord) :
  StronglySorted (fun l1 l2 => (time l1 <= time l2)%Q) logs ->
  StronglySorted (fun l1 l2 => (time l1 <= time l2)%Q) (insert_by_time l logs).
Proof.
  induction 1 as [|l' rest Hsorted IH Hall]; simpl.
  - constructor; [constructor | constructor].
  - destruct (Qle_bool (time l) (time l')) eqn:E.
    + apply Qle_bool_iff in E. constructor.
      * constructor; assumption.
      * constructor; [exact E|].
        eapply Forall_impl; [exact Hall|]. intros l2 H2. simpl in H2.
        eapply Qle_trans; eassumption.
    + assert (Hlt : (time l' <= time l)%Q).
      { destruct (Qlt_le_dec (time l') (time l)) as [H|H]; [apply Qlt_le_weak; exact H|].
        apply Qle_bool_iff in H. congruence. }
      constructor; [exact IH|].
      rewrite insert_by_time_perm. constructor; assumption.
Qed.

Lemma sorted_by_time_sorted (logs : list dictrecord) :
  StronglySorted (fun l1 l2 => (time l1 <= time l2)%Q) (sorted_by_time logs).
Proof.
  induction logs as [|l rest IH]; simpl; [constructor|].
  apply insert_by_time_sorted. exact IH.
Qed.

Lemma filter_strongly_sorted {A : Type} (R : A -> A -> Prop) (keep : A -> bool) (l : list A) :
  StronglySorted R l -> StronglySorted R (List.filter keep l).
Proof.
  induction 1 as [|x rest Hsorted IH Hall]; simpl; [constructor|].
  destruct (keep x); [|exact IH].
  constructor; [exact IH|].
  apply List.Forall_forall. intros y Hy. apply List.filter_In in Hy as [Hy _].
  eapply List.Forall_forall in Hall; eassumption.
Qed.

Lemma filter_perm {A : Type} (keep : A -> bool) (l l' : list A) :
  Permutation l l' -> Permutation (List.filter keep l) (List.filter keep l').
Proof.
  induction 1 as [|x l l' _ IH|x y l|l l' l'' _ IH1 _ IH2]; simpl.
  - reflexivity.
  - destruct (keep x); [constructor|]; exact IH.
  - destruct (keep x), (keep y); try reflexivity. apply perm_swap.
  - etransitivity; eassumption.
Qed.

Lemma filter_all {A : Type} (l : list A) : List.filter (fun _ => true) l = l.
Proof. induction l as [|x l IH]; simpl; congruence. Qed.

(** X2 ([get_logs]).  The logs returned are the records of the storages
    named in [logger], each as often as it is stored, without those earlier
    than [after] when [after] is positive, and in ascending order of time;
    the server time is the clock's reading. *)
Theorem get_logs_sorted_selection (self : MicropsiLogger) (loggers : list string)
    (after : Q) (now : Z) :
  let keep := fun l => Qle_bool after 0 || Qle_bool after (time l) in
  fst (get_logs self loggers after now) = now
  /\ StronglySorted (fun l1 l2 => (time l1 <= time l2)%Q)
       (snd (get_logs self loggers after now))
  /\ Permutation (snd (get_logs self loggers after now))
       (List.filter keep (selected_logs self loggers)).
Proof.
  intros keep. unfold get_logs. cbn [fst snd].
  match goal with
  | |- context [sorted_by_time ?logs] =>
      replace logs with (selected_logs self loggers)
  end.
  2:{ unfold selected_logs.
      repeat case_bool_decide; rewrite ?app_nil_l, ?app_nil_r, <- ?app_assoc; reflexivity. }
  split; [reflexivity|]. subst keep.
  destruct (Qle_bool after 0); cbn [orb].
  - split; [apply sorted_by_time_sorted|].
    rewrite filter_all. apply sorted_by_time_perm.
  - split; [apply filter_strongly_sorted, sorted_by_time_sorted|].
    apply filter_perm, sorted_by_time_perm.
Qed.

(** ** The element scan finds room whenever there is room *)

Lemma count_free_seqZ (elements : list Z) (i : Z) (m : nat) :
  forall a, 0 <= i + a ->
    exists c, count_free elements i (seqZ a (Z.of_nat m)) = Ok c
      /\ 0 <= c <= Z.of_nat m
      /\ (forall j, 0 <= j < c -> getitem elements (i + a + j) = Ok 0)
      /\ (c < Z.of_nat m -> getitem elements (i + a + c) ≠ Ok 0).
Proof.
  induction m as [|m IH]; intros a Ha.
  - exists 0. simpl. split; [reflexivity|]. split; [lia|]. split; intros; lia.
  - rewrite seqZ_cons by lia.
    replace (Z.pred (Z.of_nat (S m))) with (Z.of_nat m) by lia.
    cbn [count_free].
    destruct (Z.ltb_spec (i + a) (Z.of_nat (length elements))) as [Hin|Hout].
    + destruct (getitem_in_range elements (i + a)) as (v & Hv & _); [lia|].
      rewrite Hv. cbn [mbind result_bind].
      destruct (Z.eqb_spec v 0) as [->|Hv0].
      * destruct (IH (Z.succ a)) as (c & Hc & Hbound & Hfree & Hblocked); [lia|].
        rewrite Hc. cbn [mbind result_bind]. exists (1 + c).
        split; [reflexivity|]. split; [lia|]. split.
        -- intros j Hj. destruct (decide (j = 0)) as [->|Hj0].
           ++ rewrite Z.add_0_r. exact Hv.
           ++ replace (i + a + j) with (i + Z.succ a + (j - 1)) by lia.
              apply Hfree. lia.
        -- intros Hlt. replace (i + a + (1 + c)) with (i + Z.succ a + c) by lia.
           apply Hblocked. lia.
      * exists 0. split; [reflexivity|]. split; [lia|]. split; [intros; lia|].
        intros _. rewrite Z.add_0_r, Hv. congruence.
    + exists 0. split; [reflexivity|]. split; [lia|]. split; [intros; lia|].
      intros _. rewrite Z.add_0_r. intros Hget.
      apply getitem_nonneg in Hget as [Hlt _]; lia.
Qed.

Lemma count_free_range (elements : list Z) (i n : Z) :
  0 <= i -> 0 <= n ->
  exists c, count_free elements i (range 0 n) = Ok c
    /\ 0 <= c <= n
    /\ (forall j, 0 <= j < c -> getitem elements (i + j) = Ok 0)
    /\ (c < n -> getitem elements (i + c) ≠ Ok 0).
Proof.
  intros Hi Hn. unfold range. rewrite Z.sub_0_r.
  destruct (count_free_seqZ elements i (Z.to_nat n) 0) as (c & Hc & Hb & Hfree & Hblocked);
    [lia|].
  rewrite Z2Nat.id in * by lia. exists c. split; [exact Hc|]. split; [exact Hb|].
  split.
  - intros j Hj. specialize (Hfree j Hj). rewrite Z.add_0_r in Hfree. exact Hfree.
  - intros Hlt. specialize (Hblocked Hlt). rewrite Z.add_0_r in Hblocked. exact Hblocked.
Qed.

(** What the loop returns is the start of a free run, and it raises nothing
    but [MemoryError]. *)
Lemma find_offset_loop_sound (fuel : nat) (elements : list Z) (n noe : Z) :
  0 <= n ->
  forall (i : Z) (restarted : bool), 0 <= i ->
    match find_offset_loop fuel elements n noe i restarted with
    | Ok offset => free_run elements offset n
    | Raise e => e = MemoryError
    end.
Proof.
  intros Hn. induction fuel as [|fuel IH]; intros i restarted Hi; [reflexivity|].
  cbn [find_offset_loop].
  destruct (count_free_range elements i n Hi Hn) as (c & Hc & Hb & Hfree & _).
  rewrite Hc. cbn [mbind result_bind].
  destruct (Z.leb_spec n c).
  - split; [exact Hi|]. intros j Hj. apply Hfree. lia.
  - destruct (noe <=? i + c + 1).
    + destruct restarted; [reflexivity|]. apply IH. lia.
    + apply IH. lia.
Qed.

(** With a free run ahead of the scan (after the restart) or anywhere below
    [noe] (before it), the loop returns. *)
Lemma find_offset_loop_complete (fuel : nat) (elements : list Z) (n noe : Z) :
  0 <= n ->
  forall (i : Z) (restarted : bool),
    0 <= i ->
    (rounds_left noe i restarted <= fuel)%nat ->
    (exists p, (if restarted then i else 0) <= p < noe /\ free_run elements p n) ->
    is_ok (find_offset_loop fuel elements n noe i restarted) = true.
Proof.
  intros Hn. induction fuel as [|fuel IH]; intros i restarted Hi Hfuel Hroom.
  - unfold rounds_left in Hfuel. destruct restarted; lia.
  - cbn [find_offset_loop].
    destruct (count_free_range elements i n Hi Hn) as (c & Hc & Hb & _ & Hblocked).
    rewrite Hc. cbn [mbind result_bind].
    destruct (Z.leb_spec n c); [reflexivity|].
    specialize (Hblocked ltac:(lia)).
    (* a free run does not start on the cells the scan steps over *)
    assert (Hskip : forall p, i <= p -> free_run elements p n -> i + c + 1 <= p).
    { intros p Hp [_ Hrun].
      destruct (Z.le_gt_cases (i + c + 1) p) as [|Hlt]; [assumption|].
      exfalso. apply Hblocked.
      replace (i + c) with (p + (i + c - p)) by lia. apply Hrun. lia. }
    destruct Hroom as (p & Hp & Hrun).
    destruct (Z.leb_spec noe (i + c + 1)) as [Hend|Hmore].
    + destruct restarted.
      * specialize (Hskip p ltac:(lia) Hrun). lia.
      * apply IH; [lia | unfold rounds_left in *; lia |].
        exists p. split; [lia | exact Hrun].
    + apply IH; [lia | unfold rounds_left in *; destruct restarted; lia |].
      destruct restarted.
      * exists p. split; [|exact Hrun]. specialize (Hskip p ltac:(lia) Hrun). lia.
      * exists p. split; [lia | exact Hrun].
Qed.

(** X3 (the element scan of [create_node]).  With a cursor that is not
    below -1, the scan returns the start of a run of free cells inside the
    vector whenever such a run starts below [NoE], wherever the cursor is;
    what it returns is always such a run; and when no run exists it raises
    [MemoryError]. *)
Theorem find_offset_finds_room (elements : list Z) (n noe last : Z) :
  0 <= n -> -1 <= last ->
  ((exists p, p < noe /\ free_run elements p n) ->
   exists offset, find_offset elements n noe last = Ok offset)
  /\ (forall offset, find_offset elements n noe last = Ok offset ->
                     free_run elements offset n)
  /\ ((forall p, ~ free_run elements p n) ->
      find_offset elements n noe last = Raise MemoryError).
Proof.
  intros Hn Hlast. unfold find_offset.
  pose proof (find_offset_loop_sound (find_offset_fuel noe (last + 1)) elements n noe Hn
                (last + 1) false ltac:(lia)) as Hsound.
  split; [|split].
  - intros (p & Hp & Hrun).
    pose proof (find_offset_loop_complete (find_offset_fuel noe (last + 1)) elements n noe Hn
                  (last + 1) false ltac:(lia)) as Hcomplete.
    destruct (find_offset_loop _ elements n noe (last + 1) false) as [offset|]; [eauto|].
    discriminate Hcomplete.
    + unfold rounds_left, find_offset_fuel. lia.
    + exists p. split; [destruct Hrun; lia | exact Hrun].
  - intros offset H. rewrite H in Hsound. exact Hsound.
  - intros Hnone.
    destruct (find_offset_loop _ elements n noe (last + 1) false) as [offset|e].
    + destruct (Hnone offset Hsound).
    + rewrite Hsound. reflexivity.
Qed.

Lemma find_offset_finds_room_witness :
  exists offset,
    find_offset [0; 1; 1; 0; 0; 1] 2 6 4 = Ok offset
    /\ free_run [0; 1; 1; 0; 0; 1] offset 2.
Proof.
  destruct (find_offset_finds_room [0; 1; 1; 0; 0; 1] 2 6 4)
    as (Hfinds & Hsound & _); [lia | lia |].
  destruct Hfinds as [offset H].
  - exists 3. split; [lia|]. split; [lia|].
    intros j Hj. assert (j = 0 \/ j = 1) as [-> | ->] by lia; reflexivity.
  - exists offset. split; [exact H | apply Hsound; exact H].
Defined.

(** ** What a call that returned has done: the phases of [create_node] *)

Lemma to_id_inj (i j : Z) : tnode.to_id i = tnode.to_id j -> i = j.
Proof. unfold tnode.to_id. intros [= H]. apply str_inj. exact H. Qed.

(** The lengths of the vectors that were assigned to. *)
Ltac lengths :=
  repeat match goal with
         | E : setitem _ _ _ = Ok _ |- _ => apply setitem_length in E
         end.

Lemma same_registration_trans (s1 s2 s3 : nodenet) :
  same_registration s1 s2 -> same_registration s2 s3 -> same_registration s1 s3.
Proof. intros [] []. constructor; congruence. Qed.

Lemma set_gate_parameter_registration (id : Z) (gate parameter : string) (value : Q)
    (s s' : nodenet) :
  set_gate_parameter id gate parameter value s = Ok s' -> same_registration s s'.
Proof.
  unfold set_gate_parameter. intros H. repeat returned H.
  all: try (subst s'; apply same_registration_refl).
  all: lengths; subst s'; constructor; fields.
Qed.

Lemma apply_gate_defaults_registration (nodetype : nodetype) (id : Z) (uid : string)
    (s s' : nodenet) :
  apply_gate_defaults nodetype id uid s = Ok s' -> same_registration s s'.
Proof.
  unfold apply_gate_defaults.
  apply for_each_invariant;
    [apply same_registration_refl | apply same_registration_trans |].
  intros [gate params] t t' _.
  apply for_each_invariant;
    [apply same_registration_refl | apply same_registration_trans |].
  intros [parameter value] u u' _ H.
  destruct (is_node u uid); [|discriminate].
  eapply set_gate_parameter_registration. exact H.
Qed.

Lemma set_nodespace_gatetype_activator_registration (nodespace_uid gate_type : string)
    (activator_uid : option string) (s s' : nodenet) :
  set_nodespace_gatetype_activator nodespace_uid gate_type activator_uid s = Ok s' ->
  same_registration s s'.
Proof.
  unfold set_nodespace_gatetype_activator. intros H.
  destruct (match activator_uid with
            | Some u => if bool_decide (u ≠ "") then tnode.from_id u else Ok 0
            | None => Ok 0
            end) as [activator_id|]; [|discriminate].
  cbn [mbind result_bind] in H.
  destruct (tnodespace.from_id nodespace_uid) as [nodespace_id|]; [|discriminate].
  cbn [mbind result_bind] in H.
  match type of H with
  | mbind _ ?m = _ => destruct m as [s1|] eqn:E1; [|discriminate]
  end.
  cbn [mbind result_bind] in H.
  apply same_registration_trans with s1.
  - repeat case_decide; repeat returned E1; subst s1;
      first [apply same_registration_refl | constructor; reflexivity].
  - revert H. apply for_each_invariant;
      [apply same_registration_refl | apply same_registration_trans |].
    intros nid t t' _ H. repeat returned H.
    + lengths. subst t'. constructor; fields.
    + subst t'. apply same_registration_refl.
Qed.

Lemma setup_nodetype_registration (nodetype : nodetype) (nodespace_uid : string) (id : Z)
    (uid : string) (offset : Z) (parameters : gmap string string) (s s' : nodenet) :
  setup_nodetype nodetype nodespace_uid id uid offset parameters s = Ok s' ->
  same_registration s s'.
Proof.
  unfold setup_nodetype. intros H. destruct nodetype.
  - injection H as <-. apply same_registration_refl.
  - destruct (parameters !! "datasource"); injection H as <-;
      constructor; reflexivity.
  - destruct (parameters !! "datatarget"); injection H as <-;
      constructor; reflexivity.
  - match type of H with
    | mbind _ ?m = _ => destruct m as [s1|] eqn:E1; [|discriminate]
    end.
    cbn [mbind result_bind] in H.
    apply same_registration_trans with s1.
    + revert E1. apply for_each_invariant;
        [apply same_registration_refl | apply same_registration_trans |].
      intros [g f] t t' _ Hstep. repeat returned Hstep.
      lengths. subst t'. constructor; fields.
    + revert H. apply for_each_invariant;
        [apply same_registration_refl | apply same_registration_trans |].
      intros [g activators] t t' _ Hstep. repeat returned Hstep.
      lengths. subst t'. constructor; fields.
  - destruct (parameters !! "type") as [activator_type|].
    + destruct (bool_decide (activator_type ≠ "")).
      * eapply set_nodespace_gatetype_activator_registration. exact H.
      * injection H as <-. apply same_registration_refl.
    + injection H as <-. apply same_registration_refl.
Qed.

(** ** The id scan *)

Lemma first_free_found (arr : list Z) (idxs : list Z) (i : Z) :
  first_free arr idxs = Ok (Some i) -> i ∈ idxs /\ getitem arr i = Ok 0.
Proof.
  induction idxs as [|j idxs IH]; intros H; simpl in H; [discriminate|].
  destruct (getitem arr j) as [v|] eqn:Ev; [|discriminate]. simpl in H.
  destruct (Z.eqb_spec v 0) as [->|].
  - injection H as <-. split; [left | exact Ev].
  - destruct (IH H) as [Hin Hfree]. split; [right; exact Hin | exact Hfree].
Qed.

(** Where every cell but cell 0 is taken, a scan stops at 0 or nowhere. *)
Lemma first_free_taken (arr : list Z) (idxs : list Z) :
  (forall i, i ∈ idxs -> 0 <= i < Z.of_nat (length arr)) ->
  (forall i, i ∈ idxs -> 1 <= i -> getitem arr i ≠ Ok 0) ->
  first_free arr idxs = Ok None \/ first_free arr idxs = Ok (Some 0).
Proof.
  induction idxs as [|j idxs IH]; intros Hrange Htaken; [left; reflexivity|].
  simpl. destruct (getitem_in_range arr j) as (v & Hv & _); [apply Hrange; left|].
  rewrite Hv. simpl. destruct (Z.eqb_spec v 0) as [->|].
  - right. destruct (decide (j = 0)) as [->|Hj]; [reflexivity|].
    destruct (Htaken j); [left | specialize (Hrange j ltac:(left)); lia | exact Hv].
  - apply IH; intros i Hi; [apply Hrange | apply Htaken]; right; exact Hi.
Qed.

Lemma find_free_id_found (arr : list Z) (last capacity id : Z) :
  find_free_id arr last capacity = Ok id ->
  1 <= id /\ getitem arr id = Ok 0
  /\ (last < id < capacity \/ id < last - 1).
Proof.
  unfold find_free_id. intros H.
  destruct (first_free arr (range (last + 1) capacity)) as [r1|] eqn:E1; [|discriminate].
  cbn [mbind result_bind] in H.
  assert (Hr1 : forall i, r1 = Some i ->
                  getitem arr i = Ok 0 /\ last < i < capacity).
  { intros i ->. apply first_free_found in E1 as [Hin Hfree]. split; [exact Hfree|].
    unfold range in Hin. apply elem_of_seqZ in Hin. lia. }
  destruct (Z.ltb_spec (default 0 r1) 1) as [Hlow|Hhigh].
  - destruct (first_free arr (range 0 (last - 1))) as [r2|] eqn:E2; [|discriminate].
    cbn [mbind result_bind] in H.
    destruct (Z.ltb_spec (default (default 0 r1) r2) 1) as [|Hid]; [discriminate|].
    injection H as <-. destruct r2 as [i|]; simpl in *; [|lia].
    apply first_free_found in E2 as [Hin Hfree]. unfold range in Hin.
    apply elem_of_seqZ in Hin. split; [lia|]. split; [exact Hfree | right; lia].
  - cbn [mbind result_bind] in H.
    destruct (Z.ltb_spec (default 0 r1) 1); [lia|]. injection H as <-.
    destruct r1 as [i|]; simpl in *; [|lia].
    destruct (Hr1 i eq_refl) as [Hfree Hi]. split; [lia|]. split; [exact Hfree | left; exact Hi].
Qed.

Lemma find_free_id_full (arr : list Z) (last capacity : Z) :
  Z.of_nat (length arr) = capacity -> -1 <= last < capacity ->
  (forall i, 1 <= i < capacity -> getitem arr i ≠ Ok 0) ->
  find_free_id arr last capacity = Raise MemoryError.
Proof.
  intros Hlen Hlast Htaken. unfold find_free_id.
  assert (H1 : first_free arr (range (last + 1) capacity) = Ok None
               \/ first_free arr (range (last + 1) capacity) = Ok (Some 0)).
  { apply first_free_taken; intros i Hi; unfold range in Hi; apply elem_of_seqZ in Hi;
      [lia | intros; apply Htaken; lia]. }
  assert (H2 : first_free arr (range 0 (last - 1)) = Ok None
               \/ first_free arr (range 0 (last - 1)) = Ok (Some 0)).
  { apply first_free_taken; intros i Hi; unfold range in Hi; apply elem_of_seqZ in Hi;
      [lia | intros; apply Htaken; lia]. }
  destruct H1 as [-> | ->], H2 as [-> | ->]; reflexivity.
Qed.

(** ** [create_node], when it has returned *)

Lemma register_node_returned (id code : Z) (nodespace_uid : string) (offset : Z)
    (s s' : nodenet) :
  register_node id code nodespace_uid offset s = Ok s' ->
  exists nodespace_id,
    tnodespace.from_id nodespace_uid = Ok nodespace_id
    /\ setitem (allocated_nodes s) id code = Ok (allocated_nodes s')
    /\ setitem (allocated_node_parents s) id nodespace_id = Ok (allocated_node_parents s')
    /\ setitem (allocated_node_offsets s) id offset = Ok (allocated_node_offsets s')
    /\ last_allocated_node s' = id
    /\ last_allocated_offset s' = offset.
Proof.
  unfold register_node. intros H.
  cbn in H. unfold RecordSettersUsingExistingGetters.const in H.
  destruct (setitem (allocated_nodes s) id code) as [nodes'|] eqn:En; [|discriminate].
  cbn in H.
  destruct (tnodespace.from_id nodespace_uid) as [nodespace_id|] eqn:Ens; [|discriminate].
  cbn in H.
  destruct (setitem (allocated_node_parents s) id nodespace_id) as [parents'|] eqn:Ep;
    [|discriminate].
  cbn in H.
  destruct (setitem (allocated_node_offsets s) id offset) as [offsets'|] eqn:Eo;
    [|discriminate].
  cbn in H. unfold RecordSettersUsingExistingGetters.const in H.
  destruct (getitem nodes' id) as [t|]; [|discriminate]. cbn in H.
  destruct (get_elements_per_type t) as [count|]; [|discriminate]. cbn in H.
  exists nodespace_id. split; [reflexivity|].
  revert H.
  match goal with
  | |- for_each ?body ?xs ?s1 = Ok s' -> _ =>
      intros H;
      assert (Hkept : allocated_nodes s' = allocated_nodes s1
                      /\ allocated_node_parents s' = allocated_node_parents s1
                      /\ allocated_node_offsets s' = allocated_node_offsets s1
                      /\ last_allocated_node s' = last_allocated_node s1
                      /\ last_allocated_offset s' = last_allocated_offset s1)
  end.
  { revert H.
    apply (for_each_invariant
             (fun t t' => allocated_nodes t' = allocated_nodes t
                          /\ allocated_node_parents t' = allocated_node_parents t
                          /\ allocated_node_offsets t' = allocated_node_offsets t
                          /\ last_allocated_node t' = last_allocated_node t
                          /\ last_allocated_offset t' = last_allocated_offset t)).
    - intros u. repeat split.
    - intros u1 u2 u3 (? & ? & ? & ? & ?) (? & ? & ? & ? & ?). repeat split; congruence.
    - intros element u u' _ Hstep. repeat returned Hstep. subst u'. repeat split. }
  destruct Hkept as (-> & -> & -> & -> & ->).
  repeat split; cbn; unfold RecordSettersUsingExistingGetters.const;
    first [assumption | reflexivity].
Qed.

(** What every returned [create_node] has done to the registration of the id. *)
Lemma create_node_returned (nodetype : nodetype) (nodespace_uid : string)
    (position : option (list Z)) (name : option string) (uid : option string)
    (parameters : gmap string string) (s s' : nodenet) (u : string) :
  create_node nodetype nodespace_uid position name uid parameters s = Ok (u, s') ->
  exists id n offset nodespace_id,
    match uid with
    | None => find_free_id (allocated_nodes s) (last_allocated_node s) (NoN s)
    | Some given => tnode.from_id given
    end = Ok id
    /\ u = tnode.to_id id
    /\ get_elements_per_type (get_numerical_node_type nodetype) = Ok n
    /\ find_offset (allocated_elements_to_nodes s) n (NoE s) (last_allocated_offset s)
       = Ok offset
    /\ tnodespace.from_id nodespace_uid = Ok nodespace_id
    /\ setitem (allocated_nodes s) id (get_numerical_node_type nodetype)
       = Ok (allocated_nodes s')
    /\ setitem (allocated_node_parents s) id nodespace_id = Ok (allocated_node_parents s')
    /\ setitem (allocated_node_offsets s) id offset = Ok (allocated_node_offsets s')
    /\ last_allocated_node s' = id
    /\ last_allocated_offset s' = offset.
Proof.
  unfold create_node. intros H.
  destruct (match uid with
            | None => find_free_id (allocated_nodes s) (last_allocated_node s) (NoN s)
            | Some given => tnode.from_id given
            end) as [id|] eqn:Eid; [|discriminate].
  cbn [mbind result_bind] in H.
  destruct (get_elements_per_type (get_numerical_node_type nodetype)) as [n|] eqn:En;
    [|discriminate].
  cbn [mbind result_bind] in H.
  destruct (find_offset (allocated_elements_to_nodes s) n (NoE s) (last_allocated_offset s))
    as [offset|] eqn:Eoff; [|discriminate].
  cbn [mbind result_bind] in H.
  destruct (register_node id (get_numerical_node_type nodetype) nodespace_uid offset s)
    as [s1|] eqn:Ereg; [|discriminate].
  cbn [mbind result_bind] in H.
  apply register_node_returned in Ereg
    as (nodespace_id & Hns & Hnodes & Hparents & Hoffsets & Hlast & Hlastoff).
  match type of H with
  | mbind _ (setup_nodetype _ _ _ _ _ _ ?x) = _ =>
      assert (Hnamed : same_registration s1 x)
        by (destruct name as [nm|], position as [p|];
            try destruct (bool_decide (nm ≠ "") && bool_decide (nm ≠ tnode.to_id id));
            constructor; reflexivity);
      destruct (setup_nodetype nodetype nodespace_uid id (tnode.to_id id) offset parameters x)
        as [s2|] eqn:Esetup; [|discriminate]
  end.
  cbn [mbind result_bind] in H.
  destruct (apply_gate_defaults nodetype id (tnode.to_id id) s2) as [s3|] eqn:Edef;
    [|discriminate].
  cbn [mbind result_bind] in H. injection H as <- <-.
  apply setup_nodetype_registration in Esetup.
  apply apply_gate_defaults_registration in Edef.
  pose proof (same_registration_trans _ _ _ Hnamed
                (same_registration_trans _ _ _ Esetup Edef)) as Hsame.
  exists id, n, offset, nodespace_id.
  rewrite (same_nodes _ _ Hsame), (same_node_parents _ _ Hsame), (same_offsets _ _ Hsame),
    (same_last_node _ _ Hsame), (same_last_offset _ _ Hsame).
  repeat split; assumption.
Qed.

(** X4 ([create_node] without a uid).  A call that returns has taken an id
    that is at least 1 and was free: the uid it returns named no node before
    the call and names a node of the requested type after it, and the cursor
    points to it. *)
Theorem create_node_returns_fresh_uid (nodetype : nodetype) (nodespace_uid : string)
    (position : option (list Z)) (name : option string)
    (parameters : gmap string string) (s s' : nodenet) (uid : string) :
  create_node nodetype nodespace_uid position name None parameters s = Ok (uid, s') ->
  exists id,
    uid = tnode.to_id id
    /\ 1 <= id
    /\ getitem (allocated_nodes s) id = Ok 0
    /\ is_node s uid = false
    /\ is_node s' uid = true
    /\ getitem (allocated_nodes s') id = Ok (get_numerical_node_type nodetype)
    /\ last_allocated_node s' = id.
Proof.
  intros H. apply create_node_returned in H
    as (id & n & offset & nodespace_id & Hid & -> & _ & _ & _ & Hnodes & _ & _ & Hlast & _).
  apply find_free_id_found in Hid as (Hpos & Hfree & _).
  pose proof (getitem_setitem_eq _ _ _ _ Hnodes) as Hcode.
  exists id. repeat split; try assumption.
  - apply not_true_is_false. intros Hlive.
    apply is_node_spec in Hlive as (k & t & Heq & Hk & Ht).
    assert (id = Z.of_nat k) as ->.
    { unfold tnode.to_id in Heq. injection Heq as Heq. apply str_inj. exact Heq. }
    apply getitem_nonneg in Hfree as [_ Hfree]; [|lia].
    rewrite Nat2Z.id in Hfree. congruence.
  - apply is_node_spec. exists (Z.to_nat id), (get_numerical_node_type nodetype).
    rewrite Z2Nat.id by lia. split; [reflexivity|].
    apply getitem_nonneg in Hcode as [_ Hcode]; [|lia].
    split; [exact Hcode | destruct nodetype; discriminate].
Qed.

Lemma create_node_returns_fresh_uid_witness :
  new_nodenet 5 20 3 true = Ok bare_net
  /\ exists s',
       create_node Pipe "s1" None None None ∅ bare_net = Ok ("n1", s')
       /\ is_node bare_net "n1" = false
       /\ is_node s' "n1" = true.
Proof.
  split; [vm_compute; reflexivity|].
  exists (state_of (snd <$> create_node Pipe "s1" None None None ∅ bare_net)).
  destruct (create_node_returns_fresh_uid Pipe "s1" None None ∅ bare_net
              (state_of (snd <$> create_node Pipe "s1" None None None ∅ bare_net)) "n1")
    as (id & _ & _ & _ & Hbefore & Hafter & _); [vm_compute; reflexivity|].
  split; [vm_compute; reflexivity|]. split; [exact Hbefore | exact Hafter].
Defined.

(** X5 ([create_node] without a uid, full arena).  When every id from 1 on
    holds a node, the call raises [MemoryError], whatever the type asked for
    and wherever the cursor is. *)
Theorem create_node_full_arena (nodetype : nodetype) (nodespace_uid : string)
    (position : option (list Z)) (name : option string)
    (parameters : gmap string string) (s : nodenet) :
  Z.of_nat (length (allocated_nodes s)) = NoN s ->
  -1 <= last_allocated_node s < NoN s ->
  (forall id, 1 <= id < NoN s -> getitem (allocated_nodes s) id ≠ Ok 0) ->
  create_node nodetype nodespace_uid position name None parameters s = Raise MemoryError.
Proof.
  intros Hlen Hlast Hfull. unfold create_node.
  rewrite (find_free_id_full _ _ _ Hlen Hlast Hfull). reflexivity.
Qed.

Lemma create_node_full_arena_witness :
  full_node_arena = Ok full_arena_net
  /\ NoN full_arena_net = 3
  /\ create_node Pipe "s1" None None None ∅ full_arena_net = Raise MemoryError.
Proof.
  split; [vm_compute; reflexivity|]. split; [reflexivity|].
  apply create_node_full_arena.
  - reflexivity.
  - cbn. lia.
  - intros id Hid. cbn in Hid.
    assert (id = 1 \/ id = 2) as [-> | ->] by lia; vm_compute; discriminate.
Defined.

(** ** The elements a created node takes *)

Lemma setitem_returned_nonneg {A : Type} (l l' : list A) (i : Z) (x : A) :
  0 <= i -> setitem l i x = Ok l' ->
  i < Z.of_nat (length l) /\ l' = <[Z.to_nat i := x]> l.
Proof.
  intros Hi H.
  destruct (Z.lt_ge_cases i (Z.of_nat (length l))) as [Hlt|Hge].
  - rewrite setitem_nonneg in H by lia. injection H as <-. split; [exact Hlt | reflexivity].
  - unfold setitem, np_index in H.
    replace ((0 <=? i) && (i <? Z.of_nat (length l))) with false in H
      by (symmetry; apply andb_false_iff; right; apply Z.ltb_ge; lia).
    replace ((- Z.of_nat (length l) <=? i) && (i <? 0)) with false in H
      by (symmetry; apply andb_false_iff; right; apply Z.ltb_ge; lia).
    discriminate H.
Qed.

(** The loop of [create_node] that hands the run to the node, when it has
    returned. *)
Lemma handing_over_loop (id offset : Z) (js : list Z) :
  forall s s' : nodenet,
    (forall j, j ∈ js -> 0 <= offset + j) ->
    for_each (fun element s =>
                arr ← setitem (allocated_elements_to_nodes s) (offset + element) id;
                Ok (s <| allocated_elements_to_nodes := arr |>)) js s = Ok s' ->
    length (allocated_elements_to_nodes s') = length (allocated_elements_to_nodes s)
    /\ (forall j, j ∈ js -> getitem (allocated_elements_to_nodes s') (offset + j) = Ok id)
    /\ (forall e : nat, (forall j, j ∈ js -> Z.of_nat e ≠ offset + j) ->
          allocated_elements_to_nodes s' !! e = allocated_elements_to_nodes s !! e).
Proof.
  induction js as [|j js IH]; intros s s' Hpos H; simpl in H.
  - injection H as <-. split; [reflexivity|]. split; [|reflexivity].
    intros j Hj. inversion Hj.
  - destruct (setitem (allocated_elements_to_nodes s) (offset + j) id) as [arr|] eqn:E;
      [|discriminate].
    cbn [mbind result_bind] in H.
    apply IH in H as (Hlen & Hdone & Hframe);
      [|intros j' Hj'; apply Hpos; right; exact Hj'].
    cbn in Hlen, Hframe. unfold RecordSettersUsingExistingGetters.const in Hlen, Hframe.
    pose proof (setitem_length _ _ _ _ E) as Hlen1.
    assert (Hj0 : 0 <= offset + j) by (apply Hpos; left).
    destruct (setitem_returned_nonneg _ _ _ _ Hj0 E) as (Hlt & ->).
    split; [congruence|]. split.
    + intros j' Hj'. apply elem_of_cons in Hj' as [-> | Hj']; [|apply Hdone; exact Hj'].
      destruct (decide (j ∈ js)) as [Hin|Hnot]; [apply Hdone; exact Hin|].
      apply getitem_nonneg; [exact Hj0|]. split; [lia|].
      rewrite Hframe.
      * apply list_lookup_insert_eq. lia.
      * intros j' Hj' Heq. apply Hnot. assert (j' = j) as -> by lia. exact Hj'.
    + intros e He. rewrite Hframe.
      * apply list_lookup_insert_ne. specialize (He j ltac:(left)). lia.
      * intros j' Hj'. apply He. right. exact Hj'.
Qed.

Lemma register_node_elements (id code : Z) (nodespace_uid : string) (offset n : Z)
    (s s' : nodenet) :
  0 <= offset ->
  get_elements_per_type code = Ok n ->
  register_node id code nodespace_uid offset s = Ok s' ->
  length (allocated_elements_to_nodes s') = length (allocated_elements_to_nodes s)
  /\ (forall j, 0 <= j < n ->
        getitem (allocated_elements_to_nodes s') (offset + j) = Ok id)
  /\ (forall e : nat, ~ (offset <= Z.of_nat e < offset + n) ->
        allocated_elements_to_nodes s' !! e = allocated_elements_to_nodes s !! e).
Proof.
  intros Hoff Hn H. unfold register_node in H. repeat returned H.
  match goal with
  | Hs : setitem _ id code = Ok ?l, Hg : getitem _ id = Ok ?t |- _ =>
      assert (t = code) as ->
        by (pose proof (getitem_setitem_eq _ _ _ _ Hs);
            change (getitem l id = Ok t) in Hg; congruence)
  end.
  match goal with
  | Hc : get_elements_per_type code = Ok _ |- _ => rewrite Hn in Hc; injection Hc as <-
  end.
  cbn [mbind result_bind] in H.
  apply handing_over_loop in H as (Hlen & Hdone & Hframe).
  - cbn in Hlen, Hframe. unfold RecordSettersUsingExistingGetters.const in Hlen, Hframe.
    split; [exact Hlen|]. split.
    + intros j Hj. apply Hdone. unfold range. apply elem_of_seqZ. lia.
    + intros e He. apply Hframe. intros j Hj. unfold range in Hj.
      apply elem_of_seqZ in Hj. lia.
  - intros j Hj. unfold range in Hj. apply elem_of_seqZ in Hj. lia.
Qed.

(** The run of elements that a returned [create_node] has found and handed
    to the node. *)
Lemma create_node_run (nodetype : nodetype) (nodespace_uid : string)
    (position : option (list Z)) (name : option string) (uid : option string)
    (parameters : gmap string string) (s s' : nodenet) (u : string) :
  -1 <= last_allocated_offset s ->
  create_node nodetype nodespace_uid position name uid parameters s = Ok (u, s') ->
  exists id n offset,
    match uid with
    | None => find_free_id (allocated_nodes s) (last_allocated_node s) (NoN s)
    | Some given => tnode.from_id given
    end = Ok id
    /\ u = tnode.to_id id
    /\ get_elements_per_type (get_numerical_node_type nodetype) = Ok n
    /\ free_run (allocated_elements_to_nodes s) offset n
    /\ setitem (allocated_nodes s) id (get_numerical_node_type nodetype)
       = Ok (allocated_nodes s')
    /\ setitem (allocated_node_offsets s) id offset = Ok (allocated_node_offsets s')
    /\ last_allocated_offset s' = offset
    /\ length (allocated_elements_to_nodes s') = length (allocated_elements_to_nodes s)
    /\ (forall j, 0 <= j < n ->
          getitem (allocated_elements_to_nodes s') (offset + j) = Ok id)
    /\ (forall e : nat, ~ (offset <= Z.of_nat e < offset + n) ->
          allocated_elements_to_nodes s' !! e = allocated_elements_to_nodes s !! e).
Proof.
  intros Hcursor H.
  pose proof (create_node_returned _ _ _ _ _ _ _ _ _ H)
    as (id & n & offset & nodespace_id & Hid & -> & Hn & Hscan & _ & Hnodes & _ & Hoffsets & _
        & Hlastoff).
  unfold create_node in H.
  destruct (match uid with
            | None => find_free_id (allocated_nodes s) (last_allocated_node s) (NoN s)
            | Some given => tnode.from_id given
            end) as [id'|] eqn:Eid; [|discriminate].
  cbn [mbind result_bind] in H. rewrite Hn in H. cbn [mbind result_bind] in H.
  rewrite Hscan in H. cbn [mbind result_bind] in H.
  destruct (register_node id' (get_numerical_node_type nodetype) nodespace_uid offset s)
    as [s1|] eqn:Ereg; [|discriminate].
  cbn [mbind result_bind] in H.
  pose proof (elements_per_type_standard _ _ Hn) as (_ & Hcount & _).
  pose proof (find_offset_loop_sound
                (find_offset_fuel (NoE s) (last_allocated_offset s + 1))
                (allocated_elements_to_nodes s) n (NoE s) ltac:(lia)
                (last_allocated_offset s + 1) false ltac:(lia)) as Hsound.
  pose proof Hscan as Hrun. unfold find_offset in Hrun. rewrite Hrun in Hsound.
  pose proof Hsound as (Hoff & Hfree).
  destruct (register_node_elements _ _ _ _ _ _ _ Hoff Hn Ereg) as (Hlen & Hdone & Hframe).
  match type of H with
  | mbind _ (setup_nodetype _ _ _ _ _ _ ?x) = _ =>
      assert (Hnamed : same_registration s1 x)
        by (destruct name as [nm|], position as [p|];
            try destruct (bool_decide (nm ≠ "") && bool_decide (nm ≠ tnode.to_id id'));
            constructor; reflexivity);
      destruct (setup_nodetype nodetype nodespace_uid id' (tnode.to_id id') offset parameters x)
        as [s2|] eqn:Esetup; [|discriminate]
  end.
  cbn [mbind result_bind] in H.
  destruct (apply_gate_defaults nodetype id' (tnode.to_id id') s2) as [s3|] eqn:Edef;
    [|discriminate].
  cbn [mbind result_bind] in H. injection H as Hu <-.
  simpl in Hu. apply str_inj in Hu. subst id'.
  apply setup_nodetype_registration in Esetup.
  apply apply_gate_defaults_registration in Edef.
  pose proof (same_registration_trans _ _ _ Hnamed
                (same_registration_trans _ _ _ Esetup Edef)) as Hsame.
  exists id, n, offset. rewrite (same_elements _ _ Hsame).
  split; [reflexivity|]. split; [reflexivity|]. split; [exact Hn|]. split; [exact Hsound|].
  split; [exact Hnodes|]. split; [exact Hoffsets|]. split; [exact Hlastoff|].
  split; [exact Hlen|]. split; [exact Hdone | exact Hframe].
Qed.

(** X6 ([create_node] and the element arena).  With the offset cursor not
    below -1, a call that returns has given the node a run of elements that
    were all free before the call and are all the node's after it; the run
    starts at the offset recorded for the node, which is not negative and is
    the new cursor, and no other cell of [allocated_elements_to_nodes] has
    changed: a new node never takes an element from another node. *)
Theorem create_node_takes_free_elements (nodetype : nodetype) (nodespace_uid : string)
    (position : option (list Z)) (name : option string) (uid : option string)
    (parameters : gmap string string) (s s' : nodenet) (u : string) :
  -1 <= last_allocated_offset s ->
  create_node nodetype nodespace_uid position name uid parameters s = Ok (u, s') ->
  exists id offset n,
    u = tnode.to_id id
    /\ get_elements_per_type (get_numerical_node_type nodetype) = Ok n
    /\ getitem (allocated_node_offsets s') id = Ok offset
    /\ 0 <= offset
    /\ last_allocated_offset s' = offset
    /\ (forall j, 0 <= j < n ->
          getitem (allocated_elements_to_nodes s) (offset + j) = Ok 0
          /\ getitem (allocated_elements_to_nodes s') (offset + j) = Ok id)
    /\ length (allocated_elements_to_nodes s') = length (allocated_elements_to_nodes s)
    /\ (forall e : nat, ~ (offset <= Z.of_nat e < offset + n) ->
          allocated_elements_to_nodes s' !! e = allocated_elements_to_nodes s !! e).
Proof.
  intros Hcursor H.
  destruct (create_node_run _ _ _ _ _ _ _ _ _ Hcursor H)
    as (id & n & offset & _ & -> & Hn & (Hoff & Hfree) & _ & Hoffsets & Hlast & Hlen
        & Hdone & Hframe).
  exists id, offset, n. split; [reflexivity|]. split; [exact Hn|].
  split; [eapply getitem_setitem_eq; exact Hoffsets|]. split; [exact Hoff|].
  split; [exact Hlast|]. split; [|split; [exact Hlen | exact Hframe]].
  intros j Hj. split; [apply Hfree; exact Hj | apply Hdone; exact Hj].
Qed.

Lemma create_node_takes_free_elements_witness :
  create_node Pipe "s1" None None None ∅ one_register_net = Ok ("n2", register_and_pipe)
  /\ getitem (allocated_elements_to_nodes one_register_net) 1 = Ok 1
  /\ exists offset,
       getitem (allocated_node_offsets register_and_pipe) 2 = Ok offset
       /\ (forall j, 0 <= j < 7 ->
             getitem (allocated_elements_to_nodes one_register_net) (offset + j) = Ok 0
             /\ getitem (allocated_elements_to_nodes register_and_pipe) (offset + j) = Ok 2)
       /\ allocated_elements_to_nodes register_and_pipe !! 1%nat = Some 1.
Proof.
  split; [vm_compute; reflexivity|]. split; [vm_compute; reflexivity|].
  destruct (create_node_takes_free_elements Pipe "s1" None None None ∅ one_register_net
              register_and_pipe "n2")
    as (id & offset & n & Hid & Hn & Hoffset & Hoff & _ & Hrun & _ & Hframe).
  - vm_compute. discriminate.
  - vm_compute. reflexivity.
  - apply (to_id_inj 2 id) in Hid. subst id.
    vm_compute in Hn. injection Hn as <-.
    exists offset. split; [exact Hoffset|]. split; [exact Hrun|].
    vm_compute in Hoffset. injection Hoffset as <-.
    rewrite (Hframe 1%nat) by lia. vm_compute. reflexivity.
Defined.

(** ** Feeding values and reading the actuators *)




(** ** A Sensor and its datasource *)






(** ** [delete_node], when it has returned *)

Lemma same_tables_refl (s : nodenet) : same_tables s s.
Proof. constructor; reflexivity. Qed.

Lemma same_tables_trans (s1 s2 s3 : nodenet) :
  same_tables s1 s2 -> same_tables s2 s3 -> same_tables s1 s3.
Proof. intros [] []. constructor; congruence. Qed.

(** A loop whose body assigns to none of the tables. *)
Ltac loop_keeps_tables :=
  match goal with
  | E : for_each _ _ ?x = Ok ?y |- _ =>
      let Hb := fresh "Hb" in
      assert (same_tables x y)
        by (eapply (for_each_invariant same_tables);
            [ apply same_tables_refl | apply same_tables_trans | | exact E ];
            intros ? ? ? _ Hb; repeat returned Hb; subst; constructor; reflexivity);
      clear E
  end.

Lemma remove_association_forgets (uid : string) (id : Z) (inverted inverted' : gmap string string)
    (map map' : gmap string (list Z)) :
  remove_association uid id inverted map = Ok (inverted', map') ->
  inverted' !! uid = None
  /\ forall u, u ≠ uid -> inverted' !! u = inverted !! u.
Proof.
  unfold remove_association. intros H.
  destruct (inverted !! uid) as [key|] eqn:E.
  - assert (inverted' = delete uid inverted) as ->.
    { repeat returned H; congruence. }
    split; [apply lookup_delete_eq|]. intros u Hu. apply lookup_delete_ne. congruence.
  - injection H as <- <-. split; [exact E | reflexivity].
Qed.

Lemma zeroed_getitem_zero (l l' : list Z) (i : Z) :
  zeroed l l' -> getitem l i = Ok 0 -> getitem l' i = Ok 0.
Proof.
  intros Hz. unfold getitem. rewrite <- (Forall2_length _ _ _ Hz).
  destruct (np_index (length l) i) as [k|]; simpl; [|discriminate].
  destruct (l !! k) as [v|] eqn:Ek; simpl; [|discriminate]. intros [= ->].
  rewrite (zeroed_zero _ _ _ Hz Ek). reflexivity.
Qed.

(** The loop of [delete_node] over the elements of the node. *)
Lemma freeing_loop (offset : Z) (js : list Z) :
  forall s s' : nodenet,
    for_each (fun element s =>
                arr ← setitem (allocated_elements_to_nodes s) (offset + element) 0;
                let s := s <| allocated_elements_to_nodes := arr |> in
                arr ← setitem (g_function_selector s) (offset + element) 0;
                Ok (s <| g_function_selector := arr |>)) js s = Ok s' ->
    zeroed (allocated_elements_to_nodes s) (allocated_elements_to_nodes s')
    /\ forall j, j ∈ js -> getitem (allocated_elements_to_nodes s') (offset + j) = Ok 0.
Proof.
  induction js as [|j js IH]; intros s s' H; simpl in H.
  - injection H as <-. split; [apply zeroed_refl|]. intros j Hj. inversion Hj.
  - destruct (setitem (allocated_elements_to_nodes s) (offset + j) 0) as [arr|] eqn:E1;
      [|discriminate].
    cbn [mbind result_bind] in H. cbv zeta in H.
    match type of H with
    | mbind _ (mbind _ ?m) = _ => destruct m as [arr2|] eqn:E2; [|discriminate]
    end.
    cbn [mbind result_bind] in H.
    apply IH in H as [Hz Hrest]. cbn in Hz. unfold RecordSettersUsingExistingGetters.const in Hz.
    split; [eapply zeroed_trans; [eapply zeroed_setitem; exact E1 | exact Hz]|].
    intros j' Hj'. apply elem_of_cons in Hj' as [-> | Hj']; [|apply Hrest; exact Hj'].
    eapply zeroed_getitem_zero; [exact Hz|]. eapply getitem_setitem_eq. exact E1.
Qed.
(** The same loop leaves alone the cells it does not address. *)
Lemma freeing_loop_frame (offset : Z) (js : list Z) :
  forall s s' : nodenet,
    for_each (fun element s =>
                arr ← setitem (allocated_elements_to_nodes s) (offset + element) 0;
                let s := s <| allocated_elements_to_nodes := arr |> in
                arr ← setitem (g_function_selector s) (offset + element) 0;
                Ok (s <| g_function_selector := arr |>)) js s = Ok s' ->
    forall e : nat,
      (forall j, j ∈ js ->
         np_index (length (allocated_elements_to_nodes s)) (offset + j) ≠ Some e) ->
      allocated_elements_to_nodes s' !! e = allocated_elements_to_nodes s !! e.
Proof.
  induction js as [|j js IH]; intros s s' H e He; simpl in H.
  - injection H as <-. reflexivity.
  - destruct (setitem (allocated_elements_to_nodes s) (offset + j) 0) as [arr|] eqn:E1;
      [|discriminate].
    cbn [mbind result_bind] in H. cbv zeta in H.
    match type of H with
    | mbind _ (mbind _ ?m) = _ => destruct m as [arr2|] eqn:E2; [|discriminate]
    end.
    cbn [mbind result_bind] in H.
    pose proof (setitem_length _ _ _ _ E1) as Hlen.
    rewrite (IH _ _ H e).
    + cbn. unfold RecordSettersUsingExistingGetters.const.
      unfold setitem in E1.
      destruct (np_index (length (allocated_elements_to_nodes s)) (offset + j)) as [k|] eqn:Ek;
        [|discriminate].
      injection E1 as <-. apply list_lookup_insert_ne.
      intros ->. apply (He j); [left | exact Ek].
    + intros j' Hj'. cbn. unfold RecordSettersUsingExistingGetters.const.
      rewrite Hlen. apply He. right. exact Hj'.
Qed.

Lemma delete_node_returned (uid : string) (s s' : nodenet) :
  delete_node uid s = Ok s' ->
  exists id type offset count,
    tnode.from_id uid = Ok id
    /\ is_node s uid = true
    /\ getitem (allocated_nodes s) id = Ok type
    /\ getitem (allocated_node_offsets s) id = Ok offset
    /\ get_elements_per_type type = Ok count
    /\ setitem (allocated_nodes s) id 0 = Ok (allocated_nodes s')
    /\ setitem (allocated_node_offsets s) id 0 = Ok (allocated_node_offsets s')
    /\ names s' = delete uid (names s)
    /\ positions s' = delete uid (positions s)
    /\ last_allocated_node s' = id - 1
    /\ last_allocated_offset s' = last_allocated_offset s
    /\ inverted_sensor_map s' !! uid = None
    /\ inverted_actuator_map s' !! uid = None
    /\ zeroed (allocated_elements_to_nodes s) (allocated_elements_to_nodes s')
    /\ (forall j, 0 <= j < count ->
          getitem (allocated_elements_to_nodes s') (offset + j) = Ok 0)
    /\ forall e : nat,
         (forall j, 0 <= j < count ->
            np_index (length (allocated_elements_to_nodes s)) (offset + j) ≠ Some e) ->
         allocated_elements_to_nodes s' !! e = allocated_elements_to_nodes s !! e.
Proof.
  intros H. unfold delete_node in H.
  destruct (tnode.from_id uid) as [id|] eqn:Eid; [|discriminate].
  cbn [mbind result_bind] in H.
  destruct (getitem (allocated_nodes s) id) as [type|] eqn:Etype; [|discriminate].
  cbn [mbind result_bind] in H.
  destruct (getitem (allocated_node_offsets s) id) as [offset|] eqn:Eoffset; [|discriminate].
  cbn [mbind result_bind] in H.
  destruct (getitem (allocated_node_parents s) id) as [parent|] eqn:Eparent; [|discriminate].
  cbn [mbind result_bind] in H.
  destruct (is_node s uid) eqn:Elive; [|discriminate].
  destruct (unlink_completely id s) as [s1|] eqn:Eunlink; [|discriminate].
  cbn [mbind result_bind] in H.
  assert (Hunlink : same_tables s s1
                    /\ allocated_elements_to_nodes s1 = allocated_elements_to_nodes s).
  { unfold unlink_completely in Eunlink. repeat returned Eunlink. subst s1.
    split; [constructor|]; reflexivity. }
  destruct Hunlink as [Hunlink Hu6].
  destruct (setitem (allocated_nodes s1) id 0) as [nodes'|] eqn:Enodes; [|discriminate].
  cbn [mbind result_bind] in H.
  destruct (setitem (allocated_node_offsets (s1 <| allocated_nodes := nodes' |>)) id 0)
    as [offsets'|] eqn:Eoffsets; [|discriminate].
  cbn [mbind result_bind] in H.
  match type of H with
  | mbind _ ?m = _ => destruct m as [parents'|] eqn:Eparents; [|discriminate]
  end.
  cbn [mbind result_bind] in H.
  destruct (get_elements_per_type type) as [count|] eqn:Ecount; [|discriminate].
  cbn [mbind result_bind] in H.
  match type of H with
  | mbind _ ?m = _ => destruct m as [s2|] eqn:Eloop1; [|discriminate]
  end.
  cbn [mbind result_bind] in H.
  match type of H with
  | mbind _ ?m = _ => destruct m as [s3|] eqn:Eloop2; [|discriminate]
  end.
  cbn [mbind result_bind] in H.
  pose proof (freeing_loop _ _ _ _ Eloop1) as [Hzeroed Hfreed].
  pose proof (freeing_loop_frame _ _ _ _ Eloop1) as Hframe.
  assert (Hl6 : allocated_elements_to_nodes s3 = allocated_elements_to_nodes s2).
  { revert Eloop2.
    apply (for_each_invariant
             (fun t t' => allocated_elements_to_nodes t' = allocated_elements_to_nodes t));
      [reflexivity | congruence |].
    intros g t t' _ Hstep. repeat returned Hstep. subst t'. reflexivity. }
  repeat loop_keeps_tables.
  match type of H with
  | mbind _ ?m = _ => destruct m as [[inv map]|] eqn:Esensor; [|discriminate]
  end.
  cbn [mbind result_bind] in H.
  match type of H with
  | mbind _ ?m = _ => destruct m as [[inv0 map0]|] eqn:Eactuator; [|discriminate]
  end.
  cbn [mbind result_bind] in H.
  apply remove_association_forgets in Esensor as [Hsensor _].
  apply remove_association_forgets in Eactuator as [Hactuator _].
  match goal with
  | Ha : same_tables _ s2, Hb : same_tables s2 s3 |- _ =>
      pose proof (same_tables_trans _ _ _ Ha Hb) as Hloops; clear Ha Hb
  end.
  assert (Hdone : allocated_nodes s' = allocated_nodes s3
                  /\ allocated_node_offsets s' = allocated_node_offsets s3
                  /\ names s' = delete uid (names s3)
                  /\ positions s' = delete uid (positions s3)
                  /\ last_allocated_node s' = id - 1
                  /\ last_allocated_offset s' = last_allocated_offset s3
                  /\ inverted_sensor_map s' = inv
                  /\ inverted_actuator_map s' = inv0
                  /\ allocated_elements_to_nodes s' = allocated_elements_to_nodes s3).
  { repeat returned H; subst s'; repeat split. }
  clear H.
  destruct Hdone as (-> & -> & -> & -> & -> & -> & -> & -> & ->).
  destruct Hunlink as [Hu1 Hu2 _ _ Hu4 Hu5 _ Hu3 _].
  destruct Hloops as [Hl1 Hl2 _ _ Hl3 Hl4 _ Hl5 _].
  cbn in Hl1, Hl2, Hl3, Hl4, Hl5, Eoffsets, Hzeroed, Hframe.
  unfold RecordSettersUsingExistingGetters.const in *.
  exists id, type, offset, count.
  rewrite Hu1 in Enodes. rewrite Hu2 in Eoffsets. rewrite Hu6 in Hzeroed, Hframe.
  rewrite Hl1, Hl2, Hl3, Hl4, Hl5, Hl6, Hu3, Hu4, Hu5.
  repeat split; try assumption; try reflexivity.
  - intros j Hj. apply Hfreed. unfold range. apply elem_of_seqZ. lia.
  - intros e He. apply Hframe. intros j Hj. apply He.
    unfold range in Hj. apply elem_of_seqZ in Hj. lia.
Qed.

(** X8 ([delete_node]).  A call that returns has deleted a node that was
    live: its uid names no node afterwards, every other uid names a node
    exactly if it did before, and the uid has no name, no position and no
    sensor or actuator association left; the id cursor is set just below the
    freed id. *)
Theorem delete_node_forgets_the_node (uid : string) (s s' : nodenet) :
  delete_node uid s = Ok s' ->
  is_node s uid = true
  /\ is_node s' uid = false
  /\ (forall other, other ≠ uid -> is_node s' other = is_node s other)
  /\ names s' !! uid = None
  /\ positions s' !! uid = None
  /\ inverted_sensor_map s' !! uid = None
  /\ inverted_actuator_map s' !! uid = None
  /\ tnode.from_id uid = Ok (last_allocated_node s' + 1).
Proof.
  intros H. apply delete_node_returned in H
    as (id & type & offset & count & Hid & Hlive & Htype & _ & _ & Hnodes & _ & Hnames
        & Hpositions & Hlast & _ & Hsensor & Hactuator & _).
  pose proof Hlive as Hspec. apply is_node_spec in Hspec as (k & t & -> & Hk & Ht).
  rewrite tnode_from_to_id in Hid. injection Hid as <-.
  pose proof (lookup_lt_Some _ _ _ Hk) as Hklt.
  rewrite setitem_nonneg in Hnodes by lia. rewrite Nat2Z.id in Hnodes.
  injection Hnodes as Hnodes.
  split; [exact Hlive|]. split; [|split].
  - apply not_true_is_false. intros Hstill.
    apply is_node_spec in Hstill as (k' & t' & Heq & Hk' & Ht').
    assert (k' = k) as ->.
    { unfold tnode.to_id in Heq. injection Heq as Heq. apply str_inj in Heq. lia. }
    rewrite <- Hnodes, list_lookup_insert_eq in Hk' by lia. congruence.
  - intros other Hother.
    destruct (is_node s other) eqn:Eother.
    + apply is_node_spec in Eother as (k' & t' & -> & Hk' & Ht').
      apply is_node_spec. exists k', t'. split; [reflexivity|]. split; [|exact Ht'].
      rewrite <- Hnodes, list_lookup_insert_ne by congruence. exact Hk'.
    + apply not_true_is_false. intros Hnow. apply not_true_iff_false in Eother.
      apply Eother. apply is_node_spec in Hnow as (k' & t' & -> & Hk' & Ht').
      apply is_node_spec. exists k', t'. split; [reflexivity|]. split; [|exact Ht'].
      rewrite <- Hnodes, list_lookup_insert_ne in Hk' by congruence. exact Hk'.
  - rewrite Hnames, Hpositions, Hlast, !lookup_delete_eq.
    repeat split; try assumption.
    rewrite tnode_from_to_id. f_equal. lia.
Qed.

Lemma delete_node_forgets_the_node_witness :
  one_register = Ok one_register_net
  /\ exists s',
       delete_node "n1" one_register_net = Ok s'
       /\ is_node one_register_net "n1" = true
       /\ is_node s' "n1" = false.
Proof.
  split; [vm_compute; reflexivity|].
  exists (state_of (delete_node "n1" one_register_net)).
  destruct (delete_node_forgets_the_node "n1" one_register_net
              (state_of (delete_node "n1" one_register_net)))
    as (Hbefore & Hafter & _); [vm_compute; reflexivity|].
  split; [vm_compute; reflexivity|]. split; [exact Hbefore | exact Hafter].
Defined.

(** X9 ([delete_node] and the element arena).  A call that returns has set
    free all the elements of the node's run; no cell of
    [allocated_elements_to_nodes] has changed except to 0, so no element
    changes owner, and with an offset that is not negative no cell outside
    the run has changed at all. *)
Theorem delete_node_frees_elements (uid : string) (s s' : nodenet) :
  delete_node uid s = Ok s' ->
  exists id type offset count,
    tnode.from_id uid = Ok id
    /\ getitem (allocated_nodes s) id = Ok type
    /\ getitem (allocated_node_offsets s) id = Ok offset
    /\ get_elements_per_type type = Ok count
    /\ (forall j, 0 <= j < count ->
          getitem (allocated_elements_to_nodes s') (offset + j) = Ok 0)
    /\ length (allocated_elements_to_nodes s') = length (allocated_elements_to_nodes s)
    /\ (forall (e : nat) (owner : Z),
          allocated_elements_to_nodes s' !! e = Some owner -> owner ≠ 0 ->
          allocated_elements_to_nodes s !! e = Some owner)
    /\ (0 <= offset ->
        forall e : nat, ~ (offset <= Z.of_nat e < offset + count) ->
          allocated_elements_to_nodes s' !! e = allocated_elements_to_nodes s !! e).
Proof.
  intros H. apply delete_node_returned in H
    as (id & type & offset & count & Hid & _ & Htype & Hoffset & Hcount & _ & _ & _ & _ & _
        & _ & _ & _ & Hzeroed & Hfreed & Hframe).
  exists id, type, offset, count. repeat split; try assumption.
  - symmetry. eapply Forall2_length. exact Hzeroed.
  - intros e owner He Howner. eapply zeroed_nonzero; eassumption.
  - intros Hoff e He. apply Hframe. intros j Hj Hk. unfold np_index in Hk.
    destruct ((0 <=? offset + j)
              && (offset + j <? Z.of_nat (length (allocated_elements_to_nodes s)))).
    + injection Hk as <-. lia.
    + destruct ((- Z.of_nat (length (allocated_elements_to_nodes s)) <=? offset + j)
                && (offset + j <? 0)) eqn:E; [|discriminate].
      apply andb_true_iff in E as [_ E]. apply Z.ltb_lt in E. lia.
Qed.

Lemma delete_node_frees_elements_witness :
  register_then_pipe true = Ok register_and_pipe
  /\ exists s',
       delete_node "n2" register_and_pipe = Ok s'
       /\ length (allocated_elements_to_nodes s')
          = length (allocated_elements_to_nodes register_and_pipe)
       /\ forall j, 0 <= j < 7 -> getitem (allocated_elements_to_nodes s') (2 + j) = Ok 0.
Proof.
  split; [vm_compute; reflexivity|].
  exists (state_of (delete_node "n2" register_and_pipe)).
  destruct (delete_node_frees_elements "n2" register_and_pipe
              (state_of (delete_node "n2" register_and_pipe)))
    as (id & type & offset & count & Hid & Htype & Hoffset & Hcount & Hfreed & Hlen & _);
    [vm_compute; reflexivity|].
  vm_compute in Hid. injection Hid as <-.
  vm_compute in Htype. injection Htype as <-.
  vm_compute in Hoffset. injection Hoffset as <-.
  vm_compute in Hcount. injection Hcount as <-.
  split; [vm_compute; reflexivity|]. split; [exact Hlen | exact Hfreed].
Defined.

(** ** Every node owns its elements *)

Lemma getitem_same_cell {A : Type} (l l' : list A) (i : Z) :
  0 <= i -> length l' = length l -> l' !! Z.to_nat i = l !! Z.to_nat i ->
  getitem l' i = getitem l i.
Proof.
  intros Hi Hlen Hcell. unfold getitem. rewrite Hlen.
  destruct (Z.lt_ge_cases i (Z.of_nat (length l))) as [Hlt|Hge].
  - rewrite np_index_nonneg by lia. cbn [mbind option_bind]. rewrite Hcell. reflexivity.
  - unfold np_index.
    replace ((0 <=? i) && (i <? Z.of_nat (length l))) with false
      by (symmetry; apply andb_false_iff; right; apply Z.ltb_ge; lia).
    replace ((- Z.of_nat (length l) <=? i) && (i <? 0)) with false
      by (symmetry; apply andb_false_iff; right; apply Z.ltb_ge; lia).
    reflexivity.
Qed.

(** A fresh engine has no node, so every node owns its elements. *)
Lemma new_nodenet_owns (non noe nons : Z) (sparse : bool) (s : nodenet) :
  new_nodenet non noe nons sparse = Ok s -> owns_its_elements s.
Proof.
  unfold new_nodenet. intros H.
  destruct (create_nodespace None None (Some "Root") (Some (tnodespace.to_id 1))
              (empty_nodenet non noe nons sparse)) as [[root s1]|] eqn:E; [|discriminate].
  cbn in H. injection H as <-.
  assert (Hnodes : allocated_nodes s1 = replicate (Z.to_nat non) 0).
  { unfold create_nodespace in E. repeat returned E. subst s1. reflexivity. }
  intros k type offset count _ Htype Hnz. exfalso. apply Hnz.
  rewrite Hnodes in Htype. apply lookup_replicate in Htype as [-> _]. reflexivity.
Qed.

(** X22 (the element arena under [create_node]).  In a net in which every
    node owns its elements and the offset cursor is not below -1, a
    [create_node] without a uid that returns leaves a net in which every
    node owns its elements, the new one too, and the cursor is not below
    -1. *)
Theorem create_node_keeps_ownership (nodetype : nodetype) (nodespace_uid : string)
    (position : option (list Z)) (name : option string)
    (parameters : gmap string string) (s s' : nodenet) (u : string) :
  owns_its_elements s ->
  -1 <= last_allocated_offset s ->
  create_node nodetype nodespace_uid position name None parameters s = Ok (u, s') ->
  owns_its_elements s' /\ -1 <= last_allocated_offset s'.
Proof.
  intros Hown Hcursor H.
  destruct (create_node_run _ _ _ _ _ _ _ _ _ Hcursor H)
    as (id & n & offset & Hid & -> & Hn & (Hoff & Hfree) & Hnodes & Hoffsets & Hlast & Hlen
        & Hdone & Hframe).
  apply find_free_id_found in Hid as (Hpos & _ & _).
  split; [|lia].
  apply setitem_returned_nonneg in Hnodes as (Hidn & Hnodes); [|lia].
  apply setitem_returned_nonneg in Hoffsets as (Hido & Hoffsets); [|lia].
  intros k type off count Hk Htype Hnz Hoffk Hcount.
  rewrite Hnodes in Htype. rewrite Hoffsets in Hoffk.
  destruct (decide (k = Z.to_nat id)) as [->|Hother].
  - rewrite list_lookup_insert_eq in Htype by lia. injection Htype as <-.
    rewrite list_lookup_insert_eq in Hoffk by lia. injection Hoffk as <-.
    rewrite Hn in Hcount. injection Hcount as <-.
    split; [exact Hoff|]. intros j Hj. rewrite Z2Nat.id by lia. apply Hdone. exact Hj.
  - rewrite list_lookup_insert_ne in Htype by congruence.
    rewrite list_lookup_insert_ne in Hoffk by congruence.
    destruct (Hown k type off count Hk Htype Hnz Hoffk Hcount) as (Hoffpos & Hcells).
    split; [exact Hoffpos|]. intros j Hj. rewrite <- (Hcells j Hj).
    apply getitem_same_cell; [lia | exact Hlen|].
    apply Hframe. intros Hin.
    specialize (Hfree (off + j - offset) ltac:(lia)).
    replace (offset + (off + j - offset)) with (off + j) in Hfree by lia.
    rewrite (Hcells j Hj) in Hfree. injection Hfree as Hfree. lia.
Qed.

Lemma create_node_keeps_ownership_witness :
  new_nodenet 5 20 3 true = Ok bare_net
  /\ exists s',
       create_node Pipe "s1" None None None ∅ bare_net = Ok ("n1", s')
       /\ owns_its_elements s'
       /\ allocated_nodes s' !! 1%nat = Some PIPE.
Proof.
  split; [vm_compute; reflexivity|].
  exists (state_of (snd <$> create_node Pipe "s1" None None None ∅ bare_net)).
  destruct (create_node_keeps_ownership Pipe "s1" None None ∅ bare_net
              (state_of (snd <$> create_node Pipe "s1" None None None ∅ bare_net)) "n1")
    as [Hown _].
  - apply (new_nodenet_owns 5 20 3 true). vm_compute. reflexivity.
  - vm_compute. discriminate.
  - vm_compute. reflexivity.
  - split; [vm_compute; reflexivity|]. split; [exact Hown | vm_compute; reflexivity].
Defined.

(** X23 (the element arena under [delete_node]).  In a net in which every
    node owns its elements, a [delete_node] of a node with a positive id
    that returns leaves a net in which every node owns its elements. *)
Theorem delete_node_keeps_ownership (uid : string) (id : Z) (s s' : nodenet) :
  owns_its_elements s ->
  tnode.from_id uid = Ok id -> 1 <= id ->
  delete_node uid s = Ok s' ->
  owns_its_elements s'.
Proof.
  intros Hown Hid Hpos H.
  apply delete_node_returned in H
    as (id' & dtype & doffset & dcount & Hid' & Hlive & Hdtype & Hdoffset & Hdcount
        & Hnodes & Hoffsets & _ & _ & _ & _ & _ & _ & Hzeroed & _ & Hframe).
  rewrite Hid in Hid'. injection Hid' as <-.
  apply setitem_returned_nonneg in Hnodes as (Hidn & Hnodes); [|lia].
  apply setitem_returned_nonneg in Hoffsets as (Hido & Hoffsets); [|lia].
  apply getitem_nonneg in Hdtype as [_ Hdtype]; [|lia].
  apply getitem_nonneg in Hdoffset as [_ Hdoffset]; [|lia].
  assert (Hdlive : dtype ≠ 0).
  { apply is_node_spec in Hlive as (k & t & -> & Hk & Ht).
    rewrite tnode_from_to_id in Hid. injection Hid as <-.
    rewrite Nat2Z.id in Hdtype. congruence. }
  destruct (Hown (Z.to_nat id) dtype doffset dcount ltac:(lia) Hdtype Hdlive Hdoffset Hdcount)
    as (Hdoff & Hdcells).
  intros k type off count Hk Htype Hnz Hoffk Hcount.
  rewrite Hnodes in Htype. rewrite Hoffsets in Hoffk.
  destruct (decide (k = Z.to_nat id)) as [->|Hother].
  - rewrite list_lookup_insert_eq in Htype by lia. congruence.
  - rewrite list_lookup_insert_ne in Htype by congruence.
    rewrite list_lookup_insert_ne in Hoffk by congruence.
    destruct (Hown k type off count Hk Htype Hnz Hoffk Hcount) as (Hoffpos & Hcells).
    split; [exact Hoffpos|]. intros j Hj. rewrite <- (Hcells j Hj).
    apply getitem_same_cell; [lia | symmetry; eapply Forall2_length; exact Hzeroed|].
    apply Hframe. intros j' Hj' Hk'.
    pose proof (Hdcells j' Hj') as Hcell.
    apply getitem_nonneg in Hcell as [Hlt Hcell]; [|lia].
    rewrite np_index_nonneg in Hk' by lia. injection Hk' as Hk'.
    assert (doffset + j' = off + j) as Heq by lia.
    rewrite Heq in Hcell.
    pose proof (Hcells j Hj) as Hmine. apply getitem_nonneg in Hmine as [_ Hmine]; [|lia].
    rewrite Hcell in Hmine. injection Hmine as Hmine. lia.
Qed.

Lemma delete_node_keeps_ownership_witness :
  create_node Register "s1" None None None ∅ bare_net = Ok ("n1", one_register_net)
  /\ exists s',
       delete_node "n1" one_register_net = Ok s'
       /\ owns_its_elements s'.
Proof.
  split; [vm_compute; reflexivity|].
  exists (state_of (delete_node "n1" one_register_net)).
  split; [vm_compute; reflexivity|].
  apply (delete_node_keeps_ownership "n1" 1 one_register_net).
  - intros k type offset count Hk Htype Hnz Hoffset Hcount.
    destruct k as [|[|[|[|[|k]]]]]; cbn in Htype; try lia; try discriminate;
      injection Htype as <-; try (exfalso; apply Hnz; reflexivity).
    cbn in Hoffset. injection Hoffset as <-.
    vm_compute in Hcount. injection Hcount as <-.
    split; [lia|]. intros j Hj. assert (j = 0) as -> by lia. vm_compute. reflexivity.
  - vm_compute. reflexivity.
  - lia.
  - vm_compute. reflexivity.
Defined.

(** ** A node that is created and deleted again *)

(** X24 ([create_node], then [delete_node]).  With the offset cursor not
    below -1, deleting the node that a [create_node] without a uid has just
    returned gives back the node table and the element arena as they were
    before the creation: [allocated_nodes] and [allocated_elements_to_nodes]
    are restored.  The cursors are not: the id cursor is left just below the
    id that was used, the offset cursor at the run that was used. *)
Theorem create_then_delete_restores_arena (nodetype : nodetype) (nodespace_uid : string)
    (position : option (list Z)) (name : option string)
    (parameters : gmap string string) (s s1 s2 : nodenet) (uid : string) :
  -1 <= last_allocated_offset s ->
  create_node nodetype nodespace_uid position name None parameters s = Ok (uid, s1) ->
  delete_node uid s1 = Ok s2 ->
  allocated_nodes s2 = allocated_nodes s
  /\ allocated_elements_to_nodes s2 = allocated_elements_to_nodes s
  /\ tnode.from_id uid = Ok (last_allocated_node s2 + 1)
  /\ getitem (allocated_node_offsets s1) (last_allocated_node s2 + 1)
     = Ok (last_allocated_offset s2).
Proof.
  intros Hcursor Hcreate Hdelete.
  destruct (create_node_run _ _ _ _ _ _ _ _ _ Hcursor Hcreate)
    as (id & n & offset & Hid & -> & Hn & (Hoff & Hfree) & Hnodes & Hoffsets & Hlast & Hlen
        & Hdone & Hframe).
  apply find_free_id_found in Hid as (Hpos & Hwasfree & _).
  apply delete_node_returned in Hdelete
    as (id' & dtype & doffset & dcount & Hid' & _ & Hdtype & Hdoffset & Hdcount
        & Hnodes2 & _ & _ & _ & Hlast2 & Hlastoff2 & _ & _ & Hzeroed & Hfreed & Hframe2).
  rewrite tnode_from_to_id in Hid'. injection Hid' as <-.
  rewrite (getitem_setitem_eq _ _ _ _ Hnodes) in Hdtype. injection Hdtype as <-.
  rewrite (getitem_setitem_eq _ _ _ _ Hoffsets) in Hdoffset. injection Hdoffset as <-.
  rewrite Hn in Hdcount. injection Hdcount as <-.
  pose proof (getitem_setitem_eq _ _ _ _ Hoffsets) as Hrecorded.
  apply setitem_returned_nonneg in Hnodes as (Hidn & Hnodes); [|lia].
  apply setitem_returned_nonneg in Hnodes2 as (_ & Hnodes2); [|lia].
  apply getitem_nonneg in Hwasfree as [_ Hwasfree]; [|lia].
  split; [|split; [|split]].
  - rewrite Hnodes2, Hnodes, list_insert_insert_eq. apply list_insert_id. exact Hwasfree.
  - apply list_eq. intros e.
    destruct (decide (offset <= Z.of_nat e < offset + n)) as [Hin|Hout].
    + pose proof (Hfreed (Z.of_nat e - offset) ltac:(lia)) as Hnow.
      pose proof (Hfree (Z.of_nat e - offset) ltac:(lia)) as Hbefore.
      replace (offset + (Z.of_nat e - offset)) with (Z.of_nat e) in Hnow, Hbefore by lia.
      apply getitem_nonneg in Hnow as [_ Hnow]; [|lia].
      apply getitem_nonneg in Hbefore as [_ Hbefore]; [|lia].
      rewrite Nat2Z.id in Hnow, Hbefore. congruence.
    + rewrite Hframe2, Hframe; [reflexivity | exact Hout |].
      intros j Hj Hk.
      pose proof (Hdone j Hj) as Hcell. apply getitem_nonneg in Hcell as [Hlt _]; [|lia].
      rewrite np_index_nonneg in Hk by lia. injection Hk as Hk. lia.
  - rewrite Hlast2, tnode_from_to_id. f_equal. lia.
  - rewrite Hlast2, Hlastoff2, Hlast.
    replace (id - 1 + 1) with id by lia. exact Hrecorded.
Qed.

Lemma create_then_delete_restores_arena_witness :
  create_node Pipe "s1" None None None ∅ one_register_net = Ok ("n2", register_and_pipe)
  /\ exists s2,
       delete_node "n2" register_and_pipe = Ok s2
       /\ allocated_nodes s2 = allocated_nodes one_register_net
       /\ allocated_elements_to_nodes s2 = allocated_elements_to_nodes one_register_net
       /\ last_allocated_node s2 = 1
       /\ last_allocated_node one_register_net = 1
       /\ last_allocated_offset s2 = 2
       /\ last_allocated_offset one_register_net = 1.
Proof.
  split; [vm_compute; reflexivity|].
  exists (state_of (delete_node "n2" register_and_pipe)).
  destruct (create_then_delete_restores_arena Pipe "s1" None None ∅ one_register_net
              register_and_pipe (state_of (delete_node "n2" register_and_pipe)) "n2")
    as (Hnodes & Helements & _).
  - vm_compute. discriminate.
  - vm_compute. reflexivity.
  - vm_compute. reflexivity.
  - split; [vm_compute; reflexivity|]. split; [exact Hnodes|]. split; [exact Helements|].
    repeat split; vm_compute; reflexivity.
Defined.

(** ** Which id the scan hands out *)

(** A scan that stops has passed only entries that are taken. *)
Lemma first_free_first (arr : list Z) (idxs : list Z) (i : Z) :
  first_free arr idxs = Ok (Some i) ->
  exists before after,
    idxs = (before ++ i :: after)%list
    /\ forall j, j ∈ before -> getitem arr j ≠ Ok 0.
Proof.
  revert i. induction idxs as [|j idxs IH]; intros i H; simpl in H; [discriminate|].
  destruct (getitem arr j) as [v|] eqn:Ev; [|discriminate]. simpl in H.
  destruct (Z.eqb_spec v 0) as [->|Hv].
  - injection H as <-. exists [], idxs. split; [reflexivity|]. intros k Hk. inversion Hk.
  - destruct (IH i H) as (before & after & -> & Hbefore).
    exists (j :: before), after. split; [reflexivity|].
    intros k Hk. apply elem_of_cons in Hk as [-> | Hk]; [congruence | apply Hbefore; exact Hk].
Qed.

Lemma first_free_in_range (arr : list Z) (idxs : list Z) :
  (forall j, j ∈ idxs -> 0 <= j < Z.of_nat (length arr)) ->
  exists r, first_free arr idxs = Ok r.
Proof.
  induction idxs as [|j idxs IH]; intros Hrange; [exists None; reflexivity|].
  simpl. destruct (getitem_in_range arr j) as (v & Hv & _); [apply Hrange; left|].
  rewrite Hv. simpl. destruct (v =? 0); [eauto|].
  apply IH. intros k Hk. apply Hrange. right. exact Hk.
Qed.

(** The second scan, from 0 up, stops at entry 0 when that entry is free. *)
Lemma first_free_from_zero (arr : list Z) (hi : Z) :
  getitem arr 0 = Ok 0 ->
  first_free arr (range 0 hi) = Ok None \/ first_free arr (range 0 hi) = Ok (Some 0).
Proof.
  intros Hzero. unfold range. rewrite Z.sub_0_r.
  destruct (Z.le_gt_cases hi 0) as [Hle|Hgt].
  - left. replace (seqZ 0 hi) with (@nil Z); [reflexivity|].
    symmetry. apply seqZ_nil. lia.
  - right. rewrite seqZ_cons by lia. simpl. rewrite Hzero. reflexivity.
Qed.

(** X25 (the id scan of [create_node]).  In a node table of [NoN] entries
    whose entry 0 is free, as it is unless a node has been created under the
    uid [n0], and with the id cursor at 0 or above, a [create_node] without
    a uid hands out only ids above the cursor: what it returns is the first
    free id above the cursor, and when no id above the cursor is free it
    raises [MemoryError], whatever is free below. *)
Theorem create_node_scans_only_above_cursor (nodetype : nodetype) (nodespace_uid : string)
    (position : option (list Z)) (name : option string)
    (parameters : gmap string string) (s : nodenet) :
  getitem (allocated_nodes s) 0 = Ok 0 ->
  Z.of_nat (length (allocated_nodes s)) = NoN s ->
  0 <= last_allocated_node s ->
  (forall uid s',
     create_node nodetype nodespace_uid position name None parameters s = Ok (uid, s') ->
     exists id,
       uid = tnode.to_id id
       /\ last_allocated_node s < id < NoN s
       /\ getitem (allocated_nodes s) id = Ok 0
       /\ forall i, last_allocated_node s < i < id -> getitem (allocated_nodes s) i ≠ Ok 0)
  /\ ((forall i, last_allocated_node s < i < NoN s -> getitem (allocated_nodes s) i ≠ Ok 0) ->
      create_node nodetype nodespace_uid position name None parameters s
      = Raise MemoryError).
Proof.
  intros Hzero Hlen Hlast.
  assert (Hscan : match find_free_id (allocated_nodes s) (last_allocated_node s) (NoN s) with
                  | Ok id =>
                      last_allocated_node s < id < NoN s
                      /\ getitem (allocated_nodes s) id = Ok 0
                      /\ forall i, last_allocated_node s < i < id ->
                           getitem (allocated_nodes s) i ≠ Ok 0
                  | Raise e => e = MemoryError
                  end
                  /\ ((forall i, last_allocated_node s < i < NoN s ->
                         getitem (allocated_nodes s) i ≠ Ok 0) ->
                      find_free_id (allocated_nodes s) (last_allocated_node s) (NoN s)
                      = Raise MemoryError)).
  { unfold find_free_id.
    destruct (first_free_in_range (allocated_nodes s)
                (range (last_allocated_node s + 1) (NoN s))) as [r1 Hr1].
    { intros j Hj. unfold range in Hj. apply elem_of_seqZ in Hj. lia. }
    rewrite Hr1. cbn [mbind result_bind].
    destruct r1 as [i|]; cbn [default]; unfold Datatypes.id.
    - pose proof (first_free_found _ _ _ Hr1) as [Hin Hfree].
      unfold range in Hin. apply elem_of_seqZ in Hin.
      destruct (Z.ltb_spec i 1); [lia|]. cbn [mbind result_bind].
      destruct (Z.ltb_spec i 1); [lia|]. cbv beta iota.
      split.
      + split; [lia|]. split; [exact Hfree|].
        destruct (first_free_first _ _ _ Hr1) as (before & after & Hsplit & Hbefore).
        intros k Hk. apply Hbefore.
        assert (Hk' : k ∈ range (last_allocated_node s + 1) (NoN s))
          by (unfold range; apply elem_of_seqZ; lia).
        rewrite Hsplit in Hk'. apply elem_of_app in Hk' as [Hk'|Hk']; [exact Hk'|].
        exfalso.
        assert (Hsorted : forall (l1 l2 : list Z) (x y : Z),
                   seqZ (last_allocated_node s + 1)
                        (NoN s - (last_allocated_node s + 1)) = (l1 ++ x :: l2)%list ->
                   y ∈ x :: l2 -> x <= y).
        { intros l1 l2 x y Hl Hy.
          apply list_elem_of_lookup in Hy as [n Hn].
          assert (Hx : seqZ (last_allocated_node s + 1)
                         (NoN s - (last_allocated_node s + 1)) !! length l1 = Some x)
            by (rewrite Hl, lookup_app_r, Nat.sub_diag by lia; reflexivity).
          assert (Hy' : seqZ (last_allocated_node s + 1)
                          (NoN s - (last_allocated_node s + 1)) !! (length l1 + n)%nat = Some y)
            by (rewrite Hl, lookup_app_r by lia;
                replace (length l1 + n - length l1)%nat with n by lia; exact Hn).
          apply lookup_seqZ in Hx as [-> _]. apply lookup_seqZ in Hy' as [-> _]. lia. }
        unfold range in Hsplit. specialize (Hsorted before after i k Hsplit Hk'). lia.
      + intros Hnone. destruct (Hnone i); [lia | exact Hfree].
    - destruct (first_free_from_zero (allocated_nodes s) (last_allocated_node s - 1) Hzero)
        as [-> | ->]; cbn.
      + split; reflexivity.
      + split; reflexivity. }
  destruct Hscan as [Hresult Hfull]. split.
  - intros uid s' H.
    apply create_node_returned in H as (id & n & offset & nsid & Hid & -> & _).
    rewrite Hid in Hresult. exists id. split; [reflexivity | exact Hresult].
  - intros Hnone. unfold create_node. rewrite (Hfull Hnone). reflexivity.
Qed.

Lemma create_node_scans_only_above_cursor_witness :
  free_id_below_cursor = Ok gap_below_cursor
  /\ getitem (allocated_nodes gap_below_cursor) 1 = Ok 0
  /\ last_allocated_node gap_below_cursor = 3
  /\ create_node Register "s1" None None None ∅ gap_below_cursor = Raise MemoryError.
Proof.
  split; [vm_compute; reflexivity|]. split; [vm_compute; reflexivity|].
  split; [reflexivity|].
  destruct (create_node_scans_only_above_cursor Register "s1" None None ∅ gap_below_cursor)
    as [_ Hfull].
  - vm_compute. reflexivity.
  - reflexivity.
  - vm_compute. discriminate.
  - apply Hfull. intros i Hi. change (3 < i < 4) in Hi. lia.
Defined.

(** X26 ([delete_node], then [create_node]).  The id that [delete_node] has
    freed is the next one handed out: after the deletion of a node with an
    id from 1 to [NoN - 1], a [create_node] without a uid that returns
    returns the uid of that id. *)
Theorem deleted_id_is_reused (uid : string) (id : Z) (nodetype : nodetype)
    (nodespace_uid : string) (position : option (list Z)) (name : option string)
    (parameters : gmap string string) (s s' s'' : nodenet) (new_uid : string) :
  delete_node uid s = Ok s' ->
  tnode.from_id uid = Ok id ->
  1 <= id < NoN s' ->
  create_node nodetype nodespace_uid position name None parameters s' = Ok (new_uid, s'') ->
  new_uid = tnode.to_id id.
Proof.
  intros Hdelete Hid Hrange Hcreate.
  apply delete_node_returned in Hdelete
    as (id' & _ & _ & _ & Hid' & _ & _ & _ & _ & Hnodes & _ & _ & _ & Hlast & _).
  rewrite Hid in Hid'. injection Hid' as <-.
  apply getitem_setitem_eq in Hnodes.
  apply create_node_returned in Hcreate as (id2 & _ & _ & _ & Hscan & -> & _).
  f_equal. unfold find_free_id in Hscan. rewrite Hlast in Hscan.
  replace (id - 1 + 1) with id in Hscan by lia.
  unfold range in Hscan. rewrite (seqZ_cons id) in Hscan by lia.
  cbn [first_free] in Hscan. rewrite Hnodes in Hscan.
  cbn [mbind result_bind Z.eqb default] in Hscan. unfold Datatypes.id in Hscan.
  destruct (Z.ltb_spec id 1); [lia|]. cbn [mbind result_bind] in Hscan.
  destruct (Z.ltb_spec id 1); [lia|]. injection Hscan as <-. reflexivity.
Qed.

Lemma deleted_id_is_reused_witness :
  delete_node "n1" register_and_pipe = Ok pipe_alone
  /\ create_node Register "s1" None None None ∅ pipe_alone = Ok ("n1", pipe_and_register).
Proof.
  assert (Hdelete : delete_node "n1" register_and_pipe = Ok pipe_alone)
    by (vm_compute; reflexivity).
  split; [exact Hdelete|].
  assert (Hcreate : exists u, create_node Register "s1" None None None ∅ pipe_alone
                              = Ok (u, pipe_and_register))
    by (exists "n1"; vm_compute; reflexivity).
  destruct Hcreate as [u Hcreate].
  assert (Hrange : 1 <= 1 < NoN pipe_alone) by (split; [lia | reflexivity]).
  pose proof (deleted_id_is_reused "n1" 1 Register "s1" None None ∅ register_and_pipe
                pipe_alone pipe_and_register u Hdelete eq_refl Hrange Hcreate) as Hu.
  rewrite Hu in Hcreate. exact Hcreate.
Defined.

(** ** [create_nodespace], when it has returned *)




(** ** The nodespace id that [delete_nodespace] has freed *)

Lemma nodespace_to_id_inj (i j : Z) : tnodespace.to_id i = tnodespace.to_id j -> i = j.
Proof. unfold tnodespace.to_id. intros [= H]. apply str_inj. exact H. Qed.

Lemma delete_nodespace_cursor (depth : nat) (uid : string) (id : Z) (s s' : nodenet) :
  delete_nodespace depth uid s = Ok s' ->
  tnodespace.from_id uid = Ok id ->
  last_allocated_nodespace s' = id.
Proof.
  intros H Hid. destruct depth as [|depth]; [discriminate|].
  simpl in H. rewrite Hid in H. cbn [mbind result_bind] in H.
  match type of H with
  | mbind _ (for_each ?body ?ids s) = _ =>
      destruct (for_each body ids s) as [s1|] eqn:Echildren; [|discriminate]
  end.
  cbn [mbind result_bind] in H.
  match type of H with
  | mbind _ (for_each ?body ?ids s1) = _ =>
      destruct (for_each body ids s1) as [s2|] eqn:Enodes; [|discriminate]
  end.
  cbn [mbind result_bind] in H.
  match type of H with
  | mbind _ ?m = _ => destruct m as [arr|]; [|discriminate]
  end.
  cbn [mbind result_bind] in H. injection H as <-. reflexivity.
Qed.

Lemma create_nodespace_scanned (parent_uid : option string) (position : option (list Z))
    (name : option string) (s s' : nodenet) (uid : string) :
  create_nodespace parent_uid position name None s = Ok (uid, s') ->
  exists id,
    find_free_id (allocated_nodespaces s) (last_allocated_nodespace s) (NoNS s) = Ok id
    /\ uid = tnodespace.to_id id.
Proof.
  unfold create_nodespace. intros H.
  destruct (find_free_id (allocated_nodespaces s) (last_allocated_nodespace s) (NoNS s))
    as [id|] eqn:Eid; [|discriminate].
  cbn [mbind result_bind] in H.
  match type of H with
  | mbind _ ?m = _ => destruct m as [parent_id|]; [|discriminate]
  end.
  cbn [mbind result_bind] in H.
  match type of H with
  | mbind _ ?m = _ => destruct m as [arr|]; [|discriminate]
  end.
  cbn [mbind result_bind] in H. injection H as <- _. exists id. split; reflexivity.
Qed.

(** X27 ([delete_nodespace], then [create_nodespace]).  [delete_nodespace]
    leaves the id cursor on the id it has freed, not below it as
    [delete_node] does, and both scans of [create_nodespace] pass that id by:
    the next [create_nodespace] without a uid that returns hands out another
    id, one above the freed id or at least two below it. *)
Theorem deleted_nodespace_id_is_skipped (depth : nat) (uid : string) (id : Z)
    (parent_uid : option string) (position : option (list Z)) (name : option string)
    (s s' s'' : nodenet) (new_uid : string) :
  delete_nodespace depth uid s = Ok s' ->
  tnodespace.from_id uid = Ok id ->
  create_nodespace parent_uid position name None s' = Ok (new_uid, s'') ->
  new_uid ≠ tnodespace.to_id id
  /\ exists new_id,
       new_uid = tnodespace.to_id new_id
       /\ (id < new_id < NoNS s' \/ 1 <= new_id < id - 1).
Proof.
  intros Hdelete Hid Hcreate.
  pose proof (delete_nodespace_cursor _ _ _ _ _ Hdelete Hid) as Hcursor.
  apply create_nodespace_scanned in Hcreate as (new_id & Hscan & ->).
  apply find_free_id_found in Hscan as (Hpos & _ & Hwhere). rewrite Hcursor in Hwhere.
  split.
  - intros Hsame. apply nodespace_to_id_inj in Hsame. lia.
  - exists new_id. split; [reflexivity | lia].
Qed.

Lemma deleted_nodespace_id_is_skipped_witness :
  delete_nodespace recursion_limit "s2" child_nodespace_net = Ok child_nodespace_deleted
  /\ create_nodespace (Some "s1") None None None child_nodespace_deleted
     = Ok ("s3", third_nodespace_net)
  /\ "s3" ≠ tnodespace.to_id 2.
Proof.
  assert (Hdelete : delete_nodespace recursion_limit "s2" child_nodespace_net
                    = Ok child_nodespace_deleted) by (vm_compute; reflexivity).
  assert (Hcreate : create_nodespace (Some "s1") None None None child_nodespace_deleted
                    = Ok ("s3", third_nodespace_net)) by (vm_compute; reflexivity).
  split; [exact Hdelete|]. split; [exact Hcreate|].
  exact (proj1 (deleted_nodespace_id_is_skipped recursion_limit "s2" 2 (Some "s1") None None
                  child_nodespace_net child_nodespace_deleted third_nodespace_net "s3"
                  Hdelete eq_refl Hcreate)).
Defined.

(** ** [set_link_weight], when it has returned *)





(** The loop of [set_flags], when it has returned. *)
Lemma set_flags_keeps (offset value : Z) (js : list Z) :
  forall flags flags' : list Z,
    for_each (fun g flags => setitem flags (offset + g) value) js flags = Ok flags' ->
    length flags' = length flags
    /\ forall i, getitem flags i = Ok value -> getitem flags' i = Ok value.
Proof.
  induction js as [|j js IH]; intros flags flags' H; simpl in H.
  - injection H as <-. split; [reflexivity | auto].
  - destruct (setitem flags (offset + j) value) as [flags1|] eqn:E; [|discriminate].
    simpl in H. destruct (IH _ _ H) as [Hlen Hkept].
    split; [rewrite Hlen; eapply setitem_length; exact E|].
    intros i Hi. apply Hkept.
    destruct (getitem_setitem_cases _ _ _ i _ E) as [Hc|Hc]; congruence.
Qed.

Lemma set_flags_written (offset value : Z) (js : list Z) :
  forall flags flags' : list Z,
    for_each (fun g flags => setitem flags (offset + g) value) js flags = Ok flags' ->
    forall g, g ∈ js -> getitem flags' (offset + g) = Ok value.
Proof.
  induction js as [|j js IH]; intros flags flags' H g Hg; [inversion Hg|].
  simpl in H.
  destruct (setitem flags (offset + j) value) as [flags1|] eqn:E; [|discriminate].
  simpl in H. apply elem_of_cons in Hg as [-> | Hg]; [|eapply IH; eassumption].
  eapply set_flags_keeps; [exact H|]. eapply getitem_setitem_eq. exact E.
Qed.

Lemma set_link_weight_returned (source_node_uid gate_type target_node_uid slot_type : string)
    (weight : Q) (s s' : nodenet) :
  set_link_weight source_node_uid gate_type target_node_uid slot_type weight s = Ok s' ->
  exists source_id target_id target_type source_offset target_offset ngt nst,
    tnode.from_id source_node_uid = Ok source_id
    /\ tnode.from_id target_node_uid = Ok target_id
    /\ getitem (allocated_nodes s) target_id = Ok target_type
    /\ get_numerical_gate_type gate_type = Ok ngt
    /\ get_numerical_slot_type slot_type = Ok nst
    /\ getitem (allocated_node_offsets s) source_id = Ok source_offset
    /\ getitem (allocated_node_offsets s) target_id = Ok target_offset
    /\ w_setitem (w s) (target_offset + nst) (source_offset + ngt) weight = Ok (w s')
    /\ same_tables s s'
    /\ allocated_elements_to_nodes s' = allocated_elements_to_nodes s
    /\ a s' = a s
    /\ (if bool_decide (slot_type = "por") && (target_type =? PIPE)
        then set_flags (n_node_porlinked s) target_offset (if Qeq_bool weight 0 then 0 else 1)
             = Ok (n_node_porlinked s')
        else n_node_porlinked s' = n_node_porlinked s)
    /\ (if bool_decide (slot_type = "ret") && (target_type =? PIPE)
        then set_flags (n_node_retlinked s) target_offset (if Qeq_bool weight 0 then 0 else 1)
             = Ok (n_node_retlinked s')
        else n_node_retlinked s' = n_node_retlinked s).
Proof.
  unfold set_link_weight. intros H.
  destruct (tnode.from_id source_node_uid) as [source_id|] eqn:Esid; [|discriminate].
  cbn [mbind result_bind] in H.
  destruct (getitem (allocated_nodes s) source_id) as [source_type|]; [|discriminate].
  cbn [mbind result_bind] in H.
  destruct (MAX_STD_NODETYPE <? source_type); [discriminate|].
  cbn [mbind result_bind] in H.
  destruct (tnode.from_id target_node_uid) as [target_id|] eqn:Etid; [|discriminate].
  cbn [mbind result_bind] in H.
  destruct (getitem (allocated_nodes s) target_id) as [target_type|] eqn:Ettype;
    [|discriminate].
  cbn [mbind result_bind] in H.
  destruct (MAX_STD_NODETYPE <? target_type); [discriminate|].
  cbn [mbind result_bind] in H.
  destruct (get_numerical_gate_type gate_type) as [ngt|] eqn:Engt; [|discriminate].
  cbn [mbind result_bind] in H.
  destruct (get_numerical_slot_type slot_type) as [nst|] eqn:Enst; [|discriminate].
  cbn [mbind result_bind] in H.
  destruct (getitem (allocated_node_offsets s) target_id) as [target_offset|] eqn:Etoff;
    [|discriminate].
  cbn [mbind result_bind] in H.
  destruct (getitem (allocated_node_offsets s) source_id) as [source_offset|] eqn:Esoff;
    [|discriminate].
  cbn [mbind result_bind] in H.
  destruct (w_setitem (w s) (target_offset + nst) (source_offset + ngt) weight)
    as [w_matrix|] eqn:Ew; [|discriminate].
  cbn [mbind result_bind] in H.
  exists source_id, target_id, target_type, source_offset, target_offset, ngt, nst.
  destruct (bool_decide (slot_type = "por") && (target_type =? PIPE));
    destruct (bool_decide (slot_type = "ret") && (target_type =? PIPE));
    cbn in H; unfold RecordSettersUsingExistingGetters.const in H;
    repeat match type of H with
           | context [set_flags ?f ?o ?v] =>
               let E := fresh "E" in
               destruct (set_flags f o v) eqn:E; [|discriminate];
               cbn in H; unfold RecordSettersUsingExistingGetters.const in H
           end;
    injection H as <-; repeat split; assumption.
Qed.



(** X12 ([set_link_weight] and the link flags).  A call that returns with a
    weight that is not 0 has set the por flag of all seven elements of a Pipe
    whose POR slot it links, and the ret flag of those of a Pipe whose RET
    slot it links; it has left the ret flags alone in the first case, the
    por flags in the second, and both when the slot is neither or the target
    is no Pipe. *)
Theorem set_link_weight_sets_flags
    (source_node_uid gate_type target_node_uid slot_type : string)
    (weight : Q) (s s' : nodenet) :
  set_link_weight source_node_uid gate_type target_node_uid slot_type weight s = Ok s' ->
  ~ (weight == 0)%Q ->
  exists target_id target_type target_offset,
    tnode.from_id target_node_uid = Ok target_id
    /\ getitem (allocated_nodes s) target_id = Ok target_type
    /\ getitem (allocated_node_offsets s) target_id = Ok target_offset
    /\ (slot_type = "por" -> target_type = PIPE ->
        (forall g, 0 <= g < 7 -> getitem (n_node_porlinked s') (target_offset + g) = Ok 1)
        /\ n_node_retlinked s' = n_node_retlinked s)
    /\ (slot_type = "ret" -> target_type = PIPE ->
        (forall g, 0 <= g < 7 -> getitem (n_node_retlinked s') (target_offset + g) = Ok 1)
        /\ n_node_porlinked s' = n_node_porlinked s)
    /\ ((slot_type ≠ "por" /\ slot_type ≠ "ret") \/ target_type ≠ PIPE ->
        n_node_porlinked s' = n_node_porlinked s
        /\ n_node_retlinked s' = n_node_retlinked s).
Proof.
  intros H Hweight. apply set_link_weight_returned in H
    as (source_id & target_id & target_type & source_offset & target_offset & ngt & nst
        & _ & Htid & Htype & _ & _ & _ & Htoff & _ & _ & _ & _ & Hpor & Hret).
  exists target_id, target_type, target_offset.
  assert (Hnonzero : Qeq_bool weight 0 = false).
  { apply not_true_is_false. intros Hz. apply Qeq_bool_iff in Hz. contradiction. }
  rewrite Hnonzero in Hpor, Hret.
  split; [exact Htid|]. split; [exact Htype|]. split; [exact Htoff|].
  split; [|split].
  - intros -> ->. rewrite bool_decide_eq_true_2 in Hpor by reflexivity.
    rewrite bool_decide_eq_false_2 in Hret by discriminate.
    cbn in Hpor, Hret. split; [|exact Hret].
    intros g Hg. eapply set_flags_written; [exact Hpor|].
    unfold range. apply elem_of_seqZ. lia.
  - intros -> ->. rewrite bool_decide_eq_true_2 in Hret by reflexivity.
    rewrite bool_decide_eq_false_2 in Hpor by discriminate.
    cbn in Hpor, Hret. split; [|exact Hpor].
    intros g Hg. eapply set_flags_written; [exact Hret|].
    unfold range. apply elem_of_seqZ. lia.
  - intros [[Hnpor Hnret] | Hnpipe].
    + rewrite bool_decide_eq_false_2 in Hpor by exact Hnpor.
      rewrite bool_decide_eq_false_2 in Hret by exact Hnret. split; assumption.
    + assert ((target_type =? PIPE) = false) as E by (apply Z.eqb_neq; exact Hnpipe).
      rewrite E, andb_false_r in Hpor, Hret. split; assumption.
Qed.

Lemma set_link_weight_sets_flags_witness :
  register_then_pipe true = Ok register_and_pipe
  /\ exists s',
       set_link_weight "n1" "gen" "n2" "por" 1 register_and_pipe = Ok s'
       /\ n_node_retlinked s' = n_node_retlinked register_and_pipe
       /\ forall g, 0 <= g < 7 -> getitem (n_node_porlinked s') (2 + g) = Ok 1.
Proof.
  split; [vm_compute; reflexivity|].
  exists (state_of (set_link_weight "n1" "gen" "n2" "por" 1 register_and_pipe)).
  destruct (set_link_weight_sets_flags "n1" "gen" "n2" "por" 1 register_and_pipe
              (state_of (set_link_weight "n1" "gen" "n2" "por" 1 register_and_pipe)))
    as (tid & ttype & toff & Htid & Htype & Htoff & Hpor & _);
    [vm_compute; reflexivity | discriminate |].
  vm_compute in Htid. injection Htid as <-. vm_compute in Htype. injection Htype as <-.
  vm_compute in Htoff. injection Htoff as <-.
  destruct (Hpor eq_refl eq_refl) as [Hflags Hret].
  split; [vm_compute; reflexivity|]. split; [exact Hret | exact Hflags].
Defined.

(** ** [set_nodespace_gatetype_activator], when it has returned *)




(** ** Node groups *)




Lemma int_of_uid_raises (uid : string) (e : exn) :
  int_of_uid uid = Raise e -> e = ValueError.
Proof.
  unfold int_of_uid. destruct uid as [|c digits]; [congruence|].
  destruct (NilZero.int_of_string digits); simpl; congruence.
Qed.

Lemma map_result_from_id_perm (uids uids' : list string) :
  Permutation uids uids' ->
  match map_result tnode.from_id uids with
  | Ok ids => exists ids', map_result tnode.from_id uids' = Ok ids' /\ Permutation ids ids'
  | Raise e => e = ValueError /\ map_result tnode.from_id uids' = Raise ValueError
  end.
Proof.
  induction 1 as [|u l l' _ IH|u1 u2 l|l l' l'' _ IH1 _ IH2].
  - simpl. exists []. split; reflexivity.
  - cbn [map_result]. destruct (tnode.from_id u) as [id|e] eqn:Eu; cbn [mbind result_bind].
    + destruct (map_result tnode.from_id l) as [ids|e]; cbn [mbind result_bind].
      * destruct IH as (ids' & -> & Hperm). cbn [mbind result_bind].
        exists (id :: ids'). split; [reflexivity | constructor; exact Hperm].
      * destruct IH as [-> ->]. split; reflexivity.
    + apply int_of_uid_raises in Eu as ->. split; reflexivity.
  - cbn [map_result].
    destruct (tnode.from_id u1) as [id1|e1] eqn:E1, (tnode.from_id u2) as [id2|e2] eqn:E2;
      cbn [mbind result_bind];
      try (apply int_of_uid_raises in E1 as ->); try (apply int_of_uid_raises in E2 as ->).
    + destruct (map_result tnode.from_id l) as [ids|e] eqn:El; cbn [mbind result_bind].
      * exists (id1 :: id2 :: ids). split; [reflexivity | apply perm_swap].
      * assert (e = ValueError) as ->.
        { clear -El. revert e El. induction l as [|u l IH]; intros e El; [discriminate|].
          cbn [map_result] in El. destruct (tnode.from_id u) eqn:Eu; cbn in El.
          - destruct (map_result tnode.from_id l); [discriminate|].
            injection El as <-. eapply IH. reflexivity.
          - injection El as <-. eapply int_of_uid_raises. exact Eu. }
        split; reflexivity.
    + split; reflexivity.
    + destruct (map_result tnode.from_id l); split; reflexivity.
    + split; reflexivity.
  - destruct (map_result tnode.from_id l) as [ids|e].
    + destruct IH1 as (ids' & E' & Hperm). rewrite E' in IH2.
      destruct IH2 as (ids'' & E'' & Hperm'). exists ids''.
      split; [exact E'' | etransitivity; eassumption].
    + destruct IH1 as [-> E']. rewrite E' in IH2. destruct IH2 as [_ E''].
      split; [reflexivity | exact E''].
Qed.

Lemma merge_sort_perm (ids ids' : list Z) :
  Permutation ids ids' -> merge_sort Z.le ids = merge_sort Z.le ids'.
Proof.
  intros Hperm. apply (Sorted_unique Z.le).
  - apply Sorted_merge_sort. apply _.
  - apply Sorted_merge_sort. apply _.
  - rewrite !merge_sort_Permutation. exact Hperm.
Qed.

(** X15 ([group_nodes_by_ids]).  The order in which the uids are given does
    not matter: the group holds the offsets in ascending order of the ids,
    and the call returns or raises the same for every order. *)
Theorem group_nodes_by_ids_any_order (node_ids node_ids' : list string)
    (group_name : string) (s : nodenet) (groups : nodegroups) :
  Permutation node_ids node_ids' ->
  group_nodes_by_ids node_ids group_name s groups
  = group_nodes_by_ids node_ids' group_name s groups.
Proof.
  intros Hperm. unfold group_nodes_by_ids.
  pose proof (map_result_from_id_perm _ _ Hperm) as H.
  destruct (map_result tnode.from_id node_ids) as [ids|e].
  - destruct H as (ids' & -> & Hids). cbn [mbind result_bind].
    rewrite (merge_sort_perm _ _ Hids). reflexivity.
  - destruct H as [-> ->]. reflexivity.
Qed.

Lemma group_nodes_by_ids_any_order_witness :
  register_then_pipe true = Ok register_and_pipe
  /\ group_nodes_by_ids ["n2"; "n1"] "both" register_and_pipe ∅
     = group_nodes_by_ids ["n1"; "n2"] "both" register_and_pipe ∅
  /\ group_nodes_by_ids ["n1"; "n2"] "both" register_and_pipe ∅ = Ok {["both" := [1; 2]]}.
Proof.
  split; [vm_compute; reflexivity|]. split.
  - apply group_nodes_by_ids_any_order. apply perm_swap.
  - vm_compute. reflexivity.
Defined.






(** ** [save] and [load] *)




(** ** A dense matrix through its CSR arrays *)













(** ** The inverted maps after [load] *)

(** The inner loop: all the ids of one key. *)
Lemma refill_one_key (key : string) (ids : list Z) :
  forall (inverted : gmap string string) (uid : string),
    foldl (fun inv id => <[tnode.to_id id := key]> inv) inverted ids !! uid
    = if bool_decide (uid ∈ tnode.to_id <$> ids) then Some key else inverted !! uid.
Proof.
  induction ids as [|id ids IH]; intros inverted uid; [reflexivity|].
  cbn [foldl]. rewrite IH, fmap_cons.
  destruct (decide (uid ∈ tnode.to_id <$> ids)) as [Hin|Hout].
  - rewrite !bool_decide_eq_true_2; [reflexivity | | exact Hin].
    apply elem_of_cons. right. exact Hin.
  - rewrite (bool_decide_eq_false_2 _ Hout).
    destruct (decide (uid = tnode.to_id id)) as [->|Hne].
    + rewrite lookup_insert_eq, bool_decide_eq_true_2; [reflexivity|].
      apply elem_of_cons. left. reflexivity.
    + rewrite lookup_insert_ne by congruence.
      rewrite bool_decide_eq_false_2; [reflexivity|].
      intros Hin. apply elem_of_cons in Hin as [? | ?]; contradiction.
Qed.

Lemma refill_all_keys (items : list (string * list Z)) :
  forall before : gmap string string,
    let after :=
      foldl (fun inv kv => foldl (fun inv id => <[tnode.to_id id := fst kv]> inv) inv (snd kv))
            before items in
    (forall key ids id, (key, ids) ∈ items -> id ∈ ids ->
       exists key' ids', after !! tnode.to_id id = Some key'
                         /\ (key', ids') ∈ items /\ id ∈ ids')
    /\ (forall uid key, after !! uid = Some key ->
          before !! uid = Some key
          \/ exists ids id, (key, ids) ∈ items /\ id ∈ ids /\ uid = tnode.to_id id)
    /\ (forall uid,
          (forall key ids id, (key, ids) ∈ items -> id ∈ ids -> uid ≠ tnode.to_id id) ->
          after !! uid = before !! uid).
Proof.
  induction items as [|[key ids] items IH] using rev_ind; intros before after.
  - subst after. simpl. split; [|split].
    + intros key ids id Hin. inversion Hin.
    + intros uid key H. left. exact H.
    + reflexivity.
  - subst after. rewrite foldl_app. simpl.
    destruct (IH before) as (Hlisted & Horigin & Hstale). clear IH.
    set (middle := foldl _ before items) in *.
    split; [|split].
    + intros key0 ids0 id Hin Hid.
      destruct (decide (id ∈ ids)) as [Hlast|Hnot].
      * exists key, ids. rewrite refill_one_key, bool_decide_eq_true_2.
        -- split; [reflexivity|]. split; [|exact Hlast].
           apply elem_of_app. right. apply list_elem_of_singleton. reflexivity.
        -- apply list_elem_of_fmap. exists id. split; [reflexivity | exact Hlast].
      * apply elem_of_app in Hin as [Hin|Hin].
        -- destruct (Hlisted key0 ids0 id Hin Hid) as (key' & ids' & Hk & Hin' & Hid').
           exists key', ids'. rewrite refill_one_key, bool_decide_eq_false_2.
           ++ split; [exact Hk|]. split; [|exact Hid'].
              apply elem_of_app. left. exact Hin'.
           ++ intros Hin2. apply list_elem_of_fmap in Hin2 as (id' & Heq & Hid2).
              apply to_id_inj in Heq as ->. contradiction.
        -- apply list_elem_of_singleton in Hin. injection Hin as -> ->. contradiction.
    + intros uid key0 H. rewrite refill_one_key in H. case_bool_decide as Hin.
      * injection H as <-. right.
        apply list_elem_of_fmap in Hin as (id & -> & Hid).
        exists ids, id. split; [|split; [exact Hid | reflexivity]].
        apply elem_of_app. right. apply list_elem_of_singleton. reflexivity.
      * destruct (Horigin uid key0 H) as [Hb | (ids0 & id & Hin0 & Hid & ->)];
          [left; exact Hb|].
        right. exists ids0, id. split; [|split; [exact Hid | reflexivity]].
        apply elem_of_app. left. exact Hin0.
    + intros uid Hfresh. rewrite refill_one_key, bool_decide_eq_false_2.
      * apply Hstale. intros key0 ids0 id Hin Hid. apply (Hfresh key0 ids0 id); [|exact Hid].
        apply elem_of_app. left. exact Hin.
      * intros Hin. apply list_elem_of_fmap in Hin as (id & -> & Hid).
        apply (Hfresh key ids id); [|exact Hid | reflexivity].
        apply elem_of_app. right. apply list_elem_of_singleton. reflexivity.
Qed.

Lemma rebuild_inverted_refilled (m : gmap string (list Z)) (before : gmap string string) :
  refilled m before (rebuild_inverted m before).
Proof.
  unfold rebuild_inverted.
  destruct (refill_all_keys (map_to_list m) before) as (Hlisted & Horigin & Hstale).
  constructor.
  - intros key ids id Hkey Hid. apply elem_of_map_to_list in Hkey.
    destruct (Hlisted key ids id Hkey Hid) as (key' & ids' & Hk & Hin & Hid').
    exists key', ids'. split; [exact Hk|]. split; [|exact Hid'].
    apply elem_of_map_to_list. exact Hin.
  - intros uid key H. destruct (Horigin uid key H) as [Hb | (ids & id & Hin & Hid & ->)];
      [left; exact Hb|].
    right. exists ids, id. split; [|split; [exact Hid | reflexivity]].
    apply elem_of_map_to_list. exact Hin.
  - intros uid Hfresh. apply Hstale. intros key ids id Hin Hid.
    apply (Hfresh key ids id); [|exact Hid]. apply elem_of_map_to_list. exact Hin.
Qed.

Lemma load_archive_keeps_maps (ar : archive) (s s' : nodenet) :
  load_archive ar s = Ok s' ->
  sensormap s' = sensormap s /\ actuatormap s' = actuatormap s
  /\ inverted_sensor_map s' = inverted_sensor_map s
  /\ inverted_actuator_map s' = inverted_actuator_map s.
Proof.
  unfold load_archive. intros H.
  destruct (load_sizes ar s) as [s1|] eqn:E1; [|discriminate].
  apply load_sizes_shape in E1 as (non & noe & log1 & -> & _ & _).
  cbn [mbind result_bind] in H.
  match type of H with
  | context [load_weights ar ?x] =>
      destruct (load_weights ar x) as [s3|] eqn:E3; [|discriminate]
  end.
  apply load_weights_shape in E3 as (m & v & log3 & -> & _ & _).
  cbn [mbind result_bind] in H. injection H as <-.
  split; [carry sensormap|]. split; [carry actuatormap|].
  split; [carry inverted_sensor_map | carry inverted_actuator_map].
Qed.

(** X19 ([load] and the inverted maps).  When [load] returns [True], the
    inverted sensor map has, for every sensor id the sensor map lists, an
    entry that names a datasource listing it, and every entry comes from the
    sensor map or was there before the call; the same holds for the
    actuators.  The inverted maps are not emptied first: an entry of the
    loading engine for a uid that the loaded maps do not list is still there
    after the call. *)
Theorem load_refills_inverted_maps (metafile : file metadata) (datafile : file archive)
    (s s' : nodenet) :
  load metafile datafile s = Ok (true, s') ->
  refilled (sensormap s') (inverted_sensor_map s) (inverted_sensor_map s')
  /\ refilled (actuatormap s') (inverted_actuator_map s) (inverted_actuator_map s').
Proof.
  unfold load. intros H.
  assert (Hinit : forall initfrom,
            inverted_sensor_map (initialize_nodenet initfrom s) = inverted_sensor_map s
            /\ inverted_actuator_map (initialize_nodenet initfrom s)
               = inverted_actuator_map s).
  { intros [md|]; [|split; reflexivity]. unfold initialize_nodenet.
    destruct (md_names md), (md_positions md), (md_actuatormap md), (md_sensormap md);
      split; reflexivity. }
  assert (Hload : forall initfrom s1,
            match datafile with
            | Content ar => load_archive ar (initialize_nodenet initfrom s)
            | _ => Ok (initialize_nodenet initfrom s)
            end = Ok s1 ->
            sensormap s1 = sensormap (initialize_nodenet initfrom s)
            /\ actuatormap s1 = actuatormap (initialize_nodenet initfrom s)
            /\ inverted_sensor_map s1 = inverted_sensor_map s
            /\ inverted_actuator_map s1 = inverted_actuator_map s).
  { intros initfrom s1 E. destruct (Hinit initfrom) as [Hs Ha].
    destruct datafile as [| | |ar]; try (injection E as <-; repeat split; assumption).
    apply load_archive_keeps_maps in E as (-> & -> & -> & ->).
    repeat split; assumption. }
  destruct metafile as [| | |md]; try discriminate;
    destruct datafile as [| | |ar]; try discriminate.
  all: match type of H with
       | mbind _ ?m = _ => destruct m as [s1|] eqn:E; [|discriminate]
       end;
    cbn [mbind result_bind] in H; injection H as <-;
    match type of E with
    | context [initialize_nodenet ?initfrom _] =>
        destruct (Hload initfrom s1) as (_ & _ & Hs & Ha); [exact E|]
    end;
    cbn; unfold RecordSettersUsingExistingGetters.const; rewrite <- Hs, <- Ha;
    split; apply rebuild_inverted_refilled.
Qed.

Lemma load_refills_inverted_maps_witness :
  load (Content two_sensors_metadata) NoFile bare_net = Ok (true, loaded_two_sensors)
  /\ sensormap loaded_two_sensors !! "light" = Some [1; 2]
  /\ exists key ids,
       inverted_sensor_map loaded_two_sensors !! tnode.to_id 2 = Some key
       /\ sensormap loaded_two_sensors !! key = Some ids /\ 2 ∈ ids.
Proof.
  split; [vm_compute; reflexivity|]. split; [vm_compute; reflexivity|].
  destruct (load_refills_inverted_maps (Content two_sensors_metadata) NoFile bare_net
              loaded_two_sensors) as [[Hlisted _ _] _].
  - vm_compute. reflexivity.
  - apply (Hlisted "light" [1; 2] 2); [vm_compute; reflexivity|].
    apply list_elem_of_further, list_elem_of_singleton. reflexivity.
Defined.

(** ** [construct_nodes_dict] *)

Lemma construct_nodes_loop_all (s : nodenet) (max_nodes : Z) (nodeids : list Z) :
  (forall id, id ∈ nodeids -> is_node s (tnode.to_id id) = true) ->
  forall (i : Z) (data : list string),
    0 <= i ->
    construct_nodes_loop s max_nodes i nodeids data
    = Ok (data ++ (tnode.to_id <$>
                     if 0 <? max_nodes
                     then take (Z.to_nat (Z.max 1 (max_nodes + 1 - i))) nodeids
                     else nodeids))%list.
Proof.
  induction nodeids as [|id nodeids IH]; intros Hlive i data Hi.
  - simpl. destruct (0 <? max_nodes); rewrite ?take_nil, app_nil_r; reflexivity.
  - cbn [construct_nodes_loop]. rewrite Hlive by left.
    destruct (Z.ltb_spec 0 max_nodes) as [Hmax|Hmax]; cbn [andb].
    + destruct (Z.ltb_spec max_nodes (i + 1)) as [Hstop|Hgo].
      * replace (Z.to_nat (Z.max 1 (max_nodes + 1 - i))) with 1%nat by lia.
        reflexivity.
      * rewrite IH by (first [lia | intros; apply Hlive; right; assumption]).
        destruct (Z.ltb_spec 0 max_nodes); [|lia].
        replace (Z.to_nat (Z.max 1 (max_nodes + 1 - i)))
          with (S (Z.to_nat (Z.max 1 (max_nodes + 1 - (i + 1))))) by lia.
        cbn [take fmap list_fmap]. rewrite <- app_assoc. reflexivity.
    + rewrite IH by (first [lia | intros; apply Hlive; right; assumption]).
      destruct (Z.ltb_spec 0 max_nodes); [lia|].
      cbn [fmap list_fmap]. rewrite <- app_assoc. reflexivity.
Qed.

(** X20 ([construct_nodes_dict] without a nodespace).  The call returns
    the uids of all nodes when [max_nodes] is not positive, and otherwise
    the uids of the first [max_nodes + 1] nodes: the loop stops only after
    it has entered one node more than [max_nodes]. *)
Theorem construct_nodes_dict_limit (max_nodes : Z) (s : nodenet) :
  construct_nodes_dict None max_nodes s
  = Ok (if 0 <? max_nodes then take (Z.to_nat (max_nodes + 1)) (get_node_uids s)
        else get_node_uids s).
Proof.
  unfold construct_nodes_dict. cbn [mbind result_bind].
  rewrite construct_nodes_loop_all; [| |lia].
  - unfold get_node_uids. destruct (Z.ltb_spec 0 max_nodes); [|reflexivity].
    rewrite fmap_take. cbn [app]. do 3 f_equal. lia.
  - intros id Hid. unfold is_node, get_node_uids. apply bool_decide_eq_true_2.
    apply list_elem_of_fmap. exists id. split; [reflexivity | exact Hid].
Qed.

(** ** The cells of the rebuilt shifted view *)

Lemma lookup_omap_total {A B : Type} (f : A -> option B) (l : list A) (j : nat) :
  Forall (fun x => is_Some (f x)) l -> omap f l !! j = l !! j ≫= f.
Proof.
  intros Hall. revert j. induction Hall as [|x l [y Hy] Hall IH]; intros j; [reflexivity|].
  cbn [omap list_omap]. rewrite Hy. destruct j as [|j]; simpl.
  - rewrite Hy. reflexivity.
  - apply IH.
Qed.

Lemma np_roll_lookup (buf : list Q) (shift : Z) (j : nat) :
  np_roll buf shift !! j
  = if decide (j < length buf)%nat
    then buf !! Z.to_nat ((Z.of_nat j - shift) mod Z.of_nat (length buf))
    else None.
Proof.
  unfold np_roll. rewrite lookup_omap_total.
  - destruct (decide (j < length buf)%nat) as [Hj|Hj].
    + rewrite lookup_seq_lt by exact Hj. reflexivity.
    + rewrite lookup_seq_ge by lia. reflexivity.
  - apply Forall_forall. intros i Hi. apply elem_of_seq in Hi.
    apply lookup_lt_is_Some_2.
    pose proof (Z.mod_pos_bound (Z.of_nat i - shift) (Z.of_nat (length buf))). lia.
Qed.

(** X28 ([rebuild_shifted]).  The view has a row for every element, and cell
    [k] of row [i] is [a[(i + k - 7) mod n]], [n] the length of [a], while
    [i + k < n]; the cells with [i + k >= n], which the last 13 rows have,
    lie past the end of the rolled buffer. *)
Theorem rebuild_shifted_cells (s : nodenet) (i k : nat) :
  (i < Z.to_nat (NoE s))%nat ->
  (k < 14)%nat ->
  exists row,
    a_shifted (rebuild_shifted s) !! i = Some row
    /\ row !! k
       = Some (if decide (i + k < length (a s))%nat
               then a s !! Z.to_nat ((Z.of_nat (i + k) - 7) mod Z.of_nat (length (a s)))
               else None).
Proof.
  intros Hi Hk.
  change (a_shifted (rebuild_shifted s))
    with (as_strided (np_roll (a s) 7) (Z.to_nat (NoE s)) 14).
  unfold as_strided.
  rewrite list_lookup_fmap, lookup_seq_lt by exact Hi.
  eexists. split; [reflexivity|].
  rewrite list_lookup_fmap, lookup_seq_lt by exact Hk.
  cbn [fmap option_fmap option_map Nat.add]. rewrite np_roll_lookup.
  reflexivity.
Qed.

Lemma rebuild_shifted_cells_witness :
  counting_activations = Ok counting_net
  /\ exists row,
       a_shifted (rebuild_shifted counting_net) !! 3%nat = Some row
       /\ row !! 2%nat = Some (Some (inject_Z 14)).
Proof.
  split; [vm_compute; reflexivity|].
  destruct (rebuild_shifted_cells counting_net 3 2) as (row & Hrow & Hcell).
  - vm_compute. lia.
  - lia.
  - exists row. split; [exact Hrow|]. rewrite Hcell. vm_compute. reflexivity.
Defined.

(** ** The gate function *)





